(** * The Android JNI binding of libavif

    A shallow embedding of
    [android_jni/avifandroidjni/src/main/jni/libavif_jni.cc]: the RAII
    wrapper [AvifDecoderWrapper], the helpers [CreateDecoderAndParse],
    [AvifImageToBitmap], [DecodeNextImage], [DecodeNthImage],
    [getThreadCount] and the JNI entry points [decode], [createDecoder],
    [nextFrame], [nextFrameIndex], [nthFrame] and [destroyDecoder].

    The binding is stateful C++ over three stores: the native decoders
    handed out by [avifDecoderCreate], the [AvifDecoderWrapper] objects
    (on the stack of [decode], on the heap for [createDecoder]) and the
    Java objects reached through [JNIEnv].  All three are explicit in
    [World], keyed by address (0 is [nullptr]); a computation is a
    function from a world to either a result and the next world, or
    nothing when the C++ program has undefined behaviour (a dangling or
    null pointer is dereferenced or deleted).  The native library itself
    is a parameter ([NativeLib]); allocation failures follow a plan that is
    part of the world, so that a statement about every world is a statement
    about every pattern of failures. *)

From stdpp Require Import gmap strings list.
From Stdlib Require Import ZArith Lia.

Local Open Scope Z_scope.

(** ** Enumerations of avif.h and android/bitmap.h *)

(** [avifResult]: the three codes the binding names, and every other code
    the native library may return. *)
Inductive avifResult :=
  | AVIF_RESULT_OK
  | AVIF_RESULT_UNKNOWN_ERROR
  | AVIF_RESULT_NOT_IMPLEMENTED
  | AVIF_RESULT_NATIVE (code : Z).

#[global] Instance avifResult_eq_dec : EqDecision avifResult.
Proof. solve_decision. Defined.

Definition is_ok (res : avifResult) : bool :=
  match res with AVIF_RESULT_OK => true | _ => false end.

Inductive avifRGBFormat :=
  | AVIF_RGB_FORMAT_RGB
  | AVIF_RGB_FORMAT_RGBA
  | AVIF_RGB_FORMAT_ARGB
  | AVIF_RGB_FORMAT_BGR
  | AVIF_RGB_FORMAT_BGRA
  | AVIF_RGB_FORMAT_ABGR
  | AVIF_RGB_FORMAT_RGB_565.

#[global] Instance avifRGBFormat_eq_dec : EqDecision avifRGBFormat.
Proof. solve_decision. Defined.

Inductive AndroidBitmapFormat :=
  | ANDROID_BITMAP_FORMAT_NONE
  | ANDROID_BITMAP_FORMAT_RGBA_8888
  | ANDROID_BITMAP_FORMAT_RGB_565
  | ANDROID_BITMAP_FORMAT_RGBA_4444
  | ANDROID_BITMAP_FORMAT_A_8
  | ANDROID_BITMAP_FORMAT_RGBA_F16
  | ANDROID_BITMAP_FORMAT_RGBA_1010102.

#[global] Instance AndroidBitmapFormat_eq_dec : EqDecision AndroidBitmapFormat.
Proof. solve_decision. Defined.

(** [avifStrictFlag] bits cleared by [CreateDecoderAndParse]. *)
Definition AVIF_STRICT_PIXI_REQUIRED : Z := Z.shiftl 1 0.
Definition AVIF_STRICT_CLAP_VALID : Z := Z.shiftl 1 1.

(** ** Integer conversions at the JNI boundary *)

(** [uint32_t] to [jint] (a 32-bit two's complement int). *)
Definition jint_of_uint32 (z : Z) : Z :=
  if z <? 2 ^ 31 then z else z - 2 ^ 32.

(** [jint] to [uint32_t], as in the call [DecodeNthImage(env, decoder, n, bitmap)]. *)
Definition uint32_of_jint (z : Z) : Z := z mod 2 ^ 32.

(** ** Structures *)

(** The parts of the native library's data the binding never looks into. *)
Class NativeTypes := {
  DecoderData : Type;   (* avifDecoder's io, diag and private data *)
  ImageData : Type;     (* the YUV and alpha planes of an avifImage *)
  double : Type         (* IEEE doubles, only carried, never computed on *)
}.

Section Structures.
Context {T : NativeTypes}.

Record avifImage := {
  width : Z;
  height : Z;
  depth : Z;
  yuv : ImageData
}.

(** [decoder->image] is read by the binding only after a successful parse,
    when the library has allocated it; it is a field here. *)
Record avifDecoder := {
  maxThreads : Z;
  ignoreXMP : bool;
  ignoreExif : bool;
  strictFlags : Z;
  image : avifImage;
  alphaPresent : bool;
  repetitionCount : Z;
  imageCount : Z;
  imageIndex : Z;
  data : DecoderData
}.

Record avifImageTiming := { duration : double }.

(** [pixels] is the memory [rgb_image.pixels] points to, by value. *)
Record avifRGBImage := {
  rgb_width : Z;
  rgb_height : Z;
  rgb_depth : Z;
  rgb_format : avifRGBFormat;
  ignoreAlpha : bool;
  alphaPremultiplied : bool;
  isFloat : bool;
  pixels : list Byte.byte;
  rowBytes : Z
}.

Record AndroidBitmapInfo := {
  bitmap_width : Z;
  bitmap_height : Z;
  bitmap_stride : Z;
  bitmap_format : AndroidBitmapFormat
}.

(** A Java [Bitmap]: what [AndroidBitmap_getInfo] reports, its pixel
    memory, whether [AndroidBitmap_lockPixels] can lock it, and how many
    locks are held. *)
Record Bitmap := {
  bitmap_info : AndroidBitmapInfo;
  bitmap_pixels : list Byte.byte;
  lockable : bool;
  locks : nat
}.

(** [struct AvifDecoderWrapper]: [decoder] is an address, 0 for [nullptr]. *)
Record AvifDecoderWrapper := { decoder : Z }.

Inductive jvalue :=
  | JInt (z : Z)
  | JBoolean (b : bool)
  | JDoubleArray (ds : list double).

Inductive LogArg :=
  | ArgInt (z : Z)
  | ArgResult (res : avifResult)
  | ArgFormat (f : AndroidBitmapFormat).

(** What an observer of the process sees: [LOGE] lines and the calls into
    the native library that create, destroy and convert. *)
Inductive Event :=
  | EvLOGE (fmt : string) (args : list LogArg)
  | EvDecoderCreate (h : Z)
  | EvDecoderDestroy (h : Z)
  | EvYUVToRGB (img : avifImage) (rgb : avifRGBImage).

Record World := {
  decoders : gmap Z avifDecoder;
  wrappers : gmap Z AvifDecoderWrapper;
  bitmaps : gmap Z Bitmap;
  buffers : gmap Z (list Byte.byte);
  fields : gmap (Z * string) jvalue;
  alloc_plan : list bool;
  trace : list Event
}.

(** Field updates. *)
Definition set_maxThreads (v : Z) (d : avifDecoder) : avifDecoder :=
  {| maxThreads := v; ignoreXMP := ignoreXMP d; ignoreExif := ignoreExif d;
     strictFlags := strictFlags d; image := image d;
     alphaPresent := alphaPresent d; repetitionCount := repetitionCount d;
     imageCount := imageCount d; imageIndex := imageIndex d; data := data d |}.

Definition set_ignoreXMP (v : bool) (d : avifDecoder) : avifDecoder :=
  {| maxThreads := maxThreads d; ignoreXMP := v; ignoreExif := ignoreExif d;
     strictFlags := strictFlags d; image := image d;
     alphaPresent := alphaPresent d; repetitionCount := repetitionCount d;
     imageCount := imageCount d; imageIndex := imageIndex d; data := data d |}.

Definition set_ignoreExif (v : bool) (d : avifDecoder) : avifDecoder :=
  {| maxThreads := maxThreads d; ignoreXMP := ignoreXMP d; ignoreExif := v;
     strictFlags := strictFlags d; image := image d;
     alphaPresent := alphaPresent d; repetitionCount := repetitionCount d;
     imageCount := imageCount d; imageIndex := imageIndex d; data := data d |}.

Definition set_strictFlags (v : Z) (d : avifDecoder) : avifDecoder :=
  {| maxThreads := maxThreads d; ignoreXMP := ignoreXMP d;
     ignoreExif := ignoreExif d; strictFlags := v; image := image d;
     alphaPresent := alphaPresent d; repetitionCount := repetitionCount d;
     imageCount := imageCount d; imageIndex := imageIndex d; data := data d |}.

Definition set_rgb_depth (v : Z) (r : avifRGBImage) : avifRGBImage :=
  {| rgb_width := rgb_width r; rgb_height := rgb_height r; rgb_depth := v;
     rgb_format := rgb_format r; ignoreAlpha := ignoreAlpha r;
     alphaPremultiplied := alphaPremultiplied r; isFloat := isFloat r;
     pixels := pixels r; rowBytes := rowBytes r |}.

Definition set_rgb_format (v : avifRGBFormat) (r : avifRGBImage) : avifRGBImage :=
  {| rgb_width := rgb_width r; rgb_height := rgb_height r;
     rgb_depth := rgb_depth r; rgb_format := v; ignoreAlpha := ignoreAlpha r;
     alphaPremultiplied := alphaPremultiplied r; isFloat := isFloat r;
     pixels := pixels r; rowBytes := rowBytes r |}.

Definition set_isFloat (v : bool) (r : avifRGBImage) : avifRGBImage :=
  {| rgb_width := rgb_width r; rgb_height := rgb_height r;
     rgb_depth := rgb_depth r; rgb_format := rgb_format r;
     ignoreAlpha := ignoreAlpha r;
     alphaPremultiplied := alphaPremultiplied r; isFloat := v;
     pixels := pixels r; rowBytes := rowBytes r |}.

Definition set_alphaPremultiplied (v : bool) (r : avifRGBImage) : avifRGBImage :=
  {| rgb_width := rgb_width r; rgb_height := rgb_height r;
     rgb_depth := rgb_depth r; rgb_format := rgb_format r;
     ignoreAlpha := ignoreAlpha r; alphaPremultiplied := v;
     isFloat := isFloat r; pixels := pixels r; rowBytes := rowBytes r |}.

Definition set_pixels (v : list Byte.byte) (r : avifRGBImage) : avifRGBImage :=
  {| rgb_width := rgb_width r; rgb_height := rgb_height r;
     rgb_depth := rgb_depth r; rgb_format := rgb_format r;
     ignoreAlpha := ignoreAlpha r;
     alphaPremultiplied := alphaPremultiplied r; isFloat := isFloat r;
     pixels := v; rowBytes := rowBytes r |}.

Definition set_rowBytes (v : Z) (r : avifRGBImage) : avifRGBImage :=
  {| rgb_width := rgb_width r; rgb_height := rgb_height r;
     rgb_depth := rgb_depth r; rgb_format := rgb_format r;
     ignoreAlpha := ignoreAlpha r;
     alphaPremultiplied := alphaPremultiplied r; isFloat := isFloat r;
     pixels := pixels r; rowBytes := v |}.

Definition set_bitmap_pixels (v : list Byte.byte) (b : Bitmap) : Bitmap :=
  {| bitmap_info := bitmap_info b; bitmap_pixels := v;
     lockable := lockable b; locks := locks b |}.

Definition set_locks (v : nat) (b : Bitmap) : Bitmap :=
  {| bitmap_info := bitmap_info b; bitmap_pixels := bitmap_pixels b;
     lockable := lockable b; locks := v |}.

Definition set_decoders (v : gmap Z avifDecoder) (w : World) : World :=
  {| decoders := v; wrappers := wrappers w; bitmaps := bitmaps w;
     buffers := buffers w; fields := fields w; alloc_plan := alloc_plan w;
     trace := trace w |}.

Definition set_wrappers (v : gmap Z AvifDecoderWrapper) (w : World) : World :=
  {| decoders := decoders w; wrappers := v; bitmaps := bitmaps w;
     buffers := buffers w; fields := fields w; alloc_plan := alloc_plan w;
     trace := trace w |}.

Definition set_bitmaps (v : gmap Z Bitmap) (w : World) : World :=
  {| decoders := decoders w; wrappers := wrappers w; bitmaps := v;
     buffers := buffers w; fields := fields w; alloc_plan := alloc_plan w;
     trace := trace w |}.

Definition set_fields (v : gmap (Z * string) jvalue) (w : World) : World :=
  {| decoders := decoders w; wrappers := wrappers w; bitmaps := bitmaps w;
     buffers := buffers w; fields := v; alloc_plan := alloc_plan w;
     trace := trace w |}.

Definition set_alloc_plan (v : list bool) (w : World) : World :=
  {| decoders := decoders w; wrappers := wrappers w; bitmaps := bitmaps w;
     buffers := buffers w; fields := fields w; alloc_plan := v;
     trace := trace w |}.

Definition emit (e : Event) (w : World) : World :=
  {| decoders := decoders w; wrappers := wrappers w; bitmaps := bitmaps w;
     buffers := buffers w; fields := fields w; alloc_plan := alloc_plan w;
     trace := trace w ++ [e] |}.

(** ** Computations *)

(** [None] is undefined behaviour of the C++ program. *)
Definition M (A : Type) : Type := World -> option (A * World).

Definition ret {A} (a : A) : M A := fun w => Some (a, w).

Definition bind {A B} (c : M A) (k : A -> M B) : M B :=
  fun w => match c w with
           | Some (a, w') => k a w'
           | None => None
           end.

Definition undefined {A} : M A := fun _ => None.

End Structures.

Declare Scope jni_scope.
Delimit Scope jni_scope with jni.
Notation "x <- c ;; k" := (bind c (fun x => k))
  (at level 100, c at next level, right associativity) : jni_scope.
Notation "c ;;; k" := (bind c (fun _ => k))
  (at level 100, right associativity) : jni_scope.

Local Open Scope jni_scope.

(** ** The native library, as the binding sees it

    The library is a collaborator behind a fixed C API.  Each entry point is
    a function of the decoder state it is given; what these functions
    compute is left open. *)
Class NativeLib {T : NativeTypes} := {
  (* the state of a decoder just returned by avifDecoderCreate *)
  native_create : avifDecoder;
  native_set_io_memory :
    avifDecoder -> option (list Byte.byte) -> Z -> avifResult * avifDecoder;
  native_parse : avifDecoder -> avifResult * avifDecoder;
  native_next_image : avifDecoder -> avifResult * avifDecoder;
  native_nth_image : avifDecoder -> Z -> avifResult * avifDecoder;
  native_nth_image_timing : avifDecoder -> Z -> avifResult * avifImageTiming;
  native_rgb_defaults : avifImage -> avifRGBImage;
  (* the result code and the pixel memory as the conversion leaves it *)
  native_yuv_to_rgb : avifImage -> avifRGBImage -> avifResult * list Byte.byte;
  native_cpu_count : Z
}.

Section Binding.
Context {T : NativeTypes} {L : NativeLib}.

(** *** Memory and allocation *)

(** The next allocation succeeds unless the plan says otherwise. *)
Definition try_alloc : M bool := fun w =>
  match alloc_plan w with
  | [] => Some (true, w)
  | ok :: plan => Some (ok, set_alloc_plan plan w)
  end.

Definition fresh_address {A} (m : gmap Z A) : Z := fresh ({[0]} ∪ dom m).

Definition load_decoder (h : Z) : M avifDecoder := fun w =>
  match decoders w !! h with
  | Some d => Some (d, w)
  | None => None
  end.

Definition store_decoder (h : Z) (d : avifDecoder) : M unit := fun w =>
  match decoders w !! h with
  | Some _ => Some (tt, set_decoders (<[h := d]> (decoders w)) w)
  | None => None
  end.

Definition update_decoder (h : Z) (f : avifDecoder -> avifDecoder) : M unit :=
  d <- load_decoder h ;; store_decoder h (f d).

Definition load_wrapper (p : Z) : M AvifDecoderWrapper := fun w =>
  match wrappers w !! p with
  | Some wr => Some (wr, w)
  | None => None
  end.

Definition store_wrapper (p : Z) (wr : AvifDecoderWrapper) : M unit := fun w =>
  match wrappers w !! p with
  | Some _ => Some (tt, set_wrappers (<[p := wr]> (wrappers w)) w)
  | None => None
  end.

(** Storage for a default-constructed [AvifDecoderWrapper]
    ([decoder = nullptr]) at an address not in use. *)
Definition place_wrapper : M Z := fun w =>
  let p := fresh_address (wrappers w) in
  Some (p, set_wrappers (<[p := {| decoder := 0 |}]> (wrappers w)) w).

Definition release_wrapper (p : Z) : M unit := fun w =>
  match wrappers w !! p with
  | Some _ => Some (tt, set_wrappers (delete p (wrappers w)) w)
  | None => None
  end.

(** *** The native API on the decoder store *)

Definition LOGE (fmt : string) (args : list LogArg) : M unit :=
  fun w => Some (tt, emit (EvLOGE fmt args) w).

Definition avifDecoderCreate : M Z :=
  ok <- try_alloc ;;
  if ok then
    fun w =>
      let h := fresh_address (decoders w) in
      Some (h, emit (EvDecoderCreate h)
                 (set_decoders (<[h := native_create]> (decoders w)) w))
  else fun w => Some (0, emit (EvDecoderCreate 0) w).

Definition avifDecoderDestroy (h : Z) : M unit := fun w =>
  match decoders w !! h with
  | Some _ =>
      Some (tt, emit (EvDecoderDestroy h)
                  (set_decoders (delete h (decoders w)) w))
  | None => None
  end.

Definition avifDecoderSetIOMemory (h : Z) (buffer : option (list Byte.byte))
    (len : Z) : M avifResult :=
  d <- load_decoder h ;;
  let '(res, d') := native_set_io_memory d buffer len in
  store_decoder h d' ;;; ret res.

Definition avifDecoderParse (h : Z) : M avifResult :=
  d <- load_decoder h ;;
  let '(res, d') := native_parse d in
  store_decoder h d' ;;; ret res.

Definition avifDecoderNextImage (h : Z) : M avifResult :=
  d <- load_decoder h ;;
  let '(res, d') := native_next_image d in
  store_decoder h d' ;;; ret res.

Definition avifDecoderNthImage (h : Z) (n : Z) : M avifResult :=
  d <- load_decoder h ;;
  let '(res, d') := native_nth_image d n in
  store_decoder h d' ;;; ret res.

(** [avifDecoderNthImageTiming] takes a [const avifDecoder*]. *)
Definition avifDecoderNthImageTiming (d : avifDecoder) (i : Z)
    : avifResult * avifImageTiming :=
  native_nth_image_timing d i.

Definition avifRGBImageSetDefaults (img : avifImage) : avifRGBImage :=
  native_rgb_defaults img.

(** [dst] is the address [rgb_image.pixels] holds: the conversion writes
    the memory of that bitmap, whatever its result. *)
Definition avifImageYUVToRGB (img : avifImage) (rgb : avifRGBImage) (dst : Z)
    : M avifResult := fun w =>
  match bitmaps w !! dst with
  | Some b =>
      let '(res, px) := native_yuv_to_rgb img rgb in
      Some (res, emit (EvYUVToRGB img rgb)
                   (set_bitmaps (<[dst := set_bitmap_pixels px b]> (bitmaps w)) w))
  | None => None
  end.

Definition android_getCpuCount : Z := native_cpu_count.

(** *** android/bitmap.h and JNIEnv *)

(** Fails (a negative result) for an object that is not a bitmap. *)
Definition AndroidBitmap_getInfo (bitmap : Z) : M (option AndroidBitmapInfo) :=
  fun w => Some (bitmap_info <$> bitmaps w !! bitmap, w).

(** On success, the address of the pixel memory (the bitmap's own key). *)
Definition AndroidBitmap_lockPixels (bitmap : Z) : M (option Z) := fun w =>
  match bitmaps w !! bitmap with
  | Some b =>
      if lockable b then
        Some (Some bitmap,
              set_bitmaps (<[bitmap := set_locks (S (locks b)) b]> (bitmaps w)) w)
      else Some (None, w)
  | None => Some (None, w)
  end.

Definition AndroidBitmap_unlockPixels (bitmap : Z) : M unit := fun w =>
  match bitmaps w !! bitmap with
  | Some b =>
      Some (tt, set_bitmaps (<[bitmap := set_locks (pred (locks b)) b]> (bitmaps w)) w)
  | None => Some (tt, w)
  end.

Definition read_pixels (addr : Z) : M (list Byte.byte) := fun w =>
  match bitmaps w !! addr with
  | Some b => Some (bitmap_pixels b, w)
  | None => None
  end.

(** [nullptr] ([None]) when [encoded] is not a direct buffer. *)
Definition GetDirectBufferAddress (encoded : Z) : M (option (list Byte.byte)) :=
  fun w => Some (buffers w !! encoded, w).

Definition SetField (obj : Z) (name : string) (v : jvalue) : M unit :=
  fun w => Some (tt, set_fields (<[(obj, name) := v]> (fields w)) w).

Definition SetIntField (obj : Z) (name : string) (v : Z) : M unit :=
  SetField obj name (JInt v).

Definition SetBooleanField (obj : Z) (name : string) (v : bool) : M unit :=
  SetField obj name (JBoolean v).

Definition SetObjectField (obj : Z) (name : string) (v : jvalue) : M unit :=
  SetField obj name v.

(** *** struct AvifDecoderWrapper *)

(** [~AvifDecoderWrapper()]. *)
Definition AvifDecoderWrapper_destructor (p : Z) : M unit :=
  wr <- load_wrapper p ;;
  if negb (decoder wr =? 0) then avifDecoderDestroy (decoder wr) else ret tt.

(** End of the scope of a wrapper with automatic storage. *)
Definition leave_scope (p : Z) : M unit :=
  AvifDecoderWrapper_destructor p ;;; release_wrapper p.

(** [new (std::nothrow) AvifDecoderWrapper()]. *)
Definition new_AvifDecoderWrapper : M Z :=
  ok <- try_alloc ;;
  if ok then place_wrapper else ret 0.

(** [delete decoder]: nothing for [nullptr]; undefined for an address that
    holds no wrapper (one already deleted, or never allocated). *)
Definition delete_AvifDecoderWrapper (p : Z) : M unit :=
  if p =? 0 then ret tt
  else AvifDecoderWrapper_destructor p ;;; release_wrapper p.

(** [decoder->decoder], then the decoder it points to. *)
Definition wrapped_decoder (p : Z) : M avifDecoder :=
  wr <- load_wrapper p ;; load_decoder (decoder wr).

(** *** Functions of libavif_jni.cc *)

Definition CreateDecoderAndParse (decoder_ : Z)
    (buffer : option (list Byte.byte)) (len : Z) (threads : Z) : M bool :=
  h <- avifDecoderCreate ;;
  store_wrapper decoder_ {| decoder := h |} ;;;
  if h =? 0 then
    LOGE "Failed to create AVIF Decoder." [] ;;; ret false
  else
    update_decoder h (set_maxThreads threads) ;;;
    update_decoder h (set_ignoreXMP true) ;;;
    update_decoder h (set_ignoreExif true) ;;;
    update_decoder h (fun d =>
      set_strictFlags (Z.land (strictFlags d) (Z.lnot AVIF_STRICT_CLAP_VALID)) d) ;;;
    update_decoder h (fun d =>
      set_strictFlags (Z.land (strictFlags d) (Z.lnot AVIF_STRICT_PIXI_REQUIRED)) d) ;;;
    res <- avifDecoderSetIOMemory h buffer len ;;
    if negb (is_ok res) then
      LOGE "Failed to set AVIF IO to a memory reader." [] ;;; ret false
    else
      res <- avifDecoderParse h ;;
      if negb (is_ok res) then
        LOGE "Failed to parse AVIF image: %s." [ArgResult res] ;;; ret false
      else ret true.

Definition supported_format (f : AndroidBitmapFormat) : bool :=
  match f with
  | ANDROID_BITMAP_FORMAT_RGBA_8888
  | ANDROID_BITMAP_FORMAT_RGB_565
  | ANDROID_BITMAP_FORMAT_RGBA_F16 => true
  | _ => false
  end.

(** Lines 111-127: the [avifRGBImage] handed to [avifImageYUVToRGB]. *)
Definition rgb_image_for (img : avifImage) (bitmap_info : AndroidBitmapInfo)
    (px : list Byte.byte) : avifRGBImage :=
  let rgb_image := avifRGBImageSetDefaults img in
  let rgb_image :=
    match bitmap_format bitmap_info with
    | ANDROID_BITMAP_FORMAT_RGBA_F16 =>
        set_isFloat true (set_rgb_depth 16 rgb_image)
    | ANDROID_BITMAP_FORMAT_RGB_565 =>
        set_rgb_depth 8 (set_rgb_format AVIF_RGB_FORMAT_RGB_565 rgb_image)
    | _ => set_rgb_depth 8 rgb_image
    end in
  let rgb_image := set_pixels px rgb_image in
  let rgb_image := set_rowBytes (bitmap_stride bitmap_info) rgb_image in
  set_alphaPremultiplied true rgb_image.

(** [AvifImageToBitmap]: [bitmap_pixels_] is the address
    [AndroidBitmap_lockPixels] hands out; [rgb_image.pixels] is that memory,
    read here and written back by [avifImageYUVToRGB]. *)
Definition AvifImageToBitmap (decoder_ : Z) (bitmap : Z) : M avifResult :=
  got <- AndroidBitmap_getInfo bitmap ;;
  match got with
  | None =>
      LOGE "AndroidBitmap_getInfo failed." [] ;;; ret AVIF_RESULT_UNKNOWN_ERROR
  | Some bitmap_info =>
      d <- wrapped_decoder decoder_ ;;
      if (bitmap_width bitmap_info <? width (image d))
         || (bitmap_height bitmap_info <? height (image d)) then
        LOGE "Bitmap is not large enough to fit the image. Bitmap %dx%d Image %dx%d."
             [ArgInt (bitmap_width bitmap_info); ArgInt (bitmap_height bitmap_info);
              ArgInt (width (image d)); ArgInt (height (image d))] ;;;
        ret AVIF_RESULT_UNKNOWN_ERROR
      else if negb (supported_format (bitmap_format bitmap_info)) then
        LOGE "Bitmap format (%d) is not supported."
             [ArgFormat (bitmap_format bitmap_info)] ;;;
        ret AVIF_RESULT_NOT_IMPLEMENTED
      else
        locked <- AndroidBitmap_lockPixels bitmap ;;
        match locked with
        | None => LOGE "Failed to lock Bitmap." [] ;;; ret AVIF_RESULT_UNKNOWN_ERROR
        | Some bitmap_pixels_ =>
            px <- read_pixels bitmap_pixels_ ;;
            let rgb_image := rgb_image_for (image d) bitmap_info px in
            res <- avifImageYUVToRGB (image d) rgb_image bitmap_pixels_ ;;
            AndroidBitmap_unlockPixels bitmap ;;;
            if negb (is_ok res) then
              LOGE "Failed to convert YUV Pixels to RGB. Status: %d" [ArgResult res] ;;;
              ret res
            else ret AVIF_RESULT_OK
        end
  end.

Definition DecodeNextImage (decoder_ : Z) (bitmap : Z) : M avifResult :=
  wr <- load_wrapper decoder_ ;;
  res <- avifDecoderNextImage (decoder wr) ;;
  if negb (is_ok res) then
    LOGE "Failed to decode AVIF image. Status: %d" [ArgResult res] ;;; ret res
  else AvifImageToBitmap decoder_ bitmap.

Definition DecodeNthImage (decoder_ : Z) (n : Z) (bitmap : Z) : M avifResult :=
  wr <- load_wrapper decoder_ ;;
  res <- avifDecoderNthImage (decoder wr) n ;;
  if negb (is_ok res) then
    LOGE "Failed to decode AVIF image. Status: %d" [ArgResult res] ;;; ret res
  else AvifImageToBitmap decoder_ bitmap.

Definition getThreadCount (threads : Z) : Z :=
  if threads =? 0 then android_getCpuCount else threads.

(** [decode]: the wrapper has automatic storage, so its destructor runs at
    each [return] after its declaration. *)
Definition decode (encoded : Z) (len : Z) (bitmap : Z) (threads : Z) : M bool :=
  if threads <? 0 then
    LOGE "Invalid value for threads (%d)." [ArgInt threads] ;;; ret false
  else
    buffer <- GetDirectBufferAddress encoded ;;
    decoder_ <- place_wrapper ;;
    ok <- CreateDecoderAndParse decoder_ buffer len (getThreadCount threads) ;;
    if negb ok then leave_scope decoder_ ;;; ret false
    else
      res <- DecodeNextImage decoder_ bitmap ;;
      leave_scope decoder_ ;;; ret (is_ok res).

(** [getInfo]: parses with one thread.  The wrapper has automatic storage,
    as in [decode]; the fields of [info] are addressed by name. *)
Definition getInfo (encoded : Z) (len : Z) (info : Z) : M bool :=
  buffer <- GetDirectBufferAddress encoded ;;
  decoder_ <- place_wrapper ;;
  ok <- CreateDecoderAndParse decoder_ buffer len 1 ;;
  if negb ok then leave_scope decoder_ ;;; ret false
  else
    d <- wrapped_decoder decoder_ ;;
    SetIntField info "width" (jint_of_uint32 (width (image d))) ;;;
    SetIntField info "height" (jint_of_uint32 (height (image d))) ;;;
    SetIntField info "depth" (jint_of_uint32 (depth (image d))) ;;;
    SetBooleanField info "alphaPresent" (alphaPresent d) ;;;
    leave_scope decoder_ ;;; ret true.

(** The loop of lines 259-266 from index [i], [remaining] iterations to
    go: the durations gathered, or [None] at the first query that fails. *)
Fixpoint native_durations_from (d : avifDecoder) (i : Z) (remaining : nat)
    : option (list double) :=
  match remaining with
  | O => Some []
  | S k =>
      match avifDecoderNthImageTiming d i with
      | (AVIF_RESULT_OK, timing) =>
          match native_durations_from d (i + 1) k with
          | Some ds => Some (duration timing :: ds)
          | None => None
          end
      | _ => None
      end
  end.

(** [new (std::nothrow) double[frameCount]] and [NewDoubleArray(frameCount)]:
    whether the array could be allocated (never for a negative length). *)
Definition new_double_array (frameCount : Z) : M bool :=
  if frameCount <? 0 then ret false else try_alloc.

(** [createDecoder]: the wrapper is held by a [std::unique_ptr], which
    deletes it at each [return] before [decoder.release()].  The fields of
    [thiz] are addressed by name, so [FindClass] and [GetFieldID] leave no
    step of their own; [SetDoubleArrayRegion] and [SetObjectField] together
    store the native durations as the value of frameDurations. *)
Definition createDecoder (thiz : Z) (encoded : Z) (len : Z) (threads : Z) : M Z :=
  if threads <? 0 then
    LOGE "Invalid value for threads (%d)." [ArgInt threads] ;;; ret 0
  else
    buffer <- GetDirectBufferAddress encoded ;;
    decoder_ <- new_AvifDecoderWrapper ;;
    if decoder_ =? 0 then ret 0
    else
      ok <- CreateDecoderAndParse decoder_ buffer len (getThreadCount threads) ;;
      if negb ok then delete_AvifDecoderWrapper decoder_ ;;; ret 0
      else
        d <- wrapped_decoder decoder_ ;;
        SetIntField thiz "width" (jint_of_uint32 (width (image d))) ;;;
        SetIntField thiz "height" (jint_of_uint32 (height (image d))) ;;;
        SetIntField thiz "depth" (jint_of_uint32 (depth (image d))) ;;;
        SetBooleanField thiz "alphaPresent" (alphaPresent d) ;;;
        SetIntField thiz "repetitionCount" (repetitionCount d) ;;;
        let frameCount := imageCount d in
        SetIntField thiz "frameCount" frameCount ;;;
        allocated <- new_double_array frameCount ;;
        if negb allocated then delete_AvifDecoderWrapper decoder_ ;;; ret 0
        else
          match native_durations_from d 0 (Z.to_nat frameCount) with
          | None => delete_AvifDecoderWrapper decoder_ ;;; ret 0
          | Some native_durations =>
              durations <- new_double_array frameCount ;;
              if negb durations then delete_AvifDecoderWrapper decoder_ ;;; ret 0
              else
                SetObjectField thiz "frameDurations" (JDoubleArray native_durations) ;;;
                ret decoder_
          end.

Definition nextFrame (jdecoder : Z) (bitmap : Z) : M avifResult :=
  DecodeNextImage jdecoder bitmap.

(** [imageIndex] is an [int] below [imageCount], so the addition stays
    within [jint]. *)
Definition nextFrameIndex (jdecoder : Z) : M Z :=
  d <- wrapped_decoder jdecoder ;;
  ret (imageIndex d + 1).

Definition nthFrame (jdecoder : Z) (n : Z) (bitmap : Z) : M avifResult :=
  DecodeNthImage jdecoder (uint32_of_jint n) bitmap.

Definition destroyDecoder (jdecoder : Z) : M unit :=
  delete_AvifDecoderWrapper jdecoder.

End Binding.

(** ** The functions of the binding in one step

    What the properties below are stated with: the decoder a parse leaves,
    the result and world a conversion leaves, the fields [createDecoder]
    writes, each proved further down to be what the function itself does. *)
Section Outcome.
Context {T : NativeTypes} {L : NativeLib}.

(** The decoder state [CreateDecoderAndParse] reaches at its handle, as a
    function of its arguments: lines 55-65 configure the new decoder, lines
    67-76 bind the input and parse it. *)
Definition configure (threads : Z) (d : avifDecoder) : avifDecoder :=
  let d := set_maxThreads threads d in
  let d := set_ignoreXMP true d in
  let d := set_ignoreExif true d in
  let d := set_strictFlags (Z.land (strictFlags d) (Z.lnot AVIF_STRICT_CLAP_VALID)) d in
  set_strictFlags (Z.land (strictFlags d) (Z.lnot AVIF_STRICT_PIXI_REQUIRED)) d.

Definition parse_outcome (buffer : option (list Byte.byte)) (len threads : Z)
    : avifResult * avifDecoder :=
  let '(res, d) := native_set_io_memory (configure threads native_create) buffer len in
  if is_ok res then native_parse d else (res, d).

(** The test of lines 89-90. *)
Definition too_small (info : AndroidBitmapInfo) (img : avifImage) : bool :=
  (bitmap_width info <? width img) || (bitmap_height info <? height img).

(** [AvifImageToBitmap] in one step, for a wrapper whose decoder is [d]:
    the result code and the next world. *)
Definition AvifImageToBitmap_outcome (d : avifDecoder) (bitmap : Z) (w : World)
    : avifResult * World :=
  match bitmaps w !! bitmap with
  | None =>
      (AVIF_RESULT_UNKNOWN_ERROR, emit (EvLOGE "AndroidBitmap_getInfo failed." []) w)
  | Some b =>
      let info := bitmap_info b in
      if too_small info (image d) then
        (AVIF_RESULT_UNKNOWN_ERROR,
         emit (EvLOGE "Bitmap is not large enough to fit the image. Bitmap %dx%d Image %dx%d."
                 [ArgInt (bitmap_width info); ArgInt (bitmap_height info);
                  ArgInt (width (image d)); ArgInt (height (image d))]) w)
      else if negb (supported_format (bitmap_format info)) then
        (AVIF_RESULT_NOT_IMPLEMENTED,
         emit (EvLOGE "Bitmap format (%d) is not supported."
                 [ArgFormat (bitmap_format info)]) w)
      else if negb (lockable b) then
        (AVIF_RESULT_UNKNOWN_ERROR, emit (EvLOGE "Failed to lock Bitmap." []) w)
      else
        let rgb := rgb_image_for (image d) info (bitmap_pixels b) in
        let converted :=
          emit (EvYUVToRGB (image d) rgb)
            (set_bitmaps
               (<[bitmap := set_bitmap_pixels (snd (native_yuv_to_rgb (image d) rgb)) b]>
                  (bitmaps w)) w) in
        let res := fst (native_yuv_to_rgb (image d) rgb) in
        if is_ok res then (AVIF_RESULT_OK, converted)
        else
          (res,
           emit (EvLOGE "Failed to convert YUV Pixels to RGB. Status: %d"
                   [ArgResult res]) converted)
  end.

(** The fields of [thiz] after lines 244-251 of [createDecoder], for a
    parsed decoder [d]. *)
Definition metadata_fields (thiz : Z) (d : avifDecoder)
    (f : gmap (Z * string) jvalue) : gmap (Z * string) jvalue :=
  <[(thiz, "frameCount") := JInt (imageCount d)]>
    (<[(thiz, "repetitionCount") := JInt (repetitionCount d)]>
      (<[(thiz, "alphaPresent") := JBoolean (alphaPresent d)]>
        (<[(thiz, "depth") := JInt (jint_of_uint32 (depth (image d)))]>
          (<[(thiz, "height") := JInt (jint_of_uint32 (height (image d)))]>
            (<[(thiz, "width") := JInt (jint_of_uint32 (width (image d)))]> f))))).

(** What stops [createDecoder] after the metadata is written, for a parsed
    decoder [d] and the allocation plan [plan] left at that point: the
    native array cannot be allocated, a timing query fails, or the Java
    array cannot be allocated. *)
Definition durations_fail (d : avifDecoder) (plan : list bool) : Prop :=
  imageCount d < 0 \/ hd true plan = false \/
  native_durations_from d 0 (Z.to_nat (imageCount d)) = None \/
  hd true (tail plan) = false.

(** Modelled from the spec: [avifDecoderParse] and [avifDecoderNextImage]
    are not among the sources of the binding.  The frame cursor of the data
    model: decode-next advances the cursor by one, and the first call after
    construction decodes frame 0, so a parsed decoder has its cursor at -1. *)
Definition cursor_law : Prop :=
  (forall d d', native_parse d = (AVIF_RESULT_OK, d') -> imageIndex d' = -1) /\
  (forall d d', native_next_image d = (AVIF_RESULT_OK, d') ->
                imageIndex d' = imageIndex d + 1).

(** Modelled from the spec: [avifDecoderNthImage] is not among the sources
    of the binding.  Decode-nth seeks to an absolute frame index, whatever
    the decoder replays internally: once frame [n] has been reached, asking
    for frame [n] again succeeds and the decoder holds the same image. *)
Definition reseek_law : Prop :=
  forall d n d',
    native_nth_image d n = (AVIF_RESULT_OK, d') ->
    exists d'', native_nth_image d' n = (AVIF_RESULT_OK, d'') /\
                image d'' = image d'.

(** Modelled from the spec: [avifImageYUVToRGB] is not among the sources
    of the binding.  The conversion is a function of the image and of the
    conversion parameters that overwrites the target in place: converting
    the same image again into the memory it has just produced leaves that
    memory as it is. *)
Definition overwrite_law : Prop :=
  forall img rgb px,
    native_yuv_to_rgb img rgb = (AVIF_RESULT_OK, px) ->
    native_yuv_to_rgb img (set_pixels px rgb) = (AVIF_RESULT_OK, px).

(** A conversion event whose destination is premultiplied; any other
    event. *)
Definition premultiplied_event (e : Event) : Prop :=
  match e with
  | EvYUVToRGB _ rgb => alphaPremultiplied rgb = true
  | _ => True
  end.

(** The computation [c] only adds events that satisfy [P] to the trace. *)
Definition emits {A} (P : Event -> Prop) (c : M A) : Prop :=
  forall w a w', c w = Some (a, w') ->
    exists evs, trace w' = trace w ++ evs /\ Forall P evs.

(** The events the binding can cause: any log line, any creation or
    destruction of a decoder, and conversions into an [avifRGBImage] set
    up by [rgb_image_for]. *)
Definition binding_events (P : Event -> Prop) : Prop :=
  (forall fmt args, P (EvLOGE fmt args)) /\
  (forall h, P (EvDecoderCreate h)) /\
  (forall h, P (EvDecoderDestroy h)) /\
  (forall img info px, P (EvYUVToRGB img (rgb_image_for img info px))).

End Outcome.

(** ** The session operations of the specification

    For the comparison with [decode]: the session operations as the
    specification words them, on the same stores.  A session is the
    address of the object that owns the native handle. *)
Section Session.
Context {T : NativeTypes} {L : NativeLib}.

Inductive SessionError :=
  | InvalidArgument
  | AllocationFailed
  | IOBindFailed
  | ParseFailed (code : avifResult).

(** Destroy: releases the native resources of the session. *)
Definition Destroy (session : Z) : M unit :=
  AvifDecoderWrapper_destructor session ;;; release_wrapper session.

(** Construct: validate the thread count, allocate the decoder, configure
    it (thread count, no XMP or Exif, the two relaxed conformance checks),
    bind the input, parse.  Every failure is logged, and cleans up before
    the error is returned. *)
Definition Construct (encoded : Z) (len : Z) (threadCount : Z)
    : M (SessionError + Z) :=
  if threadCount <? 0 then
    LOGE "Invalid value for threads (%d)." [ArgInt threadCount] ;;;
    ret (inl InvalidArgument)
  else
    buffer <- GetDirectBufferAddress encoded ;;
    session <- place_wrapper ;;
    h <- avifDecoderCreate ;;
    store_wrapper session {| decoder := h |} ;;;
    if h =? 0 then
      LOGE "Failed to create AVIF Decoder." [] ;;;
      Destroy session ;;; ret (inl AllocationFailed)
    else
      update_decoder h (set_maxThreads threadCount) ;;;
      update_decoder h (set_ignoreXMP true) ;;;
      update_decoder h (set_ignoreExif true) ;;;
      update_decoder h (fun d =>
        set_strictFlags (Z.land (strictFlags d) (Z.lnot AVIF_STRICT_CLAP_VALID)) d) ;;;
      update_decoder h (fun d =>
        set_strictFlags (Z.land (strictFlags d) (Z.lnot AVIF_STRICT_PIXI_REQUIRED)) d) ;;;
      res <- avifDecoderSetIOMemory h buffer len ;;
      if negb (is_ok res) then
        LOGE "Failed to set AVIF IO to a memory reader." [] ;;;
        Destroy session ;;; ret (inl IOBindFailed)
      else
        res <- avifDecoderParse h ;;
        if negb (is_ok res) then
          LOGE "Failed to parse AVIF image: %s." [ArgResult res] ;;;
          Destroy session ;;; ret (inl (ParseFailed res))
        else ret (inr session).

(** DecodeNext: advance the cursor by one frame and convert it into the
    target. *)
Definition DecodeNext (session : Z) (target : Z) : M avifResult :=
  DecodeNextImage session target.

(** DecodeOneShot: Construct, DecodeNext, Destroy.  A thread count of 0 is
    resolved to the number of cores before it reaches Construct. *)
Definition DecodeOneShot (encoded : Z) (len : Z) (target : Z) (threadCount : Z)
    : M (SessionError + avifResult) :=
  constructed <- Construct encoded len (getThreadCount threadCount) ;;
  match constructed with
  | inl e => ret (inl e)
  | inr session =>
      res <- DecodeNext session target ;;
      Destroy session ;;; ret (inr res)
  end.

Definition succeeded (r : SessionError + avifResult) : bool :=
  match r with
  | inr res => is_ok res
  | inl _ => false
  end.

End Session.

(** ** Callers

    How a caller drives a session between [createDecoder] and
    [destroyDecoder]: any sequence of the three calls that take the
    session handle. *)
Section Callers.
Context {T : NativeTypes} {L : NativeLib}.

Inductive FrameCall :=
  | CallNextFrame (bitmap : Z)
  | CallNthFrame (n : Z) (bitmap : Z)
  | CallNextFrameIndex.

Definition frame_call (jdecoder : Z) (c : FrameCall) : M unit :=
  match c with
  | CallNextFrame bitmap => nextFrame jdecoder bitmap ;;; ret tt
  | CallNthFrame n bitmap => nthFrame jdecoder n bitmap ;;; ret tt
  | CallNextFrameIndex => nextFrameIndex jdecoder ;;; ret tt
  end.

Fixpoint frame_calls (jdecoder : Z) (cs : list FrameCall) : M unit :=
  match cs with
  | [] => ret tt
  | c :: cs => frame_call jdecoder c ;;; frame_calls jdecoder cs
  end.

(** [nextFrame] into each of [bitmaps] in turn; the results in order. *)
Fixpoint nextFrames (jdecoder : Z) (bitmaps : list Z) : M (list avifResult) :=
  match bitmaps with
  | [] => ret []
  | bitmap :: rest =>
      res <- nextFrame jdecoder bitmap ;;
      results <- nextFrames jdecoder rest ;;
      ret (res :: results)
  end.

(** The fields of [info] after lines 192-195 of [getInfo], for a parsed
    decoder [d]. *)
Definition info_fields (info : Z) (d : avifDecoder)
    (f : gmap (Z * string) jvalue) : gmap (Z * string) jvalue :=
  <[(info, "alphaPresent") := JBoolean (alphaPresent d)]>
    (<[(info, "depth") := JInt (jint_of_uint32 (depth (image d)))]>
      (<[(info, "height") := JInt (jint_of_uint32 (height (image d)))]>
        (<[(info, "width") := JInt (jint_of_uint32 (width (image d)))]> f))).

(** The three log lines of [CreateDecoderAndParse], by cause. *)
Definition parse_diagnostics (created : bool) (io parsed : avifResult)
    : list Event :=
  if negb created then [EvLOGE "Failed to create AVIF Decoder." []]
  else if negb (is_ok io) then
    [EvLOGE "Failed to set AVIF IO to a memory reader." []]
  else if negb (is_ok parsed) then
    [EvLOGE "Failed to parse AVIF image: %s." [ArgResult parsed]]
  else [].

(** A live session: the wrapper at [jdecoder] owns the native decoder at
    [h], whose state is [d]. *)
Definition session_at (jdecoder h : Z) (d : avifDecoder) (w : World) : Prop :=
  wrappers w !! jdecoder = Some {| decoder := h |} /\ decoders w !! h = Some d.

End Callers.

(** ** A reference native library *)

(** Modelled from the spec: the decoder of the native library
    ([avifDecoderParse], [avifDecoderNextImage], [avifDecoderNthImage],
    [avifDecoderNthImageTiming], [avifImageYUVToRGB]) is not among the
    sources of the binding.  This is the smallest decoder that has the
    frame cursor of the data model: a parsed input is a sequence of frames,
    decode-next advances the cursor by one (the first call after
    construction decodes frame 0), decode-nth sets it to an absolute index.

    Its container is three or more bytes: width, height, then one byte per
    frame, the sample the frame is filled with.  A frame byte [xff] cannot
    be decoded; the timing of a frame byte [xfe] cannot be resolved. *)
Module Reference.

Record Container := {
  source : option (list Byte.byte);
  frames : list Byte.byte
}.

#[export] Instance types : NativeTypes :=
  {| DecoderData := Container; ImageData := Byte.byte; double := Z |}.

Definition byte_to_Z (b : Byte.byte) : Z := Z.of_N (Byte.to_N b).

Definition create : avifDecoder :=
  {| maxThreads := 1; ignoreXMP := false; ignoreExif := false;
     strictFlags := 7;
     image := {| width := 0; height := 0; depth := 0; yuv := Byte.x00 |};
     alphaPresent := false; repetitionCount := 0; imageCount := 0;
     imageIndex := -1;
     data := {| source := None; frames := [] |} |}.

Definition with_data (c : Container) (d : avifDecoder) : avifDecoder :=
  {| maxThreads := maxThreads d; ignoreXMP := ignoreXMP d;
     ignoreExif := ignoreExif d; strictFlags := strictFlags d;
     image := image d; alphaPresent := alphaPresent d;
     repetitionCount := repetitionCount d; imageCount := imageCount d;
     imageIndex := imageIndex d; data := c |}.

Definition set_io_memory (d : avifDecoder) (buffer : option (list Byte.byte))
    (len : Z) : avifResult * avifDecoder :=
  match buffer with
  | Some bytes =>
      (AVIF_RESULT_OK,
       with_data {| source := Some (take (Z.to_nat len) bytes);
                    frames := frames (data d) |} d)
  | None => (AVIF_RESULT_NATIVE 24, d)
  end.

Definition parse (d : avifDecoder) : avifResult * avifDecoder :=
  match source (data d) with
  | Some (w :: h :: f :: fs) =>
      (AVIF_RESULT_OK,
       {| maxThreads := maxThreads d; ignoreXMP := ignoreXMP d;
          ignoreExif := ignoreExif d; strictFlags := strictFlags d;
          image := {| width := byte_to_Z w; height := byte_to_Z h;
                      depth := 8; yuv := Byte.x00 |};
          alphaPresent := false; repetitionCount := 0;
          imageCount := Z.of_nat (length (f :: fs));
          imageIndex := -1;
          data := {| source := source (data d); frames := f :: fs |} |})
  | _ => (AVIF_RESULT_NATIVE 9, d)
  end.

(** Decode the frame at absolute index [n] and put the cursor there. *)
Definition seek (d : avifDecoder) (n : Z) : avifResult * avifDecoder :=
  if (n <? 0) || (imageCount d <=? n) then (AVIF_RESULT_NATIVE 16, d)
  else
    match frames (data d) !! Z.to_nat n with
    | Some sample =>
        if Byte.eqb sample Byte.xff then (AVIF_RESULT_NATIVE 11, d)
        else
          (AVIF_RESULT_OK,
           {| maxThreads := maxThreads d; ignoreXMP := ignoreXMP d;
              ignoreExif := ignoreExif d; strictFlags := strictFlags d;
              image := {| width := width (image d); height := height (image d);
                          depth := depth (image d); yuv := sample |};
              alphaPresent := alphaPresent d;
              repetitionCount := repetitionCount d;
              imageCount := imageCount d; imageIndex := n; data := data d |})
    | None => (AVIF_RESULT_NATIVE 16, d)
    end.

Definition next_image (d : avifDecoder) : avifResult * avifDecoder :=
  seek d (imageIndex d + 1).

Definition nth_image (d : avifDecoder) (n : Z) : avifResult * avifDecoder :=
  seek d n.

Definition nth_image_timing (d : avifDecoder) (i : Z)
    : avifResult * avifImageTiming :=
  if (i <? 0) || (imageCount d <=? i) then
    (AVIF_RESULT_NATIVE 16, {| duration := 0 |})
  else
    match frames (data d) !! Z.to_nat i with
    | Some sample =>
        if Byte.eqb sample Byte.xfe then
          (AVIF_RESULT_NATIVE 16, {| duration := 0 |})
        else (AVIF_RESULT_OK, {| duration := 1 |})
    | None => (AVIF_RESULT_NATIVE 16, {| duration := 0 |})
    end.

Definition rgb_defaults (img : avifImage) : avifRGBImage :=
  {| rgb_width := width img; rgb_height := height img;
     rgb_depth := depth img; rgb_format := AVIF_RGB_FORMAT_RGBA;
     ignoreAlpha := false; alphaPremultiplied := false; isFloat := false;
     pixels := []; rowBytes := 0 |}.

(** Every byte of the target memory becomes the frame's sample; a row
    too short for the image is refused. *)
Definition yuv_to_rgb (img : avifImage) (rgb : avifRGBImage)
    : avifResult * list Byte.byte :=
  if rowBytes rgb <? rgb_width rgb then (AVIF_RESULT_NATIVE 5, pixels rgb)
  else (AVIF_RESULT_OK, map (fun _ => yuv img) (pixels rgb)).

#[export] Instance lib : NativeLib :=
  {| native_create := create;
     native_set_io_memory := set_io_memory;
     native_parse := parse;
     native_next_image := next_image;
     native_nth_image := nth_image;
     native_nth_image_timing := nth_image_timing;
     native_rgb_defaults := rgb_defaults;
     native_yuv_to_rgb := yuv_to_rgb;
     native_cpu_count := 4 |}.

(** A process with one direct buffer (object 1), four bitmaps (object 2:
    2x2 RGBA_8888; object 3: 1x1 A_8; object 4: 2x2 RGBA_8888 like object
    2; object 5: 2x2 RGBA_4444) and nothing allocated. *)
Definition bitmap_2x2 : Bitmap :=
  {| bitmap_info := {| bitmap_width := 2; bitmap_height := 2;
                       bitmap_stride := 8;
                       bitmap_format := ANDROID_BITMAP_FORMAT_RGBA_8888 |};
     bitmap_pixels := replicate 16 Byte.x00;
     lockable := true; locks := 0 |}.

Definition bitmap_1x1_A8 : Bitmap :=
  {| bitmap_info := {| bitmap_width := 1; bitmap_height := 1;
                       bitmap_stride := 1;
                       bitmap_format := ANDROID_BITMAP_FORMAT_A_8 |};
     bitmap_pixels := [Byte.x00];
     lockable := true; locks := 0 |}.

Definition bitmap_2x2_4444 : Bitmap :=
  {| bitmap_info := {| bitmap_width := 2; bitmap_height := 2;
                       bitmap_stride := 4;
                       bitmap_format := ANDROID_BITMAP_FORMAT_RGBA_4444 |};
     bitmap_pixels := replicate 8 Byte.x00;
     lockable := true; locks := 0 |}.

Definition world_with (input : list Byte.byte) (plan : list bool) : World :=
  {| decoders := ∅; wrappers := ∅;
     bitmaps := <[2 := bitmap_2x2]> (<[3 := bitmap_1x1_A8]>
                  (<[4 := bitmap_2x2]> (<[5 := bitmap_2x2_4444]> ∅)));
     buffers := <[1 := input]> ∅;
     fields := ∅; alloc_plan := plan; trace := [] |}.

(** Two inputs for a 2x2 image of two frames; the timing of the second
    frame of [bad_timing] cannot be resolved. *)
Definition two_frames : list Byte.byte := [Byte.x02; Byte.x02; Byte.x10; Byte.x20].
Definition bad_timing : list Byte.byte := [Byte.x02; Byte.x02; Byte.x10; Byte.xfe].

Definition start_world : World := world_with two_frames [].
Definition bad_timing_world : World := world_with bad_timing [].

(** The process after [createDecoder] on [two_frames] from the Java object
    7: a session at address 1 whose decoder, at address 1, is
    [session_decoder]. *)
Definition session_world : World :=
  match createDecoder 7 1 4 0 start_world with
  | Some (_, w) => w
  | None => start_world
  end.

Definition session_decoder : avifDecoder :=
  snd (parse_outcome (Some two_frames) 4 4).

(** [session_world] after [nthFrame] for frame 1 into bitmap 2. *)
Definition reseek_world : World :=
  match nthFrame 1 1 2 session_world with
  | Some (_, w) => w
  | None => session_world
  end.

(** [session_world] after one [nextFrame] into bitmap 2. *)
Definition next_world : World :=
  match nextFrame 1 2 session_world with
  | Some (_, w) => w
  | None => session_world
  end.

(** [session_world] after [nextFrame] into bitmap 2, then into bitmap 4. *)
Definition played_world : World :=
  match nextFrames 1 [2; 4] session_world with
  | Some (_, w) => w
  | None => session_world
  end.

(** [session_world] after [AvifImageToBitmap] of the session into bitmap 2. *)
Definition converted_world : World :=
  match AvifImageToBitmap 1 2 session_world with
  | Some (_, w) => w
  | None => session_world
  end.

(** [session_world] after a second [createDecoder], from the Java object 8:
    sessions at the addresses 1 and 2. *)
Definition two_sessions_world : World :=
  match createDecoder 8 1 4 0 session_world with
  | Some (_, w) => w
  | None => session_world
  end.

(** [session_world] after [destroyDecoder] on its session. *)
Definition destroyed_world : World :=
  match destroyDecoder 1 session_world with
  | Some (_, w) => w
  | None => session_world
  end.

(** [start_world] after [decode] on [two_frames] into bitmap 2. *)
Definition decoded_world : World :=
  match decode 1 4 2 0 start_world with
  | Some (_, w) => w
  | None => start_world
  end.

(** A wrapper just constructed at address 1, its decoder still null; and
    the same after [CreateDecoderAndParse] on [two_frames] with two
    threads. *)
Definition wrapper_world : World :=
  set_wrappers (<[1 := {| decoder := 0 |}]> (wrappers start_world)) start_world.

Definition parsed_world : World :=
  match CreateDecoderAndParse 1 (Some two_frames) 4 2 wrapper_world with
  | Some (_, w) => w
  | None => wrapper_world
  end.

(** [session_world] with one more bitmap, object 6: like object 2, but its
    pixels cannot be locked. *)
Definition bitmap_unlockable : Bitmap :=
  {| bitmap_info := bitmap_info bitmap_2x2;
     bitmap_pixels := bitmap_pixels bitmap_2x2;
     lockable := false; locks := 0 |}.

Definition unlockable_world : World :=
  set_bitmaps (<[6 := bitmap_unlockable]> (bitmaps session_world)) session_world.

End Reference.

(** * Properties *)

Section Properties.
Context {T : NativeTypes} {L : NativeLib}.

(** ** Running computations *)

Lemma bind_run {A B} (c : M A) (k : A -> M B) w a w' :
  c w = Some (a, w') -> bind c k w = k a w'.
Proof. intros Hc. unfold bind. now rewrite Hc. Qed.

Lemma bind_bind {A B C} (c : M A) (k1 : A -> M B) (k2 : B -> M C) w :
  bind (bind c k1) k2 w = bind c (fun a => bind (k1 a) k2) w.
Proof. unfold bind. now destruct (c w) as [[a w']|]. Qed.

Lemma bind_inv {A B} (c : M A) (k : A -> M B) w b w'' :
  bind c k w = Some (b, w'') ->
  exists a w', c w = Some (a, w') /\ k a w' = Some (b, w'').
Proof.
  unfold bind. destruct (c w) as [[a w']|]; [|discriminate].
  intros Hk. now exists a, w'.
Qed.

Lemma load_decoder_run h d w :
  decoders w !! h = Some d -> load_decoder h w = Some (d, w).
Proof. intros Hd. unfold load_decoder. now rewrite Hd. Qed.

Lemma store_decoder_run h d d0 w :
  decoders w !! h = Some d0 ->
  store_decoder h d w = Some (tt, set_decoders (<[h := d]> (decoders w)) w).
Proof. intros Hd. unfold store_decoder. now rewrite Hd. Qed.

Lemma update_decoder_run h f d w :
  decoders w !! h = Some d ->
  update_decoder h f w = Some (tt, set_decoders (<[h := f d]> (decoders w)) w).
Proof.
  intros Hd. unfold update_decoder.
  rewrite (bind_run _ _ _ _ _ (load_decoder_run _ _ _ Hd)).
  now apply store_decoder_run with d.
Qed.

Lemma load_wrapper_run p wr w :
  wrappers w !! p = Some wr -> load_wrapper p w = Some (wr, w).
Proof. intros Hp. unfold load_wrapper. now rewrite Hp. Qed.

Lemma wrapped_decoder_run p wr d w :
  wrappers w !! p = Some wr -> decoders w !! decoder wr = Some d ->
  wrapped_decoder p w = Some (d, w).
Proof.
  intros Hp Hd. unfold wrapped_decoder.
  rewrite (bind_run _ _ _ _ _ (load_wrapper_run _ _ _ Hp)).
  now apply load_decoder_run.
Qed.

Lemma fresh_address_spec {A} (m : gmap Z A) :
  fresh_address m <> 0 /\ m !! fresh_address m = None.
Proof.
  unfold fresh_address.
  pose proof (is_fresh ({[0]} ∪ dom m)) as Hfresh.
  split.
  - intros Heq. apply Hfresh. rewrite Heq. set_solver.
  - apply not_elem_of_dom. set_solver.
Qed.

(** A native call that maps the decoder at [h] through [f]. *)
Lemma native_call_run (f : avifDecoder -> avifResult * avifDecoder) h d w :
  decoders w !! h = Some d ->
  (d0 <- load_decoder h ;;
   let '(res, d') := f d0 in store_decoder h d' ;;; ret res) w
  = Some (fst (f d), set_decoders (<[h := snd (f d)]> (decoders w)) w).
Proof.
  intros Hd. rewrite (bind_run _ _ _ _ _ (load_decoder_run _ _ _ Hd)).
  destruct (f d) as [res d']. simpl.
  now rewrite (bind_run _ _ _ _ _ (store_decoder_run _ d' _ _ Hd)).
Qed.

(** ** [CreateDecoderAndParse] *)

Lemma avifDecoderCreate_spec w :
  exists h w',
    avifDecoderCreate w = Some (h, w') /\
    wrappers w' = wrappers w /\ bitmaps w' = bitmaps w /\
    buffers w' = buffers w /\ fields w' = fields w /\
    alloc_plan w' = tail (alloc_plan w) /\
    trace w' = trace w ++ [EvDecoderCreate h] /\
    ((h = 0 /\ decoders w' = decoders w /\ hd true (alloc_plan w) = false)
     \/
     (h <> 0 /\ decoders w !! h = None /\ hd true (alloc_plan w) = true /\
      decoders w' = <[h := native_create]> (decoders w))).
Proof.
  unfold avifDecoderCreate, try_alloc, bind.
  destruct (fresh_address_spec (decoders w)) as [Hnz Hfree].
  destruct (alloc_plan w) as [|[|] plan] eqn:Hplan; simpl.
  - eexists _, _. split; [reflexivity|]. simpl. rewrite Hplan.
    repeat split; try reflexivity. right. auto.
  - eexists _, _. split; [reflexivity|]. simpl.
    repeat split; try reflexivity. right. auto.
  - eexists _, _. split; [reflexivity|]. simpl.
    repeat split; try reflexivity. left. auto.
Qed.

Lemma store_wrapper_run p wr wr0 w :
  wrappers w !! p = Some wr0 ->
  store_wrapper p wr w = Some (tt, set_wrappers (<[p := wr]> (wrappers w)) w).
Proof. intros Hp. unfold store_wrapper. now rewrite Hp. Qed.

(** One step of a computation whose head is known to run. *)
Ltac step_with lem :=
  erewrite bind_run;
  [| apply lem; simpl; rewrite ?lookup_insert_eq; first [reflexivity | eassumption] ].

Lemma CreateDecoderAndParse_spec p buffer len threads w wr0 :
  wrappers w !! p = Some wr0 ->
  exists ok w' h evs,
    CreateDecoderAndParse p buffer len threads w = Some (ok, w') /\
    wrappers w' = <[p := {| decoder := h |}]> (wrappers w) /\
    bitmaps w' = bitmaps w /\ buffers w' = buffers w /\
    fields w' = fields w /\ alloc_plan w' = tail (alloc_plan w) /\
    trace w' = trace w ++ EvDecoderCreate h :: evs /\
    Forall (fun e => exists fmt args, e = EvLOGE fmt args) evs /\
    ((h = 0 /\ ok = false /\ decoders w' = decoders w /\
      hd true (alloc_plan w) = false)
     \/
     (h <> 0 /\ decoders w !! h = None /\ hd true (alloc_plan w) = true /\
      decoders w' = <[h := snd (parse_outcome buffer len threads)]> (decoders w) /\
      ok = is_ok (fst (parse_outcome buffer len threads)))).
Proof.
  intros Hp. unfold CreateDecoderAndParse.
  destruct (avifDecoderCreate_spec w)
    as (h & w1 & Hrun & Hwr & Hbm & Hbuf & Hfl & Hplan & Htr & Hcase).
  rewrite (bind_run _ _ _ _ _ Hrun).
  assert (Hp1 : wrappers w1 !! p = Some wr0) by now rewrite Hwr.
  rewrite (bind_run _ _ _ _ _ (store_wrapper_run _ {| decoder := h |} _ _ Hp1)).
  destruct Hcase as [(-> & Hdec & Hhd) | (Hnz & Hfree & Hhd & Hdec)].
  - simpl. eexists false, _, 0, _. split; [reflexivity|]. simpl.
    rewrite Hwr, Hbm, Hbuf, Hfl, Hplan, Htr, <- app_assoc. simpl.
    repeat split; try reflexivity.
    + repeat constructor. eauto.
    + left. auto.
  - destruct (Z.eqb_spec h 0) as [?|_]; [contradiction|].
    assert (Hd1 : decoders w1 !! h = Some native_create)
      by (rewrite Hdec; apply lookup_insert_eq).
    do 5 step_with update_decoder_run.
    unfold avifDecoderSetIOMemory, avifDecoderParse.
    step_with native_call_run.
    unfold parse_outcome, configure. simpl.
    destruct (native_set_io_memory _ buffer len) as [r1 d1]. simpl.
    destruct (is_ok r1) eqn:Hok1; simpl.
    + step_with native_call_run.
      destruct (native_parse d1) as [r2 d2]. simpl.
      destruct (is_ok r2) eqn:Hok2; simpl.
      * eexists true, _, h, []. split; [reflexivity|]. simpl.
        rewrite Hwr, Hbm, Hbuf, Hfl, Hplan, Htr, Hdec, !insert_insert_eq.
        rewrite <- ?app_assoc, ?Hok1, ?Hok2.
        repeat split; try reflexivity; [constructor | right; auto].
      * eexists false, _, h, [_]. split; [reflexivity|]. simpl.
        rewrite Hwr, Hbm, Hbuf, Hfl, Hplan, Htr, Hdec, !insert_insert_eq.
        rewrite <- ?app_assoc, ?Hok1, ?Hok2.
        repeat split; try reflexivity; [repeat constructor; eauto | right; auto].
    + eexists false, _, h, [_]. split; [reflexivity|]. simpl.
      rewrite Hwr, Hbm, Hbuf, Hfl, Hplan, Htr, Hdec, !insert_insert_eq.
      rewrite <- ?app_assoc, ?Hok1, ?Hok2.
      repeat split; try reflexivity; [repeat constructor; eauto | right; auto].
Qed.

(** ** [AvifImageToBitmap] *)

Lemma AvifImageToBitmap_run p bitmap w wr d :
  wrappers w !! p = Some wr ->
  decoders w !! decoder wr = Some d ->
  AvifImageToBitmap p bitmap w = Some (AvifImageToBitmap_outcome d bitmap w).
Proof.
  intros Hp Hd.
  unfold AvifImageToBitmap, AvifImageToBitmap_outcome, AndroidBitmap_getInfo, too_small.
  unfold bind at 1.
  destruct (bitmaps w !! bitmap) as [b|] eqn:Hb; simpl; [|reflexivity].
  rewrite (bind_run _ _ _ _ _ (wrapped_decoder_run _ _ _ _ Hp Hd)).
  destruct (_ || _); [reflexivity|].
  destruct (supported_format _); simpl; [|reflexivity].
  unfold AndroidBitmap_lockPixels, bind at 1. rewrite Hb.
  destruct (lockable b); simpl; [|reflexivity].
  unfold read_pixels, avifImageYUVToRGB, AndroidBitmap_unlockPixels, bind.
  simpl. rewrite !lookup_insert_eq. simpl.
  destruct (native_yuv_to_rgb _ _) as [res px].
  repeat (simpl; rewrite ?lookup_insert_eq).
  rewrite !insert_insert_eq.
  destruct (is_ok res); reflexivity.
Qed.

(** ** Events of a computation *)

Lemma emits_ret {A} P (a : A) : emits P (ret a).
Proof.
  intros w a' w' Hrun. injection Hrun as _ <-.
  exists []. split; [now rewrite app_nil_r | constructor].
Qed.

Lemma emits_bind {A B} P (c : M A) (k : A -> M B) :
  emits P c -> (forall a, emits P (k a)) -> emits P (bind c k).
Proof.
  intros Hc Hk w b w'' Hrun.
  destruct (bind_inv _ _ _ _ _ Hrun) as (a & w' & Hrun1 & Hrun2).
  destruct (Hc _ _ _ Hrun1) as (evs1 & Htr1 & HP1).
  destruct (Hk _ _ _ _ Hrun2) as (evs2 & Htr2 & HP2).
  exists (evs1 ++ evs2). split.
  - now rewrite Htr2, Htr1, app_assoc.
  - now apply Forall_app.
Qed.

Lemma emits_quiet {A} P (c : M A) :
  (forall w a w', c w = Some (a, w') -> trace w' = trace w) -> emits P c.
Proof.
  intros Hquiet w a w' Hrun. exists []. split; [|constructor].
  rewrite app_nil_r. eauto.
Qed.

Lemma emits_one {A} P (c : M A) e :
  P e ->
  (forall w a w', c w = Some (a, w') -> trace w' = trace w ++ [e]) ->
  emits P c.
Proof.
  intros He Hone w a w' Hrun. exists [e]. split; [eauto | now constructor].
Qed.

(** Storage operations say nothing. *)
Ltac quiet :=
  apply emits_quiet; intros w a w';
  repeat match goal with
         | |- context [match ?x with _ => _ end] => destruct x
         end;
  intros Hrun; try discriminate; now inversion Hrun.

Lemma emits_try_alloc P : emits P try_alloc.
Proof. unfold try_alloc. quiet. Qed.

Lemma emits_load_decoder P h : emits P (load_decoder h).
Proof. unfold load_decoder. quiet. Qed.

Lemma emits_store_decoder P h d : emits P (store_decoder h d).
Proof. unfold store_decoder. quiet. Qed.

Lemma emits_load_wrapper P p : emits P (load_wrapper p).
Proof. unfold load_wrapper. quiet. Qed.

Lemma emits_store_wrapper P p wr : emits P (store_wrapper p wr).
Proof. unfold store_wrapper. quiet. Qed.

Lemma emits_place_wrapper P : emits P place_wrapper.
Proof. unfold place_wrapper. quiet. Qed.

Lemma emits_release_wrapper P p : emits P (release_wrapper p).
Proof. unfold release_wrapper. quiet. Qed.

Lemma emits_getInfo P b : emits P (AndroidBitmap_getInfo b).
Proof. unfold AndroidBitmap_getInfo. quiet. Qed.

Lemma emits_lockPixels P b : emits P (AndroidBitmap_lockPixels b).
Proof. unfold AndroidBitmap_lockPixels. quiet. Qed.

Lemma emits_unlockPixels P b : emits P (AndroidBitmap_unlockPixels b).
Proof. unfold AndroidBitmap_unlockPixels. quiet. Qed.

Lemma emits_read_pixels P b : emits P (read_pixels b).
Proof. unfold read_pixels. quiet. Qed.

Lemma emits_GetDirectBufferAddress P e : emits P (GetDirectBufferAddress e).
Proof. unfold GetDirectBufferAddress. quiet. Qed.

Lemma emits_SetField P obj name v : emits P (SetField obj name v).
Proof. unfold SetField. quiet. Qed.

Lemma emits_LOGE P fmt args : P (EvLOGE fmt args) -> emits P (LOGE fmt args).
Proof.
  intros He. apply (emits_one P _ _ He).
  intros w a w' Hrun. now inversion Hrun.
Qed.

Lemma emits_avifDecoderDestroy P h :
  P (EvDecoderDestroy h) -> emits P (avifDecoderDestroy h).
Proof.
  intros He. apply (emits_one P _ _ He).
  intros w a w'. unfold avifDecoderDestroy.
  destruct (decoders w !! h); [|discriminate]. intros Hrun. now inversion Hrun.
Qed.

Lemma emits_avifImageYUVToRGB P img rgb dst :
  P (EvYUVToRGB img rgb) -> emits P (avifImageYUVToRGB img rgb dst).
Proof.
  intros He. apply (emits_one P _ _ He).
  intros w a w'. unfold avifImageYUVToRGB.
  destruct (bitmaps w !! dst); [|discriminate].
  destruct (native_yuv_to_rgb img rgb). intros Hrun. now inversion Hrun.
Qed.

Lemma emits_avifDecoderCreate P :
  binding_events P -> emits P avifDecoderCreate.
Proof.
  intros (_ & Hcreate & _) w h w' Hrun.
  destruct (avifDecoderCreate_spec w) as (h' & w1 & Hrun' & _ & _ & _ & _ & _ & Htr & _).
  rewrite Hrun in Hrun'. injection Hrun' as -> ->.
  exists [EvDecoderCreate h']. split; [exact Htr | repeat constructor; apply Hcreate].
Qed.

Ltac emits_step :=
  first
    [ apply emits_ret
    | apply emits_try_alloc | apply emits_load_decoder
    | apply emits_store_decoder | apply emits_load_wrapper
    | apply emits_store_wrapper | apply emits_place_wrapper
    | apply emits_release_wrapper | apply emits_getInfo
    | apply emits_lockPixels | apply emits_unlockPixels
    | apply emits_read_pixels | apply emits_GetDirectBufferAddress
    | apply emits_SetField
    | apply emits_LOGE; solve [auto]
    | apply emits_avifDecoderDestroy; solve [auto]
    | apply emits_avifImageYUVToRGB; solve [auto]
    | apply emits_avifDecoderCreate; solve [auto]
    | apply emits_bind; [| intros ?]
    | match goal with
      | |- emits _ (if ?b then _ else _) => destruct b
      | |- emits _ (match ?x with _ => _ end) => destruct x
      end ].

Ltac emits_all := repeat emits_step.

Section Emits.
Variable P : Event -> Prop.
Hypothesis HP : binding_events P.

Let HP_log : forall fmt args, P (EvLOGE fmt args) := proj1 HP.
Let HP_create : forall h, P (EvDecoderCreate h) := proj1 (proj2 HP).
Let HP_destroy : forall h, P (EvDecoderDestroy h) := proj1 (proj2 (proj2 HP)).
Let HP_convert : forall img info px, P (EvYUVToRGB img (rgb_image_for img info px))
  := proj2 (proj2 (proj2 HP)).

Lemma emits_native_call (f : avifDecoder -> avifResult * avifDecoder) h :
  emits P (d0 <- load_decoder h ;;
           let '(res, d') := f d0 in store_decoder h d' ;;; ret res).
Proof. emits_all. Qed.

Lemma emits_update_decoder h f : emits P (update_decoder h f).
Proof. unfold update_decoder. emits_all. Qed.

Lemma emits_CreateDecoderAndParse p buffer len threads :
  emits P (CreateDecoderAndParse p buffer len threads).
Proof.
  unfold CreateDecoderAndParse, avifDecoderSetIOMemory, avifDecoderParse.
  repeat first [apply emits_update_decoder | apply emits_native_call | emits_step].
Qed.

Lemma emits_AvifImageToBitmap p bitmap : emits P (AvifImageToBitmap p bitmap).
Proof. unfold AvifImageToBitmap, wrapped_decoder. emits_all. Qed.

Lemma emits_DecodeNextImage p bitmap : emits P (DecodeNextImage p bitmap).
Proof.
  unfold DecodeNextImage, avifDecoderNextImage.
  repeat first [apply emits_AvifImageToBitmap | apply emits_native_call | emits_step].
Qed.

Lemma emits_DecodeNthImage p n bitmap : emits P (DecodeNthImage p n bitmap).
Proof.
  unfold DecodeNthImage, avifDecoderNthImage.
  repeat first [apply emits_AvifImageToBitmap | apply emits_native_call | emits_step].
Qed.

Lemma emits_destructor p : emits P (AvifDecoderWrapper_destructor p).
Proof. unfold AvifDecoderWrapper_destructor. emits_all. Qed.

Lemma emits_leave_scope p : emits P (leave_scope p).
Proof.
  unfold leave_scope.
  repeat first [apply emits_destructor | emits_step].
Qed.

Lemma emits_delete p : emits P (delete_AvifDecoderWrapper p).
Proof.
  unfold delete_AvifDecoderWrapper.
  repeat first [apply emits_destructor | emits_step].
Qed.

Lemma emits_decode encoded len bitmap threads :
  emits P (decode encoded len bitmap threads).
Proof.
  unfold decode.
  repeat first [apply emits_CreateDecoderAndParse | apply emits_DecodeNextImage
               | apply emits_leave_scope | emits_step].
Qed.

Lemma emits_createDecoder thiz encoded len threads :
  emits P (createDecoder thiz encoded len threads).
Proof.
  unfold createDecoder, new_AvifDecoderWrapper, new_double_array, wrapped_decoder,
    SetIntField, SetBooleanField, SetObjectField.
  repeat first [apply emits_CreateDecoderAndParse | apply emits_delete | emits_step].
Qed.

End Emits.

Lemma AvifImageToBitmap_inv p bitmap w res w' :
  AvifImageToBitmap p bitmap w = Some (res, w') ->
  bitmaps w !! bitmap = None \/
  exists wr d,
    wrappers w !! p = Some wr /\ decoders w !! decoder wr = Some d /\
    AvifImageToBitmap_outcome d bitmap w = (res, w').
Proof.
  intros Hrun.
  destruct (bitmaps w !! bitmap) as [b|] eqn:Hb; [right | now left].
  destruct (wrappers w !! p) as [wr|] eqn:Hp.
  - destruct (decoders w !! decoder wr) as [d|] eqn:Hd.
    + exists wr, d. rewrite (AvifImageToBitmap_run _ _ _ _ _ Hp Hd) in Hrun.
      now injection Hrun.
    + exfalso. revert Hrun.
      unfold AvifImageToBitmap, AndroidBitmap_getInfo, wrapped_decoder,
        load_wrapper, load_decoder, bind.
      rewrite Hb. simpl. now rewrite Hp, Hd.
  - exfalso. revert Hrun.
    unfold AvifImageToBitmap, AndroidBitmap_getInfo, wrapped_decoder,
      load_wrapper, bind.
    rewrite Hb. simpl. now rewrite Hp.
Qed.

(** C2: a target narrower or lower than the decoded image makes the
    conversion fail with the binding's too-small diagnostic (the code
    AVIF_RESULT_UNKNOWN_ERROR and the log line "Bitmap is not large enough
    to fit the image"); nothing is cropped or scaled, no conversion is
    attempted and the pixel memory of every bitmap is as before. *)
Theorem AvifImageToBitmap_target_too_small p bitmap w wr d b :
  wrappers w !! p = Some wr ->
  decoders w !! decoder wr = Some d ->
  bitmaps w !! bitmap = Some b ->
  bitmap_width (bitmap_info b) < width (image d) \/
  bitmap_height (bitmap_info b) < height (image d) ->
  exists w',
    AvifImageToBitmap p bitmap w = Some (AVIF_RESULT_UNKNOWN_ERROR, w') /\
    trace w' = trace w ++
      [EvLOGE "Bitmap is not large enough to fit the image. Bitmap %dx%d Image %dx%d."
         [ArgInt (bitmap_width (bitmap_info b)); ArgInt (bitmap_height (bitmap_info b));
          ArgInt (width (image d)); ArgInt (height (image d))]] /\
    bitmaps w' = bitmaps w /\ bitmaps w' !! bitmap = Some b /\
    decoders w' = decoders w /\ wrappers w' = wrappers w.
Proof.
  intros Hp Hd Hb Hsmall.
  rewrite (AvifImageToBitmap_run _ _ _ _ _ Hp Hd).
  unfold AvifImageToBitmap_outcome. rewrite Hb.
  assert (Hts : too_small (bitmap_info b) (image d) = true).
  { unfold too_small. apply orb_true_iff.
    destruct Hsmall; [left | right]; now apply Z.ltb_lt. }
  rewrite Hts. eexists. split; [reflexivity|]. simpl. auto.
Qed.

(** C3, as the code has it: the format is looked at after the size, so a
    target at least as large as the image whose format is none of
    RGBA_8888, RGB_565 and RGBA_F16 fails with AVIF_RESULT_NOT_IMPLEMENTED
    and the log line "Bitmap format (%d) is not supported", its pixels
    untouched.  For the three formats the [avifRGBImage] of the conversion
    is the library's default with: depth 16 and isFloat set for RGBA_F16;
    format RGB_565 and depth 8 for RGB_565; depth 8 and the default format
    for RGBA_8888; and that is the image a lockable target is converted
    into. *)
Theorem AvifImageToBitmap_format p bitmap w wr d b :
  wrappers w !! p = Some wr ->
  decoders w !! decoder wr = Some d ->
  bitmaps w !! bitmap = Some b ->
  width (image d) <= bitmap_width (bitmap_info b) ->
  height (image d) <= bitmap_height (bitmap_info b) ->
  let info := bitmap_info b in
  let rgb := rgb_image_for (image d) info (bitmap_pixels b) in
  let defaults := avifRGBImageSetDefaults (image d) in
  (bitmap_format info <> ANDROID_BITMAP_FORMAT_RGBA_8888 ->
   bitmap_format info <> ANDROID_BITMAP_FORMAT_RGB_565 ->
   bitmap_format info <> ANDROID_BITMAP_FORMAT_RGBA_F16 ->
   exists w',
     AvifImageToBitmap p bitmap w = Some (AVIF_RESULT_NOT_IMPLEMENTED, w') /\
     trace w' = trace w ++
       [EvLOGE "Bitmap format (%d) is not supported." [ArgFormat (bitmap_format info)]] /\
     bitmaps w' = bitmaps w) /\
  (bitmap_format info = ANDROID_BITMAP_FORMAT_RGBA_F16 ->
   rgb_depth rgb = 16 /\ isFloat rgb = true /\
   rgb_format rgb = rgb_format defaults) /\
  (bitmap_format info = ANDROID_BITMAP_FORMAT_RGB_565 ->
   rgb_format rgb = AVIF_RGB_FORMAT_RGB_565 /\ rgb_depth rgb = 8 /\
   isFloat rgb = isFloat defaults) /\
  (bitmap_format info = ANDROID_BITMAP_FORMAT_RGBA_8888 ->
   rgb_depth rgb = 8 /\ rgb_format rgb = rgb_format defaults /\
   isFloat rgb = isFloat defaults) /\
  (supported_format (bitmap_format info) = true -> lockable b = true ->
   exists res w',
     AvifImageToBitmap p bitmap w = Some (res, w') /\
     exists evs, trace w' = trace w ++ EvYUVToRGB (image d) rgb :: evs).
Proof.
  intros Hp Hd Hb Hw Hh info rgb defaults.
  assert (Hts : too_small info (image d) = false).
  { unfold too_small. apply orb_false_iff. split; apply Z.ltb_ge; assumption. }
  rewrite (AvifImageToBitmap_run _ _ _ _ _ Hp Hd).
  unfold AvifImageToBitmap_outcome. rewrite Hb. fold info. rewrite Hts.
  split; [|split; [|split; [|split]]].
  - intros H1 H2 H3.
    assert (Hf : supported_format (bitmap_format info) = false)
      by (destruct (bitmap_format info); try reflexivity; contradiction).
    rewrite Hf. simpl. eexists. split; [reflexivity|]. simpl. auto.
  - intros Hfmt. subst rgb. unfold rgb_image_for. rewrite Hfmt. now simpl.
  - intros Hfmt. subst rgb. unfold rgb_image_for. rewrite Hfmt. now simpl.
  - intros Hfmt. subst rgb. unfold rgb_image_for. rewrite Hfmt. now simpl.
  - intros Hf Hl. rewrite Hf, Hl. simpl. fold rgb.
    destruct (is_ok _); eexists _, _; (split; [reflexivity|]); simpl.
    + now exists [].
    + eexists [_]. now rewrite <- app_assoc.
Qed.

Lemma binding_events_premultiplied : binding_events premultiplied_event.
Proof. repeat split. Qed.

(** C7: every conversion is into a destination marked premultiplied.  The
    [avifRGBImage] built for any image, target and pixel memory has
    alphaPremultiplied set; a conversion that succeeds made exactly one
    native conversion, into that image, and left its output in the target;
    and no entry point that converts ([AvifImageToBitmap] itself,
    [nextFrame], [nthFrame], [decode]) ever calls the native conversion with
    a destination that is not premultiplied.  No argument selects the
    policy. *)
Theorem conversion_alpha_premultiplied :
  (forall img info px, alphaPremultiplied (rgb_image_for img info px) = true) /\
  (forall p bitmap w w',
     AvifImageToBitmap p bitmap w = Some (AVIF_RESULT_OK, w') ->
     exists wr d b px,
       wrappers w !! p = Some wr /\ decoders w !! decoder wr = Some d /\
       bitmaps w !! bitmap = Some b /\
       let rgb := rgb_image_for (image d) (bitmap_info b) (bitmap_pixels b) in
       alphaPremultiplied rgb = true /\
       native_yuv_to_rgb (image d) rgb = (AVIF_RESULT_OK, px) /\
       trace w' = trace w ++ [EvYUVToRGB (image d) rgb] /\
       bitmaps w' !! bitmap = Some (set_bitmap_pixels px b)) /\
  (forall p bitmap, emits premultiplied_event (AvifImageToBitmap p bitmap)) /\
  (forall jdecoder bitmap, emits premultiplied_event (nextFrame jdecoder bitmap)) /\
  (forall jdecoder n bitmap, emits premultiplied_event (nthFrame jdecoder n bitmap)) /\
  (forall encoded len bitmap threads,
     emits premultiplied_event (decode encoded len bitmap threads)).
Proof.
  split; [reflexivity|]. split; [|repeat split].
  - intros p bitmap w w' Hrun.
    destruct (AvifImageToBitmap_inv _ _ _ _ _ Hrun) as [Hnone | (wr & d & Hp & Hd & Hout)].
    + exfalso. revert Hrun.
      unfold AvifImageToBitmap, AndroidBitmap_getInfo, bind. now rewrite Hnone.
    + revert Hout. unfold AvifImageToBitmap_outcome.
      destruct (bitmaps w !! bitmap) as [b|] eqn:Hb; [|discriminate].
      destruct (too_small _ _); [discriminate|].
      destruct (supported_format _); simpl; [|discriminate].
      destruct (lockable b); simpl; [|discriminate].
      destruct (native_yuv_to_rgb _ _) as [res px] eqn:Hconv. simpl.
      destruct res; simpl; intros Hout; try discriminate.
      injection Hout as <-.
      exists wr, d, b, px. simpl. rewrite lookup_insert_eq. repeat split; assumption.
  - intros. apply emits_AvifImageToBitmap, binding_events_premultiplied.
  - intros. apply emits_DecodeNextImage, binding_events_premultiplied.
  - intros. apply emits_DecodeNthImage, binding_events_premultiplied.
  - intros. apply emits_decode, binding_events_premultiplied.
Qed.

(** ** [decode] *)

Lemma decode_refines_DecodeOneShot encoded len bitmap threads w :
  0 <= android_getCpuCount ->
  decode encoded len bitmap threads w =
  (r <- DecodeOneShot encoded len bitmap threads ;; ret (succeeded r)) w.
Proof.
  intros Hcpu.
  assert (Hneg : (getThreadCount threads <? 0) = (threads <? 0)).
  { unfold getThreadCount. destruct (Z.eqb_spec threads 0) as [->|Hne]; [|reflexivity].
    destruct (Z.ltb_spec android_getCpuCount 0); [lia | reflexivity]. }
  unfold decode, DecodeOneShot, Construct, DecodeNext, CreateDecoderAndParse,
    Destroy, leave_scope.
  rewrite Hneg.
  destruct (threads <? 0) eqn:Hlt.
  - assert (getThreadCount threads = threads) as ->.
    { unfold getThreadCount. destruct (Z.eqb_spec threads 0); [|reflexivity].
      apply Z.ltb_lt in Hlt. lia. }
    reflexivity.
  - unfold bind, ret. repeat case_match; simplify_eq; reflexivity.
Qed.

(** The destructor and the release of a wrapper's storage: the decoder it
    holds, if any, is destroyed. *)
Lemma teardown_run p h w :
  wrappers w !! p = Some {| decoder := h |} ->
  h = 0 \/ is_Some (decoders w !! h) ->
  exists w',
    (AvifDecoderWrapper_destructor p ;;; release_wrapper p) w = Some (tt, w') /\
    wrappers w' = delete p (wrappers w) /\
    decoders w' = (if h =? 0 then decoders w else delete h (decoders w)) /\
    bitmaps w' = bitmaps w /\ buffers w' = buffers w /\
    fields w' = fields w /\ alloc_plan w' = alloc_plan w /\
    trace w' = trace w ++ (if h =? 0 then [] else [EvDecoderDestroy h]).
Proof.
  intros Hp Hh. unfold AvifDecoderWrapper_destructor, bind.
  rewrite (load_wrapper_run _ _ _ Hp). simpl.
  destruct (Z.eqb_spec h 0) as [->|Hnz]; simpl.
  - unfold release_wrapper. rewrite Hp.
    eexists. split; [reflexivity|]. simpl. now rewrite app_nil_r.
  - destruct Hh as [?|[d Hd]]; [contradiction|].
    unfold avifDecoderDestroy, release_wrapper. rewrite Hd. simpl. rewrite Hp.
    eexists. split; [reflexivity|]. simpl. auto 10.
Qed.

Lemma AvifImageToBitmap_outcome_frame d bitmap w :
  let w' := snd (AvifImageToBitmap_outcome d bitmap w) in
  decoders w' = decoders w /\ wrappers w' = wrappers w /\
  buffers w' = buffers w /\ fields w' = fields w /\
  alloc_plan w' = alloc_plan w.
Proof.
  unfold AvifImageToBitmap_outcome. repeat case_match; simpl; auto.
Qed.

Lemma DecodeNextImage_spec p bitmap w h d :
  wrappers w !! p = Some {| decoder := h |} ->
  decoders w !! h = Some d ->
  exists res w' d',
    DecodeNextImage p bitmap w = Some (res, w') /\
    wrappers w' = wrappers w /\
    decoders w' = <[h := d']> (decoders w) /\
    buffers w' = buffers w /\ fields w' = fields w /\
    alloc_plan w' = alloc_plan w.
Proof.
  intros Hp Hd. unfold DecodeNextImage, avifDecoderNextImage.
  rewrite (bind_run _ _ _ _ _ (load_wrapper_run _ _ _ Hp)). simpl.
  rewrite (bind_run _ _ _ _ _ (native_call_run native_next_image _ _ _ Hd)).
  destruct (native_next_image d) as [res d']. simpl.
  destruct (is_ok res); simpl.
  - erewrite AvifImageToBitmap_run; [| exact Hp | simpl; apply lookup_insert_eq].
    pose proof (AvifImageToBitmap_outcome_frame d' bitmap
                  (set_decoders (<[h := d']> (decoders w)) w)) as Hframe.
    destruct (AvifImageToBitmap_outcome _ _ _) as [res' w'].
    simpl in Hframe. destruct Hframe as (? & ? & ? & ? & ?).
    exists res', w', d'. auto 10.
  - eexists _, _, d'. split; [reflexivity|]. simpl. auto 10.
Qed.

Lemma binding_events_any : binding_events (fun _ => True).
Proof. repeat split. Qed.

(** Every run extends the trace. *)
Lemma trace_extends {A} (c : M A) w a w' :
  emits (fun _ => True) c -> c w = Some (a, w') ->
  exists evs, trace w' = trace w ++ evs.
Proof. intros Hc Hrun. destruct (Hc _ _ _ Hrun) as (evs & Htr & _). eauto. Qed.

Lemma decode_spec encoded len bitmap threads w :
  0 <= threads ->
  exists ok w' h evs,
    decode encoded len bitmap threads w = Some (ok, w') /\
    decoders w' = decoders w /\ wrappers w' = wrappers w /\
    buffers w' = buffers w /\ fields w' = fields w /\
    alloc_plan w' = tail (alloc_plan w) /\
    trace w' = trace w ++ EvDecoderCreate h :: evs ++
                 (if h =? 0 then [] else [EvDecoderDestroy h]).
Proof.
  intros Hge. unfold decode.
  destruct (Z.ltb_spec threads 0) as [?|_]; [lia|].
  unfold GetDirectBufferAddress, place_wrapper, bind at 1 2. simpl.
  destruct (fresh_address_spec (wrappers w)) as [Hpnz Hpfree].
  set (p := fresh_address (wrappers w)) in *.
  set (w1 := set_wrappers _ w).
  assert (Hp1 : wrappers w1 !! p = Some {| decoder := 0 |})
    by (simpl; apply lookup_insert_eq).
  destruct (CreateDecoderAndParse_spec p (buffers w !! encoded) len
              (getThreadCount threads) w1 _ Hp1)
    as (ok & w2 & h & evs & Hrun & Hwr & Hbm & Hbuf & Hfl & Hplan & Htr & _ & Hcase).
  rewrite (bind_run _ _ _ _ _ Hrun).
  assert (Hp2 : wrappers w2 !! p = Some {| decoder := h |})
    by (rewrite Hwr; apply lookup_insert_eq).
  assert (Hback : delete p (wrappers w2) = wrappers w).
  { rewrite Hwr. simpl. rewrite delete_insert_eq. now apply delete_insert_id. }
  destruct Hcase as [(-> & -> & Hdec & _) | (Hnz & Hfree & _ & Hdec & Hok)].
  - simpl. unfold leave_scope.
    destruct (teardown_run p 0 w2 Hp2 (or_introl eq_refl))
      as (w3 & Hrun3 & Hwr3 & Hdec3 & Hbm3 & Hbuf3 & Hfl3 & Hplan3 & Htr3).
    rewrite (bind_run _ _ _ _ _ Hrun3).
    exists false, w3, 0, evs. split; [reflexivity|]. simpl in *.
    rewrite Hwr3, Hdec3, Hbuf3, Hfl3, Hplan3, Htr3, Hback, Hdec, Hbuf, Hfl,
      Hplan, Htr, !app_nil_r.
    auto 10.
  - simpl in Hdec, Hfree.
    destruct ok; simpl.
    + assert (Hd2 : decoders w2 !! h = Some (snd (parse_outcome (buffers w !! encoded)
                                                  len (getThreadCount threads))))
        by (rewrite Hdec; apply lookup_insert_eq).
      destruct (DecodeNextImage_spec p bitmap w2 h _ Hp2 Hd2)
        as (res & w3 & d' & Hrun3 & Hwr3 & Hdec3 & Hbuf3 & Hfl3 & Hplan3).
      rewrite (bind_run _ _ _ _ _ Hrun3).
      destruct (trace_extends _ _ _ _
                  (emits_DecodeNextImage _ binding_events_any p bitmap) Hrun3)
        as (evs3 & Htr3).
      assert (Hp3 : wrappers w3 !! p = Some {| decoder := h |}) by now rewrite Hwr3.
      assert (Hd3 : h = 0 \/ is_Some (decoders w3 !! h)).
      { right. rewrite Hdec3, lookup_insert_eq. eauto. }
      unfold leave_scope.
      destruct (teardown_run p h w3 Hp3 Hd3)
        as (w4 & Hrun4 & Hwr4 & Hdec4 & _ & Hbuf4 & Hfl4 & Hplan4 & Htr4).
      rewrite (bind_run _ _ _ _ _ Hrun4).
      destruct (Z.eqb_spec h 0) as [?|_]; [contradiction|].
      exists (is_ok res), w4, h, (evs ++ evs3).
      split; [reflexivity|].
      rewrite Hwr4, Hdec4, Hbuf4, Hfl4, Hplan4, Htr4, Hwr3, Hdec3, Hbuf3, Hfl3,
        Hplan3, Htr3, Hback, Hdec, Hbuf, Hfl, Hplan, Htr.
      rewrite insert_insert_eq, (delete_insert_id _ _ _ Hfree).
      rewrite (proj2 (Z.eqb_neq h 0) Hnz).
      repeat split; try reflexivity.
      rewrite <- !app_assoc. simpl. rewrite <- ?app_assoc. reflexivity.
    + assert (Hd2 : h = 0 \/ is_Some (decoders w2 !! h)).
      { right. rewrite Hdec, lookup_insert_eq. eauto. }
      unfold leave_scope.
      destruct (teardown_run p h w2 Hp2 Hd2)
        as (w3 & Hrun3 & Hwr3 & Hdec3 & _ & Hbuf3 & Hfl3 & Hplan3 & Htr3).
      rewrite (bind_run _ _ _ _ _ Hrun3).
      destruct (Z.eqb_spec h 0) as [?|_]; [contradiction|].
      exists false, w3, h, evs.
      split; [reflexivity|].
      rewrite Hwr3, Hdec3, Hbuf3, Hfl3, Hplan3, Htr3, Hback, Hdec, Hbuf, Hfl,
        Hplan, Htr.
      rewrite (delete_insert_id _ _ _ Hfree).
      rewrite (proj2 (Z.eqb_neq h 0) Hnz).
      repeat split; try reflexivity.
      rewrite <- !app_assoc. simpl. rewrite <- ?app_assoc. reflexivity.
Qed.

(** ** [createDecoder] *)

Lemma try_alloc_spec w :
  exists w',
    try_alloc w = Some (hd true (alloc_plan w), w') /\
    decoders w' = decoders w /\ wrappers w' = wrappers w /\
    bitmaps w' = bitmaps w /\ buffers w' = buffers w /\
    fields w' = fields w /\ alloc_plan w' = tail (alloc_plan w) /\
    trace w' = trace w.
Proof.
  unfold try_alloc. destruct (alloc_plan w) as [|ok plan] eqn:Hplan; simpl.
  - exists w. rewrite Hplan. auto 10.
  - eexists. split; [reflexivity|]. simpl. auto 10.
Qed.

Lemma delete_run p h w :
  p <> 0 ->
  wrappers w !! p = Some {| decoder := h |} ->
  h = 0 \/ is_Some (decoders w !! h) ->
  exists w',
    (delete_AvifDecoderWrapper p ;;; ret 0) w = Some (0, w') /\
    wrappers w' = delete p (wrappers w) /\
    decoders w' = (if h =? 0 then decoders w else delete h (decoders w)) /\
    bitmaps w' = bitmaps w /\ buffers w' = buffers w /\
    fields w' = fields w /\ alloc_plan w' = alloc_plan w /\
    trace w' = trace w ++ (if h =? 0 then [] else [EvDecoderDestroy h]).
Proof.
  intros Hnz Hp Hh. unfold delete_AvifDecoderWrapper.
  destruct (Z.eqb_spec p 0) as [?|_]; [contradiction|].
  destruct (teardown_run p h w Hp Hh) as (w' & Hrun & Hfacts).
  rewrite (bind_run _ _ _ _ _ Hrun). now exists w'.
Qed.

Lemma createDecoder_spec thiz encoded len threads w :
  0 <= threads ->
  let plan := alloc_plan w in
  let po := parse_outcome (buffers w !! encoded) len (getThreadCount threads) in
  let d := snd po in
  exists r w',
    createDecoder thiz encoded len threads w = Some (r, w') /\
    bitmaps w' = bitmaps w /\ buffers w' = buffers w /\
    ((hd true plan = false /\ r = 0 /\
      decoders w' = decoders w /\ wrappers w' = wrappers w /\
      fields w' = fields w /\ trace w' = trace w)
     \/
     (hd true plan = true /\
      exists h evs,
        trace w' = trace w ++ EvDecoderCreate h :: evs /\
        ((r = 0 /\ decoders w' = decoders w /\ wrappers w' = wrappers w /\
          fields w' = fields w /\
          (hd true (tail plan) = false \/ is_ok (fst po) = false))
         \/
         (r = 0 /\ decoders w' = decoders w /\ wrappers w' = wrappers w /\
          fields w' = metadata_fields thiz d (fields w) /\
          hd true (tail plan) = true /\ is_ok (fst po) = true /\
          durations_fail d (tail (tail plan)))
         \/
         (r <> 0 /\ wrappers w !! r = None /\ h <> 0 /\ decoders w !! h = None /\
          wrappers w' = <[r := {| decoder := h |}]> (wrappers w) /\
          decoders w' = <[h := d]> (decoders w) /\
          hd true (tail plan) = true /\ is_ok (fst po) = true /\
          0 <= imageCount d /\
          hd true (tail (tail plan)) = true /\
          hd true (tail (tail (tail plan))) = true /\
          exists ds,
            native_durations_from d 0 (Z.to_nat (imageCount d)) = Some ds /\
            fields w' = <[(thiz, "frameDurations") := JDoubleArray ds]>
                          (metadata_fields thiz d (fields w)))))).
Proof.
  intros Hge plan po d. unfold createDecoder.
  destruct (Z.ltb_spec threads 0) as [?|_]; [lia|].
  unfold GetDirectBufferAddress, bind at 1. simpl.
  unfold new_AvifDecoderWrapper.
  destruct (try_alloc_spec w)
    as (w0 & Hrun0 & Hdec0 & Hwr0 & Hbm0 & Hbuf0 & Hfl0 & Hplan0 & Htr0).
  rewrite bind_bind, (bind_run _ _ _ _ _ Hrun0).
  destruct (hd true (alloc_plan w)) eqn:Hhd0.
  2:{ simpl. exists 0, w0. split; [reflexivity|]. subst plan. rewrite Hhd0. auto 10. }
  unfold place_wrapper, bind at 1.
  destruct (fresh_address_spec (wrappers w0)) as [Hpnz Hpfree].
  set (p := fresh_address (wrappers w0)) in *.
  destruct (Z.eqb_spec p 0) as [?|_]; [contradiction|].
  set (w1 := set_wrappers _ w0).
  assert (Hp1 : wrappers w1 !! p = Some {| decoder := 0 |})
    by (simpl; apply lookup_insert_eq).
  destruct (CreateDecoderAndParse_spec p (buffers w !! encoded) len
              (getThreadCount threads) w1 _ Hp1)
    as (ok & w2 & h & evs & Hrun & Hwr & Hbm & Hbuf & Hfl & Hplan & Htr & _ & Hcase).
  rewrite (bind_run _ _ _ _ _ Hrun).
  assert (Hp2 : wrappers w2 !! p = Some {| decoder := h |})
    by (rewrite Hwr; apply lookup_insert_eq).
  rewrite Hwr0 in Hpfree.
  assert (Hback : delete p (wrappers w2) = wrappers w).
  { rewrite Hwr. simpl. rewrite delete_insert_eq, Hwr0. now apply delete_insert_id. }
  simpl in Hbm, Hbuf, Hfl, Hplan, Htr.
  assert (Hleft : hd true plan = true) by exact Hhd0.
  destruct ok; simpl.
  2:{ (* no decoder, or no parse *)
    assert (Hh : h = 0 \/ is_Some (decoders w2 !! h)).
    { destruct Hcase as [(-> & _)|(_ & _ & _ & Hdec & _)]; [now left | right].
      rewrite Hdec, lookup_insert_eq. eauto. }
    destruct (delete_run p h w2 Hpnz Hp2 Hh)
      as (w3 & Hrun3 & Hwr3 & Hdec3 & Hbm3 & Hbuf3 & Hfl3 & Hplan3 & Htr3).
    exists 0, w3. split; [exact Hrun3|].
    rewrite Hbm3, Hbuf3, Hbm, Hbuf, Hbm0, Hbuf0. do 2 (split; [reflexivity|]).
    right. split; [exact Hleft|].
    exists h, (evs ++ (if h =? 0 then [] else [EvDecoderDestroy h])).
    split; [rewrite Htr3, Htr, Htr0, <- app_assoc; reflexivity|].
    left. rewrite Hwr3, Hdec3, Hfl3, Hback, Hfl, Hfl0.
    split; [reflexivity|]. split; [|split; [reflexivity|split; [reflexivity|]]].
    - destruct Hcase as [(-> & _ & Hdec & _)|(Hnz & Hfree & _ & Hdec & _)].
      + simpl. now rewrite Hdec.
      + destruct (Z.eqb_spec h 0) as [?|_]; [contradiction|].
        rewrite Hdec. simpl. rewrite Hdec0. apply delete_insert_id.
        now rewrite <- Hdec0.
    - destruct Hcase as [(_ & _ & _ & Hhd)|(_ & _ & _ & _ & Hok)].
      + left. simpl in Hhd. now rewrite Hplan0 in Hhd.
      + right. subst po. now rewrite <- Hok. }
  destruct Hcase as [(_ & Hfalse & _)|(Hnz & Hfree & Hhd1 & Hdec & Hok)];
    [discriminate|].
  simpl in Hfree, Hhd1, Hdec.
  rewrite Hdec0 in Hfree, Hdec. rewrite Hplan0 in Hhd1, Hplan.
  fold po in Hdec, Hok. fold d in Hdec. fold plan in Hhd1, Hplan.
  symmetry in Hok.
  assert (Hd2 : decoders w2 !! h = Some d) by (rewrite Hdec; apply lookup_insert_eq).
  rewrite (bind_run _ _ _ _ _ (wrapped_decoder_run _ _ _ _ Hp2 Hd2)).
  unfold SetIntField, SetBooleanField, SetObjectField.
  do 6 (erewrite bind_run by reflexivity).
  match goal with
  | |- exists r w', bind _ _ ?W = _ /\ _ =>
      set (w3 := W);
      assert (Hw3 : decoders w3 = decoders w2 /\ wrappers w3 = wrappers w2 /\
                    bitmaps w3 = bitmaps w2 /\ buffers w3 = buffers w2 /\
                    fields w3 = metadata_fields thiz d (fields w2) /\
                    alloc_plan w3 = alloc_plan w2 /\ trace w3 = trace w2)
        by (repeat split; reflexivity);
      clearbody w3
  end.
  destruct Hw3 as (Hdec3 & Hwr3 & Hbm3 & Hbuf3 & Hfl3 & Hplan3 & Htr3).
  assert (Hexit : forall wx,
    decoders wx = decoders w3 -> wrappers wx = wrappers w3 ->
    bitmaps wx = bitmaps w3 -> buffers wx = buffers w3 ->
    fields wx = fields w3 -> trace wx = trace w3 ->
    durations_fail d (tail (tail plan)) ->
    exists w',
      (delete_AvifDecoderWrapper p ;;; ret 0) wx = Some (0, w') /\
      bitmaps w' = bitmaps w /\ buffers w' = buffers w /\
      decoders w' = decoders w /\ wrappers w' = wrappers w /\
      fields w' = metadata_fields thiz d (fields w) /\
      trace w' = trace w ++ EvDecoderCreate h :: evs ++ [EvDecoderDestroy h]).
  { intros wx Hdx Hwx Hbx Hbufx Hfx Htx Hfail.
    assert (Hpx : wrappers wx !! p = Some {| decoder := h |})
      by now rewrite Hwx, Hwr3.
    assert (Hhx : h = 0 \/ is_Some (decoders wx !! h))
      by (right; rewrite Hdx, Hdec3; eauto).
    destruct (delete_run p h wx Hpnz Hpx Hhx)
      as (w' & Hrun' & Hwr' & Hdec' & Hbm' & Hbuf' & Hfl' & _ & Htr').
    destruct (Z.eqb_spec h 0) as [?|_]; [contradiction|].
    exists w'. split; [exact Hrun'|].
    rewrite Hbm', Hbuf', Hdec', Hwr', Hfl', Htr', Hbx, Hbufx, Hdx, Hwx, Hfx, Htx,
      Hbm3, Hbuf3, Hdec3, Hwr3, Hfl3, Htr3, Hbm, Hbuf, Hdec, Hback, Hfl, Htr,
      Hbm0, Hbuf0, Hfl0, Htr0.
    rewrite (delete_insert_id _ _ _ Hfree), <- app_assoc.
    repeat split; reflexivity. }
  assert (Hfailing : forall wx,
    decoders wx = decoders w3 -> wrappers wx = wrappers w3 ->
    bitmaps wx = bitmaps w3 -> buffers wx = buffers w3 ->
    fields wx = fields w3 -> trace wx = trace w3 ->
    durations_fail d (tail (tail plan)) ->
    exists r w',
      (delete_AvifDecoderWrapper p ;;; ret 0) wx = Some (r, w') /\
      bitmaps w' = bitmaps w /\ buffers w' = buffers w /\
      (hd true plan = false /\ r = 0 /\
       decoders w' = decoders w /\ wrappers w' = wrappers w /\
       fields w' = fields w /\ trace w' = trace w
       \/
       hd true plan = true /\
       exists h evs,
         trace w' = trace w ++ EvDecoderCreate h :: evs /\
         ((r = 0 /\ decoders w' = decoders w /\ wrappers w' = wrappers w /\
           fields w' = fields w /\
           (hd true (tail plan) = false \/ is_ok (fst po) = false))
          \/
          (r = 0 /\ decoders w' = decoders w /\ wrappers w' = wrappers w /\
           fields w' = metadata_fields thiz d (fields w) /\
           hd true (tail plan) = true /\ is_ok (fst po) = true /\
           durations_fail d (tail (tail plan)))
          \/
          (r <> 0 /\ wrappers w !! r = None /\ h <> 0 /\ decoders w !! h = None /\
           wrappers w' = <[r := {| decoder := h |}]> (wrappers w) /\
           decoders w' = <[h := d]> (decoders w) /\
           hd true (tail plan) = true /\ is_ok (fst po) = true /\
           0 <= imageCount d /\
           hd true (tail (tail plan)) = true /\
           hd true (tail (tail (tail plan))) = true /\
           exists ds,
             native_durations_from d 0 (Z.to_nat (imageCount d)) = Some ds /\
             fields w' = <[(thiz, "frameDurations") := JDoubleArray ds]>
                           (metadata_fields thiz d (fields w)))))).
  { intros wx Hdx Hwx Hbx Hbufx Hfx Htx Hfail.
    destruct (Hexit wx Hdx Hwx Hbx Hbufx Hfx Htx Hfail)
      as (w' & Hrun' & Hbm' & Hbuf' & Hdec' & Hwr' & Hfl' & Htr').
    exists 0, w'. split; [exact Hrun'|]. do 2 (split; [assumption|]).
    right. split; [exact Hleft|]. exists h, (evs ++ [EvDecoderDestroy h]).
    split; [exact Htr'|]. right. left. auto 10. }
  clear Hexit.
  unfold new_double_array.
  destruct (Z.ltb_spec (imageCount d) 0) as [Hneg|Hnonneg].
  { erewrite bind_run by reflexivity. simpl.
    apply (Hfailing w3); try reflexivity. now left. }
  destruct (try_alloc_spec w3)
    as (w4 & Hrun4 & Hdec4 & Hwr4 & Hbm4 & Hbuf4 & Hfl4 & Hplan4 & Htr4).
  rewrite (bind_run _ _ _ _ _ Hrun4).
  rewrite Hplan3, Hplan in Hplan4. rewrite Hplan3, Hplan.
  destruct (hd true (tail (tail plan))) eqn:Hhd2; simpl.
  2:{ apply (Hfailing w4); try assumption. right. now left. }
  destruct (native_durations_from d 0 (Z.to_nat (imageCount d))) as [ds|] eqn:Hds.
  2:{ apply (Hfailing w4); try assumption. right. right. now left. }
  destruct (try_alloc_spec w4)
    as (w5 & Hrun5 & Hdec5 & Hwr5 & Hbm5 & Hbuf5 & Hfl5 & Hplan5 & Htr5).
  rewrite (bind_run _ _ _ _ _ Hrun5). rewrite Hplan4.
  destruct (hd true (tail (tail (tail plan)))) eqn:Hhd3; simpl.
  2:{ apply (Hfailing w5); try congruence. right. right. now right. }
  erewrite bind_run by reflexivity.
  eexists p, _. split; [reflexivity|]. simpl.
  rewrite Hbm5, Hbuf5, Hbm4, Hbuf4, Hbm3, Hbuf3, Hbm, Hbuf, Hbm0, Hbuf0.
  do 2 (split; [reflexivity|]).
  right. split; [exact Hleft|]. exists h, evs.
  rewrite Htr5, Htr4, Htr3, Htr, Htr0. split; [reflexivity|].
  right. right.
  rewrite Hwr5, Hwr4, Hwr3, Hwr, Hdec5, Hdec4, Hdec3, Hdec, Hfl5, Hfl4, Hfl3, Hfl, Hfl0.
  simpl. rewrite insert_insert_eq, Hwr0.
  do 11 (split; [assumption || reflexivity|]).
  exists ds. split; reflexivity.
Qed.

Lemma is_ok_true res : is_ok res = true -> res = AVIF_RESULT_OK.
Proof. now destruct res. Qed.

Lemma metadata_fields_lookup thiz d f :
  let m := metadata_fields thiz d f in
  m !! (thiz, "width") = Some (JInt (jint_of_uint32 (width (image d)))) /\
  m !! (thiz, "height") = Some (JInt (jint_of_uint32 (height (image d)))) /\
  m !! (thiz, "depth") = Some (JInt (jint_of_uint32 (depth (image d)))) /\
  m !! (thiz, "alphaPresent") = Some (JBoolean (alphaPresent d)) /\
  m !! (thiz, "repetitionCount") = Some (JInt (repetitionCount d)) /\
  m !! (thiz, "frameCount") = Some (JInt (imageCount d)) /\
  m !! (thiz, "frameDurations") = f !! (thiz, "frameDurations").
Proof.
  unfold metadata_fields.
  repeat split;
    repeat first [ rewrite lookup_insert_eq; reflexivity
                 | rewrite lookup_insert_ne by (intros [=]) ];
    reflexivity.
Qed.

Lemma native_durations_from_Some d n : forall i ds,
  native_durations_from d i n = Some ds ->
  length ds = n /\
  forall k, (k < n)%nat ->
    exists timing,
      avifDecoderNthImageTiming d (i + Z.of_nat k) = (AVIF_RESULT_OK, timing) /\
      ds !! k = Some (duration timing).
Proof.
  induction n as [|n IH]; intros i ds; simpl.
  - intros [= <-]. split; [reflexivity | intros k Hk; lia].
  - destruct (avifDecoderNthImageTiming d i) as [res timing] eqn:Htiming.
    destruct res; try discriminate.
    destruct (native_durations_from d (i + 1) n) as [ds'|] eqn:Hrest; [|discriminate].
    intros [= <-]. destruct (IH _ _ Hrest) as [Hlen Hnth].
    split; [simpl; now rewrite Hlen|].
    intros [|k] Hk.
    + exists timing. rewrite Z.add_0_r. now split.
    + destruct (Hnth k ltac:(lia)) as (timing' & Hq & Hk').
      exists timing'. split; [|exact Hk'].
      rewrite <- Hq. f_equal. lia.
Qed.

Lemma native_durations_from_failure d F i :
  0 <= i < F ->
  fst (avifDecoderNthImageTiming d i) <> AVIF_RESULT_OK ->
  native_durations_from d 0 (Z.to_nat F) = None.
Proof.
  intros Hi Hfail.
  destruct (native_durations_from d 0 (Z.to_nat F)) as [ds|] eqn:Hds; [|reflexivity].
  destruct (native_durations_from_Some _ _ _ _ Hds) as [_ Hnth].
  destruct (Hnth (Z.to_nat i) ltac:(lia)) as (timing & Hq & _).
  rewrite Z.add_0_l, Z2Nat.id in Hq by lia.
  rewrite Hq in Hfail. now contradiction Hfail.
Qed.

Lemma native_durations_from_total d n : forall i,
  (forall k, (k < n)%nat ->
     fst (avifDecoderNthImageTiming d (i + Z.of_nat k)) = AVIF_RESULT_OK) ->
  exists ds, native_durations_from d i n = Some ds.
Proof.
  induction n as [|n IH]; intros i Hall; simpl.
  - now exists [].
  - pose proof (Hall 0%nat ltac:(lia)) as Hfirst. rewrite Z.add_0_r in Hfirst.
    destruct (avifDecoderNthImageTiming d i) as [res timing]. simpl in Hfirst.
    subst res.
    destruct (IH (i + 1)) as [ds Hds].
    + intros k Hk. rewrite <- (Hall (S k) ltac:(lia)). do 2 f_equal. lia.
    + rewrite Hds. eauto.
Qed.

Lemma parse_outcome_cursor buffer len threads :
  cursor_law ->
  is_ok (fst (parse_outcome buffer len threads)) = true ->
  imageIndex (snd (parse_outcome buffer len threads)) = -1.
Proof.
  intros [Hparse _]. unfold parse_outcome.
  destruct (native_set_io_memory _ buffer len) as [res d1].
  destruct (is_ok res) eqn:Hres; simpl; [|congruence].
  destruct (native_parse d1) as [res' d2] eqn:Hp. simpl.
  intros Hok. apply is_ok_true in Hok. subst res'. eauto.
Qed.

(** ** The claims about [decode] and [createDecoder] *)

(** C1: [decode] always returns; whatever the input, the target and the
    thread count, and on every path (invalid thread count, no decoder,
    input not bound, parse failure, decode or conversion failure, success)
    the stores of native decoders and of wrappers are afterwards what they
    were before: with a negative thread count nothing was created, and
    otherwise the decoder [avifDecoderCreate] returned, when it returned
    one, is destroyed as the last thing the call does.  Its boolean is the
    outcome of Construct, then DecodeNext into the target, then Destroy (on
    a platform whose core count is not negative, the thread count 0 being
    resolved to that count). *)
Theorem decode_is_Construct_DecodeNext_Destroy encoded len bitmap threads w :
  (exists ok w',
     decode encoded len bitmap threads w = Some (ok, w') /\
     decoders w' = decoders w /\ wrappers w' = wrappers w /\
     (threads < 0 -> trace w' =
        trace w ++ [EvLOGE "Invalid value for threads (%d)." [ArgInt threads]]) /\
     (0 <= threads ->
      exists h evs,
        trace w' = trace w ++ EvDecoderCreate h :: evs ++
                     (if h =? 0 then [] else [EvDecoderDestroy h]))) /\
  (0 <= android_getCpuCount ->
   decode encoded len bitmap threads w =
   (r <- DecodeOneShot encoded len bitmap threads ;; ret (succeeded r)) w).
Proof.
  split; [|apply decode_refines_DecodeOneShot].
  destruct (Z.ltb_spec threads 0) as [Hneg|Hge].
  - unfold decode. rewrite (proj2 (Z.ltb_lt threads 0) Hneg).
    eexists _, _. split; [reflexivity|]. simpl.
    repeat split; try reflexivity. lia.
  - destruct (decode_spec encoded len bitmap threads w Hge)
      as (ok & w' & h & evs & Hrun & Hdec & Hwr & _ & _ & _ & Htr).
    exists ok, w'. repeat split; try assumption; [lia | eauto].
Qed.

(** C6: a negative thread count makes [createDecoder] return 0 and [decode]
    return false, with the log line "Invalid value for threads" and nothing
    else done: no wrapper, no decoder, no allocation attempted.  With a
    thread count of 0 or more the check passes: [decode] goes on to
    [avifDecoderCreate], and so does [createDecoder] unless the allocation
    of its wrapper fails first. *)
Theorem thread_count_validation thiz encoded len bitmap threads w :
  (threads < 0 ->
   let w' := emit (EvLOGE "Invalid value for threads (%d)." [ArgInt threads]) w in
   decode encoded len bitmap threads w = Some (false, w') /\
   createDecoder thiz encoded len threads w = Some (0, w') /\
   decoders w' = decoders w /\ wrappers w' = wrappers w /\
   alloc_plan w' = alloc_plan w) /\
  (0 <= threads ->
   (exists ok w' h evs,
      decode encoded len bitmap threads w = Some (ok, w') /\
      trace w' = trace w ++ EvDecoderCreate h :: evs) /\
   (exists r w',
      createDecoder thiz encoded len threads w = Some (r, w') /\
      ((hd true (alloc_plan w) = false /\ r = 0 /\ trace w' = trace w) \/
       (hd true (alloc_plan w) = true /\
        exists h evs, trace w' = trace w ++ EvDecoderCreate h :: evs)))).
Proof.
  split.
  - intros Hneg. apply Z.ltb_lt in Hneg. unfold decode, createDecoder.
    rewrite Hneg. repeat split.
  - intros Hge. split.
    + destruct (decode_spec encoded len bitmap threads w Hge)
        as (ok & w' & h & evs & Hrun & _ & _ & _ & _ & _ & Htr).
      now exists ok, w', h, (evs ++ (if h =? 0 then [] else [EvDecoderDestroy h])).
    + destruct (createDecoder_spec thiz encoded len threads w Hge)
        as (r & w' & Hrun & _ & _ & Hcase).
      exists r, w'. split; [exact Hrun|].
      destruct Hcase as [(Hhd & Hr & _ & _ & _ & Htr)|(Hhd & h & evs & Htr & _)].
      * left. auto.
      * right. eauto.
Qed.

(** C4: [createDecoder] always returns.  With a valid thread count it
    returns a session exactly when the wrapper, the native decoder and the
    two arrays can be allocated, the input parses with a frame count that
    is not negative, and the timing query of every frame succeeds.  When it
    returns a session, the frameDurations field of [thiz] holds exactly one
    duration per frame of the parsed decoder: its length is the frame count
    (the value also written to frameCount), and entry [i] is the duration
    the native timing query reports for frame [i], each query having
    succeeded.  When the timing query of some frame of a parsed input
    fails, it returns 0.  And whenever it returns 0, frameDurations is what
    it was before (no partial sequence) and no wrapper or decoder
    remains. *)
Theorem createDecoder_frame_durations thiz encoded len threads w :
  exists r w',
    createDecoder thiz encoded len threads w = Some (r, w') /\
    (0 <= threads ->
     let plan := alloc_plan w in
     let po := parse_outcome (buffers w !! encoded) len (getThreadCount threads) in
     r <> 0 <->
     hd true plan = true /\ hd true (tail plan) = true /\
     hd true (tail (tail plan)) = true /\
     hd true (tail (tail (tail plan))) = true /\
     is_ok (fst po) = true /\ 0 <= imageCount (snd po) /\
     forall i, 0 <= i < imageCount (snd po) ->
       fst (avifDecoderNthImageTiming (snd po) i) = AVIF_RESULT_OK) /\
    (r <> 0 ->
     exists wr d ds,
       wrappers w' !! r = Some wr /\ decoders w' !! decoder wr = Some d /\
       d = snd (parse_outcome (buffers w !! encoded) len (getThreadCount threads)) /\
       fields w' !! (thiz, "frameCount") = Some (JInt (imageCount d)) /\
       fields w' !! (thiz, "frameDurations") = Some (JDoubleArray ds) /\
       Z.of_nat (length ds) = imageCount d /\
       forall i, 0 <= i < imageCount d ->
         exists timing,
           avifDecoderNthImageTiming d i = (AVIF_RESULT_OK, timing) /\
           ds !! Z.to_nat i = Some (duration timing)) /\
    (forall i,
       0 <= threads ->
       let po := parse_outcome (buffers w !! encoded) len (getThreadCount threads) in
       is_ok (fst po) = true ->
       0 <= i < imageCount (snd po) ->
       fst (avifDecoderNthImageTiming (snd po) i) <> AVIF_RESULT_OK ->
       r = 0) /\
    (r = 0 ->
     fields w' !! (thiz, "frameDurations") = fields w !! (thiz, "frameDurations") /\
     decoders w' = decoders w /\ wrappers w' = wrappers w).
Proof.
  destruct (Z.ltb_spec threads 0) as [Hneg|Hge].
  { unfold createDecoder. apply Z.ltb_lt in Hneg. rewrite Hneg.
    eexists 0, _. split; [reflexivity|]. simpl.
    split; [lia|]. split; [congruence|]. split; [lia|]. auto. }
  destruct (createDecoder_spec thiz encoded len threads w Hge)
    as (r & w' & Hrun & _ & _ & Hcase).
  exists r, w'. split; [exact Hrun|].
  set (po := parse_outcome (buffers w !! encoded) len (getThreadCount threads)) in *.
  destruct Hcase as [(Hhd & -> & Hdec & Hwr & Hfl & _)
                    | (Hhd & h & evs & _ & Hcase)].
  { split.
    { intros _. simpl. split; [congruence|].
      intros (Hhd' & _). rewrite Hhd' in Hhd. discriminate. }
    split; [congruence|]. split; [reflexivity|]. now rewrite Hfl. }
  destruct Hcase as [(-> & Hdec & Hwr & Hfl & Hearly)
                    |[(-> & Hdec & Hwr & Hfl & _ & _ & Hlate)
                     |(Hr & _ & Hnz & _ & Hwr & Hdec & Hhd1 & Hok & HF & Hhd2 & Hhd3
                         & ds & Hds & Hfl)]].
  - split.
    { intros _. simpl. split; [congruence|].
      intros (_ & Hhd1 & _ & _ & Hok & _).
      destruct Hearly as [Hno|Hno]; rewrite Hno in *; discriminate. }
    split; [congruence|]. split; [reflexivity|]. now rewrite Hfl.
  - split.
    { intros _. simpl. split; [congruence|].
      intros (_ & _ & Hhd2 & Hhd3 & _ & HF & Hall). exfalso.
      destruct Hlate as [Hno|[Hno|[Hno|Hno]]].
      - lia.
      - rewrite Hno in Hhd2. discriminate.
      - destruct (native_durations_from_total (snd po)
                    (Z.to_nat (imageCount (snd po))) 0) as [ds Hds].
        + intros k Hk. apply Hall. lia.
        + rewrite Hds in Hno. discriminate.
      - rewrite Hno in Hhd3. discriminate. }
    split; [congruence|]. split; [reflexivity|]. intros _.
    rewrite Hfl. split; [|auto].
    apply (metadata_fields_lookup thiz (snd po) (fields w)).
  - destruct (native_durations_from_Some _ _ _ _ Hds) as [Hlen Hnth].
    assert (Hqueries : forall i, 0 <= i < imageCount (snd po) ->
              exists timing,
                avifDecoderNthImageTiming (snd po) i = (AVIF_RESULT_OK, timing) /\
                ds !! Z.to_nat i = Some (duration timing)).
    { intros i Hi. destruct (Hnth (Z.to_nat i) ltac:(lia)) as (timing & Hq & Hk).
      exists timing. rewrite Z.add_0_l, Z2Nat.id in Hq by lia. now split. }
    split; [|split; [|split; [|congruence]]].
    + intros _. simpl. split; [|intros _; exact Hr].
      intros _. do 6 (split; [assumption|]).
      intros i Hi. destruct (Hqueries i Hi) as (timing & Hq & _).
      now rewrite Hq.
    + intros _. exists {| decoder := h |}, (snd po), ds.
      rewrite Hwr, Hdec, Hfl. simpl. rewrite !lookup_insert_eq.
      rewrite lookup_insert_ne by (intros [=]).
      repeat split; try reflexivity.
      * apply (metadata_fields_lookup thiz (snd po) (fields w)).
      * rewrite Hlen. lia.
      * exact Hqueries.
    + intros i _ po' _ Hi Hfail. subst po'. exfalso.
      rewrite (native_durations_from_failure _ _ _ Hi Hfail) in Hds. discriminate.
Qed.

(** C10: when the parse inside [createDecoder] has succeeded (the wrapper
    and the decoder could be allocated, the first two allocations of the
    plan, and the input was bound and parsed), the six metadata fields of
    [thiz] (width, height, depth, alphaPresent, repetitionCount,
    frameCount) hold the values of the parsed decoder when the call
    returns, whatever it returns.  In particular when it then fails (the
    native durations array or the Java array cannot be allocated, or the
    timing query of some frame fails) it returns 0 and leaves no session,
    yet the fields have been written. *)
Theorem createDecoder_failure_keeps_metadata thiz encoded len threads w :
  0 <= threads ->
  hd true (alloc_plan w) = true ->
  hd true (tail (alloc_plan w)) = true ->
  let po := parse_outcome (buffers w !! encoded) len (getThreadCount threads) in
  let d := snd po in
  let plan := tail (tail (alloc_plan w)) in
  is_ok (fst po) = true ->
  exists r w',
    createDecoder thiz encoded len threads w = Some (r, w') /\
    (fields w' !! (thiz, "width") = Some (JInt (jint_of_uint32 (width (image d)))) /\
     fields w' !! (thiz, "height") = Some (JInt (jint_of_uint32 (height (image d)))) /\
     fields w' !! (thiz, "depth") = Some (JInt (jint_of_uint32 (depth (image d)))) /\
     fields w' !! (thiz, "alphaPresent") = Some (JBoolean (alphaPresent d)) /\
     fields w' !! (thiz, "repetitionCount") = Some (JInt (repetitionCount d)) /\
     fields w' !! (thiz, "frameCount") = Some (JInt (imageCount d))) /\
    (imageCount d < 0 \/ hd true plan = false \/
     (exists i, 0 <= i < imageCount d /\
                fst (avifDecoderNthImageTiming d i) <> AVIF_RESULT_OK) \/
     hd true (tail plan) = false ->
     r = 0 /\ decoders w' = decoders w /\ wrappers w' = wrappers w).
Proof.
  intros Hge Hhd0 Hhd1 po d plan Hok.
  destruct (createDecoder_spec thiz encoded len threads w Hge)
    as (r & w' & Hrun & _ & _ & Hcase).
  exists r, w'. split; [exact Hrun|].
  fold po in Hcase. fold d in Hcase. fold plan in Hcase.
  destruct Hcase as [(Hhd & _) | (_ & h & evs & _ & Hcase)]; [congruence|].
  destruct Hcase as [(_ & _ & _ & _ & [Hhd|Hnok])
                    |[(-> & Hdec & Hwr & Hfl & _)
                     |(_ & _ & _ & _ & _ & _ & _ & _ & HF & Hp2 & Hp3
                         & ds & Hds & Hfl)]];
    [congruence | congruence | |].
  - pose proof (metadata_fields_lookup thiz d (fields w)) as Hm. simpl in Hm.
    rewrite Hfl. split; [tauto | auto].
  - pose proof (metadata_fields_lookup thiz d (fields w)) as Hm. simpl in Hm.
    rewrite Hfl. split.
    + rewrite !lookup_insert_ne by (intros [=]). tauto.
    + intros [Hneg|[Hplan|[(i & Hi & Hfail)|Hplan]]]; exfalso.
      * lia.
      * congruence.
      * rewrite (native_durations_from_failure _ _ _ Hi Hfail) in Hds. discriminate.
      * congruence.
Qed.

(** ** Sessions: cursor, re-seek and destruction *)

Lemma Decode_image_inv (native : avifDecoder -> avifResult * avifDecoder)
    p bitmap w w' :
  (wr <- load_wrapper p ;;
   res <- (d0 <- load_decoder (decoder wr) ;;
           let '(res, d') := native d0 in store_decoder (decoder wr) d' ;;; ret res) ;;
   if negb (is_ok res) then
     LOGE "Failed to decode AVIF image. Status: %d" [ArgResult res] ;;; ret res
   else AvifImageToBitmap p bitmap) w = Some (AVIF_RESULT_OK, w') ->
  exists wr d d',
    wrappers w !! p = Some wr /\ decoders w !! decoder wr = Some d /\
    native d = (AVIF_RESULT_OK, d') /\
    AvifImageToBitmap_outcome d' bitmap
      (set_decoders (<[decoder wr := d']> (decoders w)) w) = (AVIF_RESULT_OK, w').
Proof.
  intros Hrun.
  destruct (wrappers w !! p) as [wr|] eqn:Hp.
  2:{ revert Hrun. unfold bind at 1, load_wrapper. now rewrite Hp. }
  rewrite (bind_run _ _ _ _ _ (load_wrapper_run _ _ _ Hp)) in Hrun.
  destruct (decoders w !! decoder wr) as [d|] eqn:Hd.
  2:{ revert Hrun. unfold bind, load_decoder. now rewrite Hd. }
  rewrite (bind_run _ _ _ _ _ (native_call_run native _ _ _ Hd)) in Hrun.
  destruct (native d) as [res d'] eqn:Hn. simpl in Hrun.
  destruct res; simpl in Hrun; try (now inversion Hrun).
  exists wr, d, d'. repeat split; try assumption.
  erewrite AvifImageToBitmap_run in Hrun;
    [| exact Hp | simpl; apply lookup_insert_eq].
  now injection Hrun.
Qed.

Lemma Decode_image_run (native : avifDecoder -> avifResult * avifDecoder)
    p bitmap w wr d d' :
  wrappers w !! p = Some wr -> decoders w !! decoder wr = Some d ->
  native d = (AVIF_RESULT_OK, d') ->
  (wr <- load_wrapper p ;;
   res <- (d0 <- load_decoder (decoder wr) ;;
           let '(res, d') := native d0 in store_decoder (decoder wr) d' ;;; ret res) ;;
   if negb (is_ok res) then
     LOGE "Failed to decode AVIF image. Status: %d" [ArgResult res] ;;; ret res
   else AvifImageToBitmap p bitmap) w
  = Some (AvifImageToBitmap_outcome d' bitmap
            (set_decoders (<[decoder wr := d']> (decoders w)) w)).
Proof.
  intros Hp Hd Hn.
  rewrite (bind_run _ _ _ _ _ (load_wrapper_run _ _ _ Hp)).
  rewrite (bind_run _ _ _ _ _ (native_call_run native _ _ _ Hd)).
  rewrite Hn. simpl.
  apply AvifImageToBitmap_run with wr; [exact Hp | simpl; apply lookup_insert_eq].
Qed.

Lemma AvifImageToBitmap_outcome_OK d bitmap w w' :
  AvifImageToBitmap_outcome d bitmap w = (AVIF_RESULT_OK, w') ->
  exists b px,
    bitmaps w !! bitmap = Some b /\
    too_small (bitmap_info b) (image d) = false /\
    supported_format (bitmap_format (bitmap_info b)) = true /\
    lockable b = true /\
    native_yuv_to_rgb (image d)
      (rgb_image_for (image d) (bitmap_info b) (bitmap_pixels b))
    = (AVIF_RESULT_OK, px) /\
    w' = emit (EvYUVToRGB (image d)
                 (rgb_image_for (image d) (bitmap_info b) (bitmap_pixels b)))
           (set_bitmaps (<[bitmap := set_bitmap_pixels px b]> (bitmaps w)) w).
Proof.
  unfold AvifImageToBitmap_outcome.
  destruct (bitmaps w !! bitmap) as [b|]; [|discriminate].
  destruct (too_small _ _) eqn:Hts; [discriminate|].
  destruct (supported_format _) eqn:Hfmt; simpl; [|discriminate].
  destruct (lockable b) eqn:Hlock; simpl; [|discriminate].
  destruct (native_yuv_to_rgb _ _) as [res px] eqn:Hconv. simpl.
  destruct res; simpl; intros Hout; try discriminate.
  injection Hout as <-. exists b, px. repeat split; assumption.
Qed.

(** C5: [nextFrameIndex] on a live session is the decoder's imageIndex plus
    one.  With the frame cursor of the data model (a parsed decoder is at
    -1, decode-next advances by one), it is 1 after [createDecoder] and one
    successful [nextFrame]. *)
Theorem nextFrameIndex_counts_frames :
  (forall jdecoder w wr d,
     wrappers w !! jdecoder = Some wr ->
     decoders w !! decoder wr = Some d ->
     nextFrameIndex jdecoder w = Some (imageIndex d + 1, w)) /\
  (cursor_law ->
   forall thiz encoded len threads bitmap w jdecoder w1 w2,
     createDecoder thiz encoded len threads w = Some (jdecoder, w1) ->
     jdecoder <> 0 ->
     nextFrame jdecoder bitmap w1 = Some (AVIF_RESULT_OK, w2) ->
     nextFrameIndex jdecoder w2 = Some (1, w2)).
Proof.
  assert (Hindex : forall jdecoder w wr d,
     wrappers w !! jdecoder = Some wr ->
     decoders w !! decoder wr = Some d ->
     nextFrameIndex jdecoder w = Some (imageIndex d + 1, w)).
  { intros j w wr d Hp Hd. unfold nextFrameIndex.
    now rewrite (bind_run _ _ _ _ _ (wrapped_decoder_run _ _ _ _ Hp Hd)). }
  split; [exact Hindex|].
  intros Hlaw thiz encoded len threads bitmap w j w1 w2 Hcreate Hnz Hnext.
  destruct (Z.ltb_spec threads 0) as [Hneg|Hge].
  { exfalso. revert Hcreate. unfold createDecoder.
    apply Z.ltb_lt in Hneg. rewrite Hneg. intros [= <- _]. now apply Hnz. }
  destruct (createDecoder_spec thiz encoded len threads w Hge)
    as (r & w' & Hrun & _ & _ & Hcase).
  rewrite Hcreate in Hrun. injection Hrun as <- <-.
  destruct Hcase as [(_ & ? & _) | (_ & h & evs & _ & Hcase)]; [contradiction|].
  destruct Hcase as [(? & _)|[(? & _)|(_ & _ & _ & _ & Hwr & Hdec & _ & Hok & _)]];
    [contradiction | contradiction |].
  pose proof (parse_outcome_cursor _ _ _ Hlaw Hok) as Hcursor.
  destruct (Decode_image_inv native_next_image _ _ _ _ Hnext)
    as (wr & d & d' & Hp & Hd & Hn & Hout).
  rewrite Hwr, lookup_insert_eq in Hp. injection Hp as <-. simpl in *.
  rewrite Hdec, lookup_insert_eq in Hd. injection Hd as <-.
  pose proof (AvifImageToBitmap_outcome_frame d' bitmap
                (set_decoders (<[h := d']> (decoders w1)) w1)) as Hframe.
  rewrite Hout in Hframe. simpl in Hframe. destruct Hframe as (Hdec2 & Hwr2 & _).
  assert (Hp2 : wrappers w2 !! j = Some {| decoder := h |})
    by (rewrite Hwr2, Hwr; apply lookup_insert_eq).
  assert (Hd2 : decoders w2 !! h = Some d')
    by (rewrite Hdec2; apply lookup_insert_eq).
  rewrite (Hindex _ _ _ _ Hp2 Hd2).
  destruct Hlaw as [_ Hadvance]. rewrite (Hadvance _ _ Hn), Hcursor.
  reflexivity.
Qed.

(** C9: with a native decoder whose decode-nth is an absolute seek, a
    successful [nthFrame] for frame [k] followed at once by [nthFrame] for
    the same [k] into an identical target (a bitmap that is now what the
    first target was before the first call) succeeds as well and leaves in
    it what the first call left in the first target, pixel for pixel.  When
    the conversion overwrites its target, the same holds for the first
    target itself, used again as it is. *)
Theorem nthFrame_reseek_idempotent :
  reseek_law ->
  (forall jdecoder k bitmap bitmap2 w w1,
     nthFrame jdecoder k bitmap w = Some (AVIF_RESULT_OK, w1) ->
     bitmaps w1 !! bitmap2 = bitmaps w !! bitmap ->
     exists w2,
       nthFrame jdecoder k bitmap2 w1 = Some (AVIF_RESULT_OK, w2) /\
       is_Some (bitmaps w2 !! bitmap2) /\
       bitmaps w2 !! bitmap2 = bitmaps w1 !! bitmap /\
       bitmap_pixels <$> bitmaps w2 !! bitmap2
         = bitmap_pixels <$> bitmaps w1 !! bitmap) /\
  (overwrite_law ->
   forall jdecoder k bitmap w w1,
     nthFrame jdecoder k bitmap w = Some (AVIF_RESULT_OK, w1) ->
     exists w2,
       nthFrame jdecoder k bitmap w1 = Some (AVIF_RESULT_OK, w2) /\
       is_Some (bitmaps w2 !! bitmap) /\
       bitmaps w2 !! bitmap = bitmaps w1 !! bitmap).
Proof.
  intros Hlaw. split.
  - intros j k bitmap bitmap2 w w1 Hfirst Hsame.
    unfold nthFrame, DecodeNthImage, avifDecoderNthImage in *.
    set (native := fun d => native_nth_image d (uint32_of_jint k)) in *.
    destruct (Decode_image_inv native _ _ _ _ Hfirst)
      as (wr & d & d' & Hp & Hd & Hn & Hout).
    destruct (AvifImageToBitmap_outcome_OK _ _ _ _ Hout)
      as (b & px & Hb & Hts & Hfmt & Hlock & Hconv & ->).
    simpl in Hb, Hsame.
    destruct (Hlaw _ _ _ Hn) as (d'' & Hn' & Himg).
    erewrite (Decode_image_run native _ _ _ wr);
      [| exact Hp | simpl; apply lookup_insert_eq | exact Hn'].
    unfold AvifImageToBitmap_outcome. simpl.
    rewrite Hsame, Hb, Himg, Hts, Hfmt, Hlock, Hconv. simpl.
    eexists. split; [reflexivity|]. simpl.
    rewrite !lookup_insert_eq. eauto.
  - intros Hover j k bitmap w w1 Hfirst.
    unfold nthFrame, DecodeNthImage, avifDecoderNthImage in *.
    set (native := fun d => native_nth_image d (uint32_of_jint k)) in *.
    destruct (Decode_image_inv native _ _ _ _ Hfirst)
      as (wr & d & d' & Hp & Hd & Hn & Hout).
    destruct (AvifImageToBitmap_outcome_OK _ _ _ _ Hout)
      as (b & px & Hb & Hts & Hfmt & Hlock & Hconv & ->).
    simpl in Hb.
    destruct (Hlaw _ _ _ Hn) as (d'' & Hn' & Himg).
    erewrite (Decode_image_run native _ _ _ wr);
      [| exact Hp | simpl; apply lookup_insert_eq | exact Hn'].
    unfold AvifImageToBitmap_outcome. simpl.
    rewrite lookup_insert_eq, Himg. simpl. rewrite Hts, Hfmt, Hlock. simpl.
    change (rgb_image_for (image d') (bitmap_info b) px)
      with (set_pixels px
              (rgb_image_for (image d') (bitmap_info b) (bitmap_pixels b))).
    rewrite (Hover _ _ _ Hconv). simpl.
    eexists. split; [reflexivity|]. simpl.
    rewrite !lookup_insert_eq. eauto.
Qed.

(** C8, as the code has it: [destroyDecoder] on a live session destroys its
    native decoder and frees the wrapper; the destructor of a wrapper whose
    native handle is null does nothing; [destroyDecoder] on the null
    session 0 does nothing.  Destroy is idempotent in no other sense: after
    the first call the session address holds no wrapper, and a second
    [destroyDecoder] on it is a delete of a dangling pointer, which is
    undefined; nor does the destructor reset the handle it has destroyed,
    so that run again on the same wrapper it is undefined as well. *)
Theorem destroyDecoder_releases :
  (forall jdecoder w h d,
     jdecoder <> 0 ->
     wrappers w !! jdecoder = Some {| decoder := h |} ->
     h <> 0 -> decoders w !! h = Some d ->
     exists w',
       destroyDecoder jdecoder w = Some (tt, w') /\
       decoders w' = delete h (decoders w) /\ decoders w' !! h = None /\
       wrappers w' = delete jdecoder (wrappers w) /\
       trace w' = trace w ++ [EvDecoderDestroy h] /\
       destroyDecoder jdecoder w' = None) /\
  (forall p w,
     wrappers w !! p = Some {| decoder := 0 |} ->
     AvifDecoderWrapper_destructor p w = Some (tt, w)) /\
  (forall w, destroyDecoder 0 w = Some (tt, w)) /\
  (forall p w h d,
     wrappers w !! p = Some {| decoder := h |} ->
     h <> 0 -> decoders w !! h = Some d ->
     exists w',
       AvifDecoderWrapper_destructor p w = Some (tt, w') /\
       decoders w' = delete h (decoders w) /\ wrappers w' = wrappers w /\
       AvifDecoderWrapper_destructor p w' = None).
Proof.
  split; [|split; [|split]].
  - intros j w h d Hjnz Hp Hnz Hd.
    unfold destroyDecoder, delete_AvifDecoderWrapper.
    destruct (Z.eqb_spec j 0) as [?|_]; [contradiction|].
    destruct (teardown_run j h w Hp (or_intror (ex_intro _ d Hd)))
      as (w' & Hrun & Hwr & Hdec & _ & _ & _ & _ & Htr).
    destruct (Z.eqb_spec h 0) as [?|_]; [contradiction|].
    exists w'. split; [exact Hrun|]. rewrite Hdec, Hwr, Htr.
    repeat split; try reflexivity.
    + apply lookup_delete_eq.
    + unfold AvifDecoderWrapper_destructor, bind, load_wrapper.
      now rewrite Hwr, lookup_delete_eq.
  - intros p w Hp. unfold AvifDecoderWrapper_destructor, bind.
    now rewrite (load_wrapper_run _ _ _ Hp).
  - reflexivity.
  - intros p w h d Hp Hnz Hd.
    unfold AvifDecoderWrapper_destructor, bind.
    rewrite (load_wrapper_run _ _ _ Hp). simpl.
    destruct (Z.eqb_spec h 0) as [?|_]; [contradiction|]. simpl.
    unfold avifDecoderDestroy at 1. rewrite Hd.
    eexists. split; [reflexivity|]. simpl.
    repeat split.
    unfold load_wrapper. simpl. rewrite Hp. simpl.
    destruct (Z.eqb_spec h 0) as [?|_]; [contradiction|]. simpl.
    unfold avifDecoderDestroy. simpl. now rewrite lookup_delete_eq.
Qed.

(** * Further properties of the binding *)

(** ** [CreateDecoderAndParse]: configuration and diagnostics *)

Lemma CreateDecoderAndParse_exact p buffer len threads w wr0 :
  wrappers w !! p = Some wr0 ->
  let created := hd true (alloc_plan w) in
  let io := native_set_io_memory (configure threads native_create) buffer len in
  let parsed := native_parse (snd io) in
  exists ok w' h,
    CreateDecoderAndParse p buffer len threads w = Some (ok, w') /\
    wrappers w' = <[p := {| decoder := h |}]> (wrappers w) /\
    ok = created && is_ok (fst io) && is_ok (fst parsed) /\
    trace w' = trace w ++
      EvDecoderCreate h :: parse_diagnostics created (fst io) (fst parsed) /\
    (created = false -> h = 0 /\ decoders w' = decoders w) /\
    (created = true ->
     h <> 0 /\ decoders w !! h = None /\
     decoders w' =
       <[h := if is_ok (fst io) then snd parsed else snd io]> (decoders w)).
Proof.
  intros Hp created io parsed. unfold CreateDecoderAndParse.
  destruct (avifDecoderCreate_spec w)
    as (h & w1 & Hrun & Hwr & _ & _ & _ & _ & Htr & Hcase).
  rewrite (bind_run _ _ _ _ _ Hrun).
  assert (Hp1 : wrappers w1 !! p = Some wr0) by now rewrite Hwr.
  rewrite (bind_run _ _ _ _ _ (store_wrapper_run _ {| decoder := h |} _ _ Hp1)).
  destruct Hcase as [(-> & Hdec & Hhd) | (Hnz & Hfree & Hhd & Hdec)];
    fold created in Hhd.
  - simpl. eexists false, _, 0. split; [reflexivity|]. simpl.
    rewrite Hwr, Htr, <- app_assoc, Hhd. simpl.
    repeat split; try reflexivity; try assumption; discriminate.
  - destruct (Z.eqb_spec h 0) as [?|_]; [contradiction|].
    assert (Hd1 : decoders w1 !! h = Some native_create)
      by (rewrite Hdec; apply lookup_insert_eq).
    do 5 step_with update_decoder_run.
    unfold avifDecoderSetIOMemory, avifDecoderParse.
    step_with native_call_run.
    subst parsed io. unfold configure. simpl.
    destruct (native_set_io_memory _ buffer len) as [r1 d1]. simpl.
    rewrite Hhd. unfold parse_diagnostics. simpl.
    destruct (is_ok r1) eqn:Hok1; simpl.
    + step_with native_call_run.
      destruct (native_parse d1) as [r2 d2]. simpl.
      destruct (is_ok r2) eqn:Hok2; simpl;
        (eexists _, _, h; split; [reflexivity|]); simpl;
        rewrite Hwr, Htr, Hdec, !insert_insert_eq;
        rewrite <- ?app_assoc; simpl;
        repeat split; try reflexivity; try assumption; discriminate.
    + eexists _, _, h. split; [reflexivity|]. simpl.
      rewrite Hwr, Htr, Hdec, !insert_insert_eq.
      rewrite <- ?app_assoc; simpl.
      repeat split; try reflexivity; try assumption; discriminate.
Qed.

Lemma testbit_two n : 0 <= n -> Z.testbit 2 n = (n =? 1).
Proof.
  intros Hn. change 2 with (2 ^ 1). rewrite Z.pow2_bits_eqb by lia.
  apply Z.eqb_sym.
Qed.

Lemma testbit_one n : 0 <= n -> Z.testbit 1 n = (n =? 0).
Proof.
  intros Hn. change 1 with (2 ^ 0). rewrite Z.pow2_bits_eqb by lia.
  apply Z.eqb_sym.
Qed.

(** X3: the decoder that [CreateDecoderAndParse] hands to the native bind
    and parse is the created one with maxThreads set to the thread count,
    ignoreXMP and ignoreExif set, and in strictFlags exactly the bits of
    AVIF_STRICT_PIXI_REQUIRED (bit 0) and AVIF_STRICT_CLAP_VALID (bit 1)
    cleared, every other bit and every other field as created; what is at
    the handle afterwards is what bind, then parse, made of that decoder
    (parse is not run when bind fails). *)
Theorem CreateDecoderAndParse_configures p buffer len threads w wr0 ok w' h :
  wrappers w !! p = Some wr0 ->
  CreateDecoderAndParse p buffer len threads w = Some (ok, w') ->
  wrappers w' !! p = Some {| decoder := h |} ->
  h <> 0 ->
  let c := configure threads native_create in
  let io := native_set_io_memory c buffer len in
  maxThreads c = threads /\ ignoreXMP c = true /\ ignoreExif c = true /\
  (forall n, 0 <= n ->
     Z.testbit (strictFlags c) n
     = if (n =? 0) || (n =? 1) then false
       else Z.testbit (strictFlags native_create) n) /\
  image c = image native_create /\ imageCount c = imageCount native_create /\
  imageIndex c = imageIndex native_create /\ data c = data native_create /\
  decoders w' !! h
    = Some (if is_ok (fst io) then snd (native_parse (snd io)) else snd io).
Proof.
  intros Hp Hrun Hp' Hnz c io.
  split; [reflexivity|]. split; [reflexivity|]. split; [reflexivity|].
  split.
  { intros n Hn. subst c. unfold configure. simpl.
    unfold AVIF_STRICT_CLAP_VALID, AVIF_STRICT_PIXI_REQUIRED. simpl.
    rewrite !Z.land_spec, !Z.lnot_spec, testbit_two, testbit_one by lia.
    destruct (n =? 0), (n =? 1), (Z.testbit (strictFlags native_create) n);
      reflexivity. }
  do 4 (split; [reflexivity|]).
  destruct (CreateDecoderAndParse_exact p buffer len threads w wr0 Hp)
    as (ok1 & w1 & h1 & Hrun1 & Hwr & _ & _ & Hnone & Hsome).
  rewrite Hrun in Hrun1. injection Hrun1 as <- <-.
  rewrite Hwr, lookup_insert_eq in Hp'. injection Hp' as <-.
  destruct (hd true (alloc_plan w)).
  - destruct (Hsome eq_refl) as (_ & _ & Hdec).
    rewrite Hdec. apply lookup_insert_eq.
  - destruct (Hnone eq_refl) as [? _]. contradiction.
Qed.

(** X4: [CreateDecoderAndParse] returns true exactly when the decoder was
    created and both the bind and the parse returned AVIF_RESULT_OK.  It
    creates one decoder at most, logs nothing on success, and on failure
    logs exactly one line, that of the first step that failed. *)
Theorem CreateDecoderAndParse_diagnostics p buffer len threads w wr0 :
  wrappers w !! p = Some wr0 ->
  let created := hd true (alloc_plan w) in
  let io := native_set_io_memory (configure threads native_create) buffer len in
  let parsed := native_parse (snd io) in
  exists ok w' h,
    CreateDecoderAndParse p buffer len threads w = Some (ok, w') /\
    (ok = true <->
     created = true /\ fst io = AVIF_RESULT_OK /\ fst parsed = AVIF_RESULT_OK) /\
    trace w' = trace w ++
      EvDecoderCreate h :: parse_diagnostics created (fst io) (fst parsed) /\
    (ok = true -> trace w' = trace w ++ [EvDecoderCreate h]) /\
    (ok = false ->
     exists fmt args, trace w' = trace w ++ [EvDecoderCreate h; EvLOGE fmt args]).
Proof.
  intros Hp created io parsed.
  destruct (CreateDecoderAndParse_exact p buffer len threads w wr0 Hp)
    as (ok & w' & h & Hrun & _ & Hok & Htr & _).
  fold created io parsed in Hok, Htr.
  exists ok, w', h. split; [exact Hrun|]. split; [|split; [exact Htr|]].
  - rewrite Hok, !andb_true_iff. split.
    + intros [[Hc Hio] Hparsed]. auto using is_ok_true.
    + intros (-> & -> & ->). auto.
  - rewrite Htr. unfold parse_diagnostics. clear Htr. subst ok.
    destruct created, (is_ok (fst io)), (is_ok (fst parsed)); simpl;
      split; intros Heq; try discriminate; eauto.
Qed.

(** ** [getInfo] *)

Lemma getInfo_spec encoded len info w :
  let po := parse_outcome (buffers w !! encoded) len 1 in
  let ok := hd true (alloc_plan w) && is_ok (fst po) in
  exists w' h evs,
    getInfo encoded len info w = Some (ok, w') /\
    decoders w' = decoders w /\ wrappers w' = wrappers w /\
    bitmaps w' = bitmaps w /\ buffers w' = buffers w /\
    alloc_plan w' = tail (alloc_plan w) /\
    fields w' = (if ok then info_fields info (snd po) (fields w) else fields w) /\
    trace w' = trace w ++ EvDecoderCreate h :: evs ++
                 (if h =? 0 then [] else [EvDecoderDestroy h]) /\
    Forall (fun e => exists fmt args, e = EvLOGE fmt args) evs.
Proof.
  intros po ok. unfold getInfo.
  unfold GetDirectBufferAddress, place_wrapper, bind at 1 2. simpl.
  destruct (fresh_address_spec (wrappers w)) as [Hpnz Hpfree].
  set (p := fresh_address (wrappers w)) in *.
  set (w1 := set_wrappers _ w).
  assert (Hp1 : wrappers w1 !! p = Some {| decoder := 0 |})
    by (simpl; apply lookup_insert_eq).
  destruct (CreateDecoderAndParse_spec p (buffers w !! encoded) len 1 w1 _ Hp1)
    as (ok' & w2 & h & evs & Hrun & Hwr & Hbm & Hbuf & Hfl & Hplan & Htr & Hlog & Hcase).
  rewrite (bind_run _ _ _ _ _ Hrun).
  assert (Hp2 : wrappers w2 !! p = Some {| decoder := h |})
    by (rewrite Hwr; apply lookup_insert_eq).
  assert (Hback : delete p (wrappers w2) = wrappers w).
  { rewrite Hwr. simpl. rewrite delete_insert_eq. now apply delete_insert_id. }
  simpl in Hbm, Hbuf, Hfl, Hplan, Htr.
  destruct Hcase as [(-> & -> & Hdec & Hhd) | (Hnz & Hfree & Hhd & Hdec & Hok)];
    simpl in Hhd, Hdec; subst ok; rewrite Hhd.
  - simpl. unfold leave_scope.
    destruct (teardown_run p 0 w2 Hp2 (or_introl eq_refl))
      as (w3 & Hrun3 & Hwr3 & Hdec3 & Hbm3 & Hbuf3 & Hfl3 & Hplan3 & Htr3).
    rewrite (bind_run _ _ _ _ _ Hrun3).
    exists w3, 0, evs. split; [reflexivity|]. simpl in *.
    rewrite Hwr3, Hdec3, Hbm3, Hbuf3, Hfl3, Hplan3, Htr3, Hback, Hdec, Hbm, Hbuf,
      Hfl, Hplan, Htr, !app_nil_r.
    auto 10.
  - simpl in Hfree. fold po in Hok, Hdec. simpl. rewrite <- Hok.
    assert (Hd2 : decoders w2 !! h = Some (snd po))
      by (rewrite Hdec; apply lookup_insert_eq).
    assert (Hh0 : (h =? 0) = false) by now apply Z.eqb_neq.
    destruct ok'; simpl.
    + rewrite (bind_run _ _ _ _ _ (wrapped_decoder_run _ _ _ _ Hp2 Hd2)).
      unfold SetIntField, SetBooleanField.
      do 4 (erewrite bind_run by reflexivity).
      match goal with
      | |- exists w' h evs, bind _ _ ?W = _ /\ _ =>
          set (w3 := W);
          assert (Hw3 : decoders w3 = decoders w2 /\ wrappers w3 = wrappers w2 /\
                        bitmaps w3 = bitmaps w2 /\ buffers w3 = buffers w2 /\
                        fields w3 = info_fields info (snd po) (fields w2) /\
                        alloc_plan w3 = alloc_plan w2 /\ trace w3 = trace w2)
            by (repeat split; reflexivity);
          clearbody w3
      end.
      destruct Hw3 as (Hdec3 & Hwr3 & Hbm3 & Hbuf3 & Hfl3 & Hplan3 & Htr3).
      assert (Hp3 : wrappers w3 !! p = Some {| decoder := h |}) by now rewrite Hwr3.
      assert (Hd3 : h = 0 \/ is_Some (decoders w3 !! h))
        by (right; rewrite Hdec3; eauto).
      unfold leave_scope.
      destruct (teardown_run p h w3 Hp3 Hd3)
        as (w4 & Hrun4 & Hwr4 & Hdec4 & Hbm4 & Hbuf4 & Hfl4 & Hplan4 & Htr4).
      rewrite (bind_run _ _ _ _ _ Hrun4).
      exists w4, h, evs. split; [reflexivity|].
      rewrite Hwr4, Hdec4, Hbm4, Hbuf4, Hfl4, Hplan4, Htr4, Hwr3, Hdec3, Hbm3,
        Hbuf3, Hfl3, Hplan3, Htr3, Hback, Hdec, Hbm, Hbuf, Hfl, Hplan, Htr, Hh0.
      rewrite (delete_insert_id _ _ _ Hfree).
      repeat split; try reflexivity; try assumption.
      rewrite <- !app_assoc. reflexivity.
    + assert (Hd2' : h = 0 \/ is_Some (decoders w2 !! h)) by (right; eauto).
      unfold leave_scope.
      destruct (teardown_run p h w2 Hp2 Hd2')
        as (w3 & Hrun3 & Hwr3 & Hdec3 & Hbm3 & Hbuf3 & Hfl3 & Hplan3 & Htr3).
      rewrite (bind_run _ _ _ _ _ Hrun3).
      exists w3, h, evs. split; [reflexivity|].
      rewrite Hwr3, Hdec3, Hbm3, Hbuf3, Hfl3, Hplan3, Htr3, Hback, Hdec, Hbm,
        Hbuf, Hfl, Hplan, Htr, Hh0.
      rewrite (delete_insert_id _ _ _ Hfree).
      repeat split; try reflexivity; try assumption.
      rewrite <- !app_assoc. reflexivity.
Qed.

(** X1: [getInfo] always returns, and what it allocates it releases: the
    stores of native decoders and of wrappers, and every bitmap, are
    afterwards what they were before, on success and on each failure.  All
    it does towards the native library is to create one decoder (when that
    can be allocated) and, last, destroy it; no frame is decoded into any
    target. *)
Theorem getInfo_releases_decoder encoded len info w :
  exists ok w' h evs,
    getInfo encoded len info w = Some (ok, w') /\
    decoders w' = decoders w /\ wrappers w' = wrappers w /\
    bitmaps w' = bitmaps w /\
    trace w' = trace w ++ EvDecoderCreate h :: evs ++
                 (if h =? 0 then [] else [EvDecoderDestroy h]) /\
    Forall (fun e => exists fmt args, e = EvLOGE fmt args) evs.
Proof.
  destruct (getInfo_spec encoded len info w)
    as (w' & h & evs & Hrun & Hdec & Hwr & Hbm & _ & _ & _ & Htr & Hlog).
  eexists _, w', h, evs. eauto 10.
Qed.

Lemma info_fields_lookup info d f :
  let m := info_fields info d f in
  m !! (info, "width") = Some (JInt (jint_of_uint32 (width (image d)))) /\
  m !! (info, "height") = Some (JInt (jint_of_uint32 (height (image d)))) /\
  m !! (info, "depth") = Some (JInt (jint_of_uint32 (depth (image d)))) /\
  m !! (info, "alphaPresent") = Some (JBoolean (alphaPresent d)) /\
  forall obj name,
    obj <> info \/
    (name <> "width" /\ name <> "height" /\ name <> "depth" /\
     name <> "alphaPresent") ->
    m !! (obj, name) = f !! (obj, name).
Proof.
  unfold info_fields. repeat split.
  - now rewrite !lookup_insert_ne, lookup_insert_eq by (intros [=]).
  - now rewrite !lookup_insert_ne, lookup_insert_eq by (intros [=]).
  - now rewrite !lookup_insert_ne, lookup_insert_eq by (intros [=]).
  - now rewrite lookup_insert_eq.
  - intros obj name Hother.
    rewrite !lookup_insert_ne; [reflexivity | | | |];
      intros [= <- <-]; destruct Hother as [?|(? & ? & ? & ?)]; contradiction.
Qed.

(** X2: [getInfo] parses with one thread, whatever the number of cores,
    and is all or nothing on [info]: it returns true exactly when the
    decoder could be allocated and bind and parse succeeded, and then
    width, height, depth and alphaPresent hold the values of the parsed
    decoder and no other field of any object has changed; when it returns
    false no field has changed at all. *)
Theorem getInfo_all_or_nothing encoded len info w :
  let po := parse_outcome (buffers w !! encoded) len 1 in
  let d := snd po in
  exists ok w',
    getInfo encoded len info w = Some (ok, w') /\
    (ok = true <-> hd true (alloc_plan w) = true /\ fst po = AVIF_RESULT_OK) /\
    (ok = true ->
     fields w' !! (info, "width") = Some (JInt (jint_of_uint32 (width (image d)))) /\
     fields w' !! (info, "height") = Some (JInt (jint_of_uint32 (height (image d)))) /\
     fields w' !! (info, "depth") = Some (JInt (jint_of_uint32 (depth (image d)))) /\
     fields w' !! (info, "alphaPresent") = Some (JBoolean (alphaPresent d)) /\
     forall obj name,
       obj <> info \/
       (name <> "width" /\ name <> "height" /\ name <> "depth" /\
        name <> "alphaPresent") ->
       fields w' !! (obj, name) = fields w !! (obj, name)) /\
    (ok = false -> fields w' = fields w).
Proof.
  intros po d.
  destruct (getInfo_spec encoded len info w)
    as (w' & h & evs & Hrun & _ & _ & _ & _ & _ & Hfl & _).
  fold po in Hrun, Hfl. fold d in Hfl.
  eexists _, w'. split; [exact Hrun|].
  split; [|split].
  - rewrite andb_true_iff. split.
    + intros [Hc Hok]. auto using is_ok_true.
    + intros [-> ->]. auto.
  - intros Hok. rewrite Hok in Hfl. rewrite Hfl.
    apply info_fields_lookup.
  - intros Hok. now rewrite Hok in Hfl.
Qed.

(** ** [AvifImageToBitmap]: what happens to the targets *)

Lemma AvifImageToBitmap_outcome_bitmaps d bitmap w k :
  let w' := snd (AvifImageToBitmap_outcome d bitmap w) in
  match bitmaps w !! k with
  | None => bitmaps w' !! k = None
  | Some b =>
      exists b',
        bitmaps w' !! k = Some b' /\ bitmap_info b' = bitmap_info b /\
        lockable b' = lockable b /\ locks b' = locks b /\
        (k <> bitmap -> b' = b)
  end.
Proof.
  unfold AvifImageToBitmap_outcome.
  assert (Hsame : match bitmaps w !! k with
                  | None => bitmaps w !! k = None
                  | Some b =>
                      exists b', bitmaps w !! k = Some b' /\
                        bitmap_info b' = bitmap_info b /\
                        lockable b' = lockable b /\ locks b' = locks b /\
                        (k <> bitmap -> b' = b)
                  end).
  { destruct (bitmaps w !! k) as [b|]; eauto 10. }
  destruct (bitmaps w !! bitmap) as [b|] eqn:Hb; [|exact Hsame].
  destruct (too_small _ _); [exact Hsame|].
  destruct (supported_format _); simpl; [|exact Hsame].
  destruct (lockable b) eqn:Hlock; simpl; [|exact Hsame].
  assert (Hconv : match bitmaps w !! k with
    | None =>
        <[bitmap := set_bitmap_pixels
            (snd (native_yuv_to_rgb (image d)
                    (rgb_image_for (image d) (bitmap_info b) (bitmap_pixels b)))) b]>
          (bitmaps w) !! k = None
    | Some b0 =>
        exists b',
          <[bitmap := set_bitmap_pixels
              (snd (native_yuv_to_rgb (image d)
                      (rgb_image_for (image d) (bitmap_info b) (bitmap_pixels b)))) b]>
            (bitmaps w) !! k = Some b' /\
          bitmap_info b' = bitmap_info b0 /\ lockable b' = lockable b0 /\
          locks b' = locks b0 /\ (k <> bitmap -> b' = b0)
    end).
  { destruct (decide (bitmap = k)) as [<-|Hne].
    - rewrite Hb, lookup_insert_eq. eexists. split; [reflexivity|].
      simpl. repeat split; try reflexivity. intros Hk. now contradiction Hk.
    - rewrite lookup_insert_ne by exact Hne.
      destruct (bitmaps w !! k) as [b0|]; eauto 10. }
  destruct (is_ok _); exact Hconv.
Qed.

(** X5: whatever [AvifImageToBitmap] returns, no bitmap appears or
    disappears, every bitmap keeps its info and its lock count (the lock
    taken for the conversion is released, also when the conversion fails),
    no bitmap other than the target is written, and the decoders, the
    wrappers and the Java fields are untouched. *)
Theorem AvifImageToBitmap_keeps_locks p bitmap w res w' :
  AvifImageToBitmap p bitmap w = Some (res, w') ->
  decoders w' = decoders w /\ wrappers w' = wrappers w /\
  fields w' = fields w /\
  forall k,
    match bitmaps w !! k with
    | None => bitmaps w' !! k = None
    | Some b =>
        exists b',
          bitmaps w' !! k = Some b' /\ bitmap_info b' = bitmap_info b /\
          lockable b' = lockable b /\ locks b' = locks b /\
          (k <> bitmap -> b' = b)
    end.
Proof.
  intros Hrun.
  destruct (AvifImageToBitmap_inv _ _ _ _ _ Hrun) as [Hnone | (wr & d & Hp & Hd & Hout)].
  - revert Hrun. unfold AvifImageToBitmap, AndroidBitmap_getInfo, bind.
    rewrite Hnone. simpl. intros [= <- <-]. simpl.
    repeat split. intros k. destruct (bitmaps w !! k); eauto 10.
  - pose proof (AvifImageToBitmap_outcome_frame d bitmap w) as Hframe.
    rewrite Hout in Hframe. simpl in Hframe.
    destruct Hframe as (Hdec & Hwr & _ & Hfl & _).
    repeat split; try assumption.
    intros k. pose proof (AvifImageToBitmap_outcome_bitmaps d bitmap w k) as Hk.
    now rewrite Hout in Hk.
Qed.

(** X6: a target that cannot be used.  For an object that is not a bitmap
    [AvifImageToBitmap] returns AVIF_RESULT_UNKNOWN_ERROR with the line
    "AndroidBitmap_getInfo failed." before it looks at the decoder, so for
    any wrapper address.  For a bitmap of sufficient size and supported
    format that cannot be locked it returns the same code with the line
    "Failed to lock Bitmap."; in both cases nothing but the log changes and
    no conversion is attempted. *)
Theorem AvifImageToBitmap_unusable_target :
  (forall p bitmap w,
     bitmaps w !! bitmap = None ->
     AvifImageToBitmap p bitmap w
     = Some (AVIF_RESULT_UNKNOWN_ERROR,
             emit (EvLOGE "AndroidBitmap_getInfo failed." []) w)) /\
  (forall p bitmap w wr d b,
     wrappers w !! p = Some wr -> decoders w !! decoder wr = Some d ->
     bitmaps w !! bitmap = Some b ->
     width (image d) <= bitmap_width (bitmap_info b) ->
     height (image d) <= bitmap_height (bitmap_info b) ->
     supported_format (bitmap_format (bitmap_info b)) = true ->
     lockable b = false ->
     AvifImageToBitmap p bitmap w
     = Some (AVIF_RESULT_UNKNOWN_ERROR, emit (EvLOGE "Failed to lock Bitmap." []) w)).
Proof.
  split.
  - intros p bitmap w Hnone.
    unfold AvifImageToBitmap, AndroidBitmap_getInfo, bind. now rewrite Hnone.
  - intros p bitmap w wr d b Hp Hd Hb Hw Hh Hfmt Hlock.
    rewrite (AvifImageToBitmap_run _ _ _ _ _ Hp Hd).
    unfold AvifImageToBitmap_outcome, too_small. rewrite Hb, Hfmt, Hlock.
    destruct (Z.ltb_spec (bitmap_width (bitmap_info b)) (width (image d))); [lia|].
    destruct (Z.ltb_spec (bitmap_height (bitmap_info b)) (height (image d))); [lia|].
    reflexivity.
Qed.

(** X7: on a live session [AvifImageToBitmap] returns AVIF_RESULT_OK
    exactly when the target is a bitmap at least as large as the image, of
    a supported format, that can be locked, and the native conversion
    returns AVIF_RESULT_OK.  When the target passes the checks and the
    native conversion fails, the result is the native code; the conversion
    and then the line "Failed to convert YUV Pixels to RGB" are the whole
    trace, and the target holds whatever the conversion left in it. *)
Theorem AvifImageToBitmap_result p bitmap w wr d :
  wrappers w !! p = Some wr -> decoders w !! decoder wr = Some d ->
  exists res w',
    AvifImageToBitmap p bitmap w = Some (res, w') /\
    (res = AVIF_RESULT_OK <->
     exists b,
       bitmaps w !! bitmap = Some b /\
       width (image d) <= bitmap_width (bitmap_info b) /\
       height (image d) <= bitmap_height (bitmap_info b) /\
       supported_format (bitmap_format (bitmap_info b)) = true /\
       lockable b = true /\
       fst (native_yuv_to_rgb (image d)
              (rgb_image_for (image d) (bitmap_info b) (bitmap_pixels b)))
       = AVIF_RESULT_OK) /\
    (forall b,
       bitmaps w !! bitmap = Some b ->
       width (image d) <= bitmap_width (bitmap_info b) ->
       height (image d) <= bitmap_height (bitmap_info b) ->
       supported_format (bitmap_format (bitmap_info b)) = true ->
       lockable b = true ->
       let rgb := rgb_image_for (image d) (bitmap_info b) (bitmap_pixels b) in
       fst (native_yuv_to_rgb (image d) rgb) <> AVIF_RESULT_OK ->
       res = fst (native_yuv_to_rgb (image d) rgb) /\
       trace w' = trace w ++
         [EvYUVToRGB (image d) rgb;
          EvLOGE "Failed to convert YUV Pixels to RGB. Status: %d" [ArgResult res]] /\
       bitmaps w' !! bitmap
       = Some (set_bitmap_pixels (snd (native_yuv_to_rgb (image d) rgb)) b)).
Proof.
  intros Hp Hd. rewrite (AvifImageToBitmap_run _ _ _ _ _ Hp Hd).
  destruct (AvifImageToBitmap_outcome d bitmap w) as [res w'] eqn:Hout.
  exists res, w'. split; [reflexivity|].
  revert Hout. unfold AvifImageToBitmap_outcome, too_small.
  destruct (bitmaps w !! bitmap) as [b|] eqn:Hb.
  2:{ intros [= <- <-]. split; [|discriminate].
      split; [discriminate | intros (b & ? & _); discriminate]. }
  destruct (Z.ltb_spec (bitmap_width (bitmap_info b)) (width (image d))) as [Hw|Hw];
    simpl.
  { intros [= <- <-]. split.
    - split; [discriminate | intros (b' & [= <-] & ? & _); lia].
    - intros b' [= <-]. lia. }
  destruct (Z.ltb_spec (bitmap_height (bitmap_info b)) (height (image d))) as [Hh|Hh];
    simpl.
  { intros [= <- <-]. split.
    - split; [discriminate | intros (b' & [= <-] & _ & ? & _); lia].
    - intros b' [= <-]. lia. }
  destruct (supported_format _) eqn:Hfmt; simpl.
  2:{ intros [= <- <-]. split.
      - split; [discriminate | intros (b' & [= <-] & _ & _ & ? & _); congruence].
      - intros b' [= <-]. congruence. }
  destruct (lockable b) eqn:Hlock; simpl.
  2:{ intros [= <- <-]. split.
      - split; [discriminate | intros (b' & [= <-] & _ & _ & _ & ? & _); congruence].
      - intros b' [= <-]. congruence. }
  destruct (native_yuv_to_rgb _ _) as [r px] eqn:Hconv. simpl.
  destruct (is_ok r) eqn:Hr; intros [= <- <-].
  - apply is_ok_true in Hr. subst r. split.
    + split; [|reflexivity]. intros _. exists b. rewrite Hconv. auto 10.
    + intros b' [= <-] _ _ _ _. rewrite Hconv. simpl. intros Hne. now contradiction Hne.
  - split.
    + split.
      * intros ->. discriminate.
      * intros (b' & [= <-] & _ & _ & _ & _ & Hok). rewrite Hconv in Hok.
        simpl in Hok. subst r. discriminate.
    + intros b' [= <-] _ _ _ _. rewrite Hconv. simpl. intros _.
      rewrite lookup_insert_eq, <- app_assoc. auto.
Qed.

(** ** [nextFrame] and [nthFrame] on a live session *)

Lemma Decode_image_exact (native : avifDecoder -> avifResult * avifDecoder)
    p bitmap w wr d :
  wrappers w !! p = Some wr -> decoders w !! decoder wr = Some d ->
  let w0 := set_decoders (<[decoder wr := snd (native d)]> (decoders w)) w in
  (wr <- load_wrapper p ;;
   res <- (d0 <- load_decoder (decoder wr) ;;
           let '(res, d') := native d0 in store_decoder (decoder wr) d' ;;; ret res) ;;
   if negb (is_ok res) then
     LOGE "Failed to decode AVIF image. Status: %d" [ArgResult res] ;;; ret res
   else AvifImageToBitmap p bitmap) w
  = Some (if is_ok (fst (native d))
          then AvifImageToBitmap_outcome (snd (native d)) bitmap w0
          else (fst (native d),
                emit (EvLOGE "Failed to decode AVIF image. Status: %d"
                        [ArgResult (fst (native d))]) w0)).
Proof.
  intros Hp Hd w0.
  rewrite (bind_run _ _ _ _ _ (load_wrapper_run _ _ _ Hp)).
  rewrite (bind_run _ _ _ _ _ (native_call_run native _ _ _ Hd)).
  destruct (is_ok (fst (native d))); simpl; [|reflexivity].
  apply AvifImageToBitmap_run with wr; [exact Hp | simpl; apply lookup_insert_eq].
Qed.

Lemma nextFrame_exact jdecoder bitmap w wr d :
  wrappers w !! jdecoder = Some wr -> decoders w !! decoder wr = Some d ->
  let next := native_next_image d in
  let w0 := set_decoders (<[decoder wr := snd next]> (decoders w)) w in
  nextFrame jdecoder bitmap w
  = Some (if is_ok (fst next)
          then AvifImageToBitmap_outcome (snd next) bitmap w0
          else (fst next,
                emit (EvLOGE "Failed to decode AVIF image. Status: %d"
                        [ArgResult (fst next)]) w0)).
Proof.
  intros Hp Hd. exact (Decode_image_exact native_next_image _ _ _ _ _ Hp Hd).
Qed.

Lemma nthFrame_exact jdecoder n bitmap w wr d :
  wrappers w !! jdecoder = Some wr -> decoders w !! decoder wr = Some d ->
  let nth := native_nth_image d (uint32_of_jint n) in
  let w0 := set_decoders (<[decoder wr := snd nth]> (decoders w)) w in
  nthFrame jdecoder n bitmap w
  = Some (if is_ok (fst nth)
          then AvifImageToBitmap_outcome (snd nth) bitmap w0
          else (fst nth,
                emit (EvLOGE "Failed to decode AVIF image. Status: %d"
                        [ArgResult (fst nth)]) w0)).
Proof.
  intros Hp Hd.
  exact (Decode_image_exact (fun d => native_nth_image d (uint32_of_jint n))
           _ _ _ _ _ Hp Hd).
Qed.

(** What a frame call leaves of the session and of the rest. *)
Lemma frame_step_frame (native : avifDecoder -> avifResult * avifDecoder)
    bitmap w h d res w' :
  (if is_ok (fst (native d))
   then AvifImageToBitmap_outcome (snd (native d)) bitmap
          (set_decoders (<[h := snd (native d)]> (decoders w)) w)
   else (fst (native d),
         emit (EvLOGE "Failed to decode AVIF image. Status: %d"
                 [ArgResult (fst (native d))])
           (set_decoders (<[h := snd (native d)]> (decoders w)) w)))
  = (res, w') ->
  decoders w' = <[h := snd (native d)]> (decoders w) /\
  wrappers w' = wrappers w /\ buffers w' = buffers w /\
  fields w' = fields w /\ alloc_plan w' = alloc_plan w /\
  (is_ok (fst (native d)) = false -> res = fst (native d) /\ bitmaps w' = bitmaps w) /\
  (res = AVIF_RESULT_OK -> fst (native d) = AVIF_RESULT_OK).
Proof.
  destruct (is_ok (fst (native d))) eqn:Hok.
  - intros Hout.
    pose proof (AvifImageToBitmap_outcome_frame (snd (native d)) bitmap
                  (set_decoders (<[h := snd (native d)]> (decoders w)) w)) as Hframe.
    rewrite Hout in Hframe. simpl in Hframe.
    destruct Hframe as (Hdec & Hwr & Hbuf & Hfl & Hplan).
    repeat split; try assumption; try discriminate.
    intros _. now apply is_ok_true.
  - intros [= <- <-]. simpl. repeat split.
    intros Heq. rewrite Heq in Hok. discriminate.
Qed.

(** X8: when the native decode step fails, [nextFrame] and [nthFrame]
    return the native code unchanged, log "Failed to decode AVIF image" and
    never reach the target: no bitmap is read, locked or written.  The
    session is still there afterwards, its decoder in the state the failed
    native call left. *)
Theorem frame_decode_failure jdecoder bitmap w h d :
  wrappers w !! jdecoder = Some {| decoder := h |} ->
  decoders w !! h = Some d ->
  (forall res d',
     native_next_image d = (res, d') -> res <> AVIF_RESULT_OK ->
     exists w',
       nextFrame jdecoder bitmap w = Some (res, w') /\
       bitmaps w' = bitmaps w /\
       trace w' = trace w ++
         [EvLOGE "Failed to decode AVIF image. Status: %d" [ArgResult res]] /\
       wrappers w' !! jdecoder = Some {| decoder := h |} /\
       decoders w' !! h = Some d') /\
  (forall n res d',
     native_nth_image d (uint32_of_jint n) = (res, d') -> res <> AVIF_RESULT_OK ->
     exists w',
       nthFrame jdecoder n bitmap w = Some (res, w') /\
       bitmaps w' = bitmaps w /\
       trace w' = trace w ++
         [EvLOGE "Failed to decode AVIF image. Status: %d" [ArgResult res]] /\
       wrappers w' !! jdecoder = Some {| decoder := h |} /\
       decoders w' !! h = Some d').
Proof.
  intros Hp Hd. split.
  - intros res d' Hnext Hres.
    rewrite (nextFrame_exact _ bitmap _ _ _ Hp Hd). rewrite Hnext. simpl.
    assert (Hok : is_ok res = false) by (destruct res; try reflexivity; congruence).
    rewrite Hok. eexists. split; [reflexivity|]. simpl.
    rewrite lookup_insert_eq. auto.
  - intros n res d' Hnth Hres.
    rewrite (nthFrame_exact _ n bitmap _ _ _ Hp Hd). rewrite Hnth. simpl.
    assert (Hok : is_ok res = false) by (destruct res; try reflexivity; congruence).
    rewrite Hok. eexists. split; [reflexivity|]. simpl.
    rewrite lookup_insert_eq. auto.
Qed.

(** X9: [nextFrame] decodes before it looks at the target.  On a live
    session it always returns and leaves the decoder in the state the
    native step produced, whatever the target is; so when the step
    succeeded and the target is then refused for its size (measured
    against the new frame), the call fails with AVIF_RESULT_UNKNOWN_ERROR,
    no bitmap is touched, and the frame is consumed all the same:
    [nextFrameIndex] has moved on to the new frame. *)
Theorem nextFrame_commits_decode jdecoder bitmap w h d :
  wrappers w !! jdecoder = Some {| decoder := h |} ->
  decoders w !! h = Some d ->
  let d' := snd (native_next_image d) in
  exists res w',
    nextFrame jdecoder bitmap w = Some (res, w') /\
    wrappers w' = wrappers w /\
    decoders w' = <[h := d']> (decoders w) /\
    fields w' = fields w /\
    (fst (native_next_image d) = AVIF_RESULT_OK ->
     forall b,
       bitmaps w !! bitmap = Some b ->
       bitmap_width (bitmap_info b) < width (image d') \/
       bitmap_height (bitmap_info b) < height (image d') ->
       res = AVIF_RESULT_UNKNOWN_ERROR /\ bitmaps w' = bitmaps w /\
       nextFrameIndex jdecoder w' = Some (imageIndex d' + 1, w')).
Proof.
  intros Hp Hd d'.
  rewrite (nextFrame_exact _ bitmap _ _ _ Hp Hd). simpl.
  match goal with
  | |- exists res w', Some ?X = _ /\ _ => destruct X as [res w'] eqn:Hstep
  end.
  exists res, w'. split; [reflexivity|].
  destruct (frame_step_frame native_next_image _ _ _ _ _ _ Hstep)
    as (Hdec & Hwr & _ & Hfl & _).
  do 3 (split; [assumption|]).
  intros Hok b Hb Hsmall. rewrite Hok in Hstep. simpl in Hstep.
  revert Hstep. unfold AvifImageToBitmap_outcome. simpl. rewrite Hb.
  assert (Hts : too_small (bitmap_info b) (image d') = true).
  { unfold too_small. apply orb_true_iff.
    destruct Hsmall; [left | right]; now apply Z.ltb_lt. }
  fold d'. rewrite Hts. intros [= <- <-]. simpl.
  split; [reflexivity|]. split; [reflexivity|].
  unfold nextFrameIndex.
  erewrite bind_run; [reflexivity|].
  apply wrapped_decoder_run with {| decoder := h |}; simpl;
    [exact Hp | apply lookup_insert_eq].
Qed.

(** ** Sessions over their lifetime *)

Lemma createDecoder_session thiz encoded len threads w jdecoder w1 :
  createDecoder thiz encoded len threads w = Some (jdecoder, w1) ->
  jdecoder <> 0 ->
  let po := parse_outcome (buffers w !! encoded) len (getThreadCount threads) in
  exists h,
    h <> 0 /\ wrappers w !! jdecoder = None /\ decoders w !! h = None /\
    wrappers w1 = <[jdecoder := {| decoder := h |}]> (wrappers w) /\
    decoders w1 = <[h := snd po]> (decoders w) /\
    bitmaps w1 = bitmaps w /\ buffers w1 = buffers w /\
    is_ok (fst po) = true /\ hd true (alloc_plan w) = true /\ 0 <= threads.
Proof.
  intros Hcreate Hnz po.
  destruct (Z.ltb_spec threads 0) as [Hneg|Hge].
  { exfalso. revert Hcreate. unfold createDecoder.
    apply Z.ltb_lt in Hneg. rewrite Hneg. intros [= <- _]. now apply Hnz. }
  destruct (createDecoder_spec thiz encoded len threads w Hge)
    as (r & w' & Hrun & Hbm & Hbuf & Hcase).
  rewrite Hcreate in Hrun. injection Hrun as <- <-.
  destruct Hcase as [(_ & ? & _) | (Hhd & h & evs & _ & Hcase)]; [contradiction|].
  destruct Hcase as [(? & _)|[(? & _)
    |(_ & Hjfree & Hhnz & Hhfree & Hwr & Hdec & _ & Hok & _)]];
    [contradiction | contradiction |].
  exists h. auto 12.
Qed.

Lemma frame_call_live jdecoder c w h d :
  wrappers w !! jdecoder = Some {| decoder := h |} ->
  decoders w !! h = Some d ->
  exists w' d',
    frame_call jdecoder c w = Some (tt, w') /\
    wrappers w' = wrappers w /\ decoders w' = <[h := d']> (decoders w) /\
    buffers w' = buffers w /\ fields w' = fields w.
Proof.
  intros Hp Hd. destruct c as [bitmap|n bitmap|]; simpl.
  - rewrite (bind_run _ _ _ _ _
               (eq_trans (nextFrame_exact _ bitmap _ _ _ Hp Hd)
                         (f_equal Some (surjective_pairing _)))).
    match goal with
    | |- exists w' d', ret tt (snd ?X) = _ /\ _ => destruct X as [res w'] eqn:Hstep
    end.
    destruct (frame_step_frame native_next_image _ _ _ _ _ _ Hstep)
      as (Hdec & Hwr & Hbuf & Hfl & _).
    exists w', (snd (native_next_image d)). auto.
  - rewrite (bind_run _ _ _ _ _
               (eq_trans (nthFrame_exact _ n bitmap _ _ _ Hp Hd)
                         (f_equal Some (surjective_pairing _)))).
    match goal with
    | |- exists w' d', ret tt (snd ?X) = _ /\ _ => destruct X as [res w'] eqn:Hstep
    end.
    destruct (frame_step_frame (fun d => native_nth_image d (uint32_of_jint n))
                _ _ _ _ _ _ Hstep)
      as (Hdec & Hwr & Hbuf & Hfl & _).
    exists w', (snd (native_nth_image d (uint32_of_jint n))). auto.
  - unfold nextFrameIndex.
    rewrite bind_bind, (bind_run _ _ _ _ _ (wrapped_decoder_run _ _ _ _ Hp Hd)).
    exists w, d. split; [reflexivity|].
    rewrite (insert_id _ _ _ Hd). auto.
Qed.

Lemma frame_calls_live jdecoder cs : forall w h d,
  wrappers w !! jdecoder = Some {| decoder := h |} ->
  decoders w !! h = Some d ->
  exists w' d',
    frame_calls jdecoder cs w = Some (tt, w') /\
    wrappers w' = wrappers w /\ decoders w' = <[h := d']> (decoders w) /\
    buffers w' = buffers w /\ fields w' = fields w.
Proof.
  induction cs as [|c cs IH]; intros w h d Hp Hd; simpl.
  - exists w, d. split; [reflexivity|]. rewrite (insert_id _ _ _ Hd). auto.
  - destruct (frame_call_live jdecoder c w h d Hp Hd)
      as (w1 & d1 & Hrun1 & Hwr1 & Hdec1 & Hbuf1 & Hfl1).
    rewrite (bind_run _ _ _ _ _ Hrun1).
    assert (Hp1 : wrappers w1 !! jdecoder = Some {| decoder := h |})
      by now rewrite Hwr1.
    assert (Hd1 : decoders w1 !! h = Some d1)
      by (rewrite Hdec1; apply lookup_insert_eq).
    destruct (IH w1 h d1 Hp1 Hd1) as (w2 & d2 & Hrun2 & Hwr2 & Hdec2 & Hbuf2 & Hfl2).
    exists w2, d2. split; [exact Hrun2|].
    rewrite Hwr2, Hdec2, Hbuf2, Hfl2, Hwr1, Hdec1, Hbuf1, Hfl1, insert_insert_eq.
    auto.
Qed.

(** X10: a session used as intended never goes wrong and never leaks.
    After a successful [createDecoder], any sequence of [nextFrame],
    [nthFrame] and [nextFrameIndex] calls on the handle, whatever they
    return, runs without undefined behaviour and keeps the session alive;
    the [destroyDecoder] that follows returns, and the stores of native
    decoders and of wrappers are then exactly what they were before
    [createDecoder]. *)
Theorem session_lifecycle thiz encoded len threads w jdecoder w1 cs :
  createDecoder thiz encoded len threads w = Some (jdecoder, w1) ->
  jdecoder <> 0 ->
  exists w2 w3,
    frame_calls jdecoder cs w1 = Some (tt, w2) /\
    is_Some (wrappers w2 !! jdecoder) /\
    destroyDecoder jdecoder w2 = Some (tt, w3) /\
    decoders w3 = decoders w /\ wrappers w3 = wrappers w /\
    buffers w3 = buffers w.
Proof.
  intros Hcreate Hnz.
  destruct (createDecoder_session _ _ _ _ _ _ _ Hcreate Hnz)
    as (h & Hhnz & Hjfree & Hhfree & Hwr1 & Hdec1 & _ & Hbuf1 & _).
  assert (Hp1 : wrappers w1 !! jdecoder = Some {| decoder := h |})
    by (rewrite Hwr1; apply lookup_insert_eq).
  assert (Hd1 : decoders w1 !! h = Some _)
    by (rewrite Hdec1; apply lookup_insert_eq).
  destruct (frame_calls_live jdecoder cs w1 h _ Hp1 Hd1)
    as (w2 & d2 & Hrun2 & Hwr2 & Hdec2 & Hbuf2 & _).
  assert (Hp2 : wrappers w2 !! jdecoder = Some {| decoder := h |})
    by now rewrite Hwr2.
  assert (Hd2 : h = 0 \/ is_Some (decoders w2 !! h))
    by (right; rewrite Hdec2, lookup_insert_eq; eauto).
  destruct (teardown_run jdecoder h w2 Hp2 Hd2)
    as (w3 & Hrun3 & Hwr3 & Hdec3 & _ & Hbuf3 & _).
  exists w2, w3. split; [exact Hrun2|]. split; [eauto|].
  split.
  { unfold destroyDecoder, delete_AvifDecoderWrapper.
    destruct (Z.eqb_spec jdecoder 0) as [?|_]; [contradiction | exact Hrun3]. }
  rewrite Hdec3, Hwr3, Hbuf3, Hdec2, Hwr2, Hbuf2, Hdec1, Hwr1, Hbuf1.
  destruct (Z.eqb_spec h 0) as [?|_]; [contradiction|].
  rewrite insert_insert_eq, (delete_insert_id _ _ _ Hhfree),
    (delete_insert_id _ _ _ Hjfree).
  auto.
Qed.

Lemma nextFrames_cursor jdecoder h :
  cursor_law ->
  forall bitmaps_ w d results w',
    wrappers w !! jdecoder = Some {| decoder := h |} ->
    decoders w !! h = Some d ->
    nextFrames jdecoder bitmaps_ w = Some (results, w') ->
    Forall (eq AVIF_RESULT_OK) results ->
    exists d',
      wrappers w' !! jdecoder = Some {| decoder := h |} /\
      decoders w' !! h = Some d' /\
      imageIndex d' = imageIndex d + Z.of_nat (length bitmaps_).
Proof.
  intros [_ Hadvance].
  induction bitmaps_ as [|bitmap rest IH]; intros w d results w' Hp Hd Hrun Hall;
    simpl in Hrun.
  - injection Hrun as <- <-. exists d. simpl. rewrite Z.add_0_r. auto.
  - rewrite (bind_run _ _ _ _ _
               (eq_trans (nextFrame_exact _ bitmap _ _ _ Hp Hd)
                         (f_equal Some (surjective_pairing _)))) in Hrun.
    match type of Hrun with
    | context [bind _ _ (snd ?X)] => destruct X as [res w1] eqn:Hstep
    end.
    simpl in Hrun, Hstep.
    destruct (frame_step_frame native_next_image _ _ _ _ _ _ Hstep)
      as (Hdec & Hwr & _ & _ & _ & _ & Hnative).
    destruct (bind_inv _ _ _ _ _ Hrun) as (rs & w2 & Hrest & Hret).
    injection Hret as <- <-.
    apply Forall_cons in Hall. destruct Hall as [<- Hall].
    assert (Hp1 : wrappers w1 !! jdecoder = Some {| decoder := h |})
      by now rewrite Hwr.
    assert (Hd1 : decoders w1 !! h = Some (snd (native_next_image d)))
      by (rewrite Hdec; apply lookup_insert_eq).
    destruct (IH _ _ _ _ Hp1 Hd1 Hrest Hall) as (d' & Hp' & Hd' & Hindex).
    exists d'. split; [exact Hp'|]. split; [exact Hd'|].
    rewrite Hindex, (Hadvance d (snd (native_next_image d))).
    + simpl length. lia.
    + rewrite <- (Hnative eq_refl). apply surjective_pairing.
Qed.

(** X11: with the frame cursor of the data model, [nextFrameIndex] counts
    the frames decoded so far: after [createDecoder] and n calls of
    [nextFrame] that all returned AVIF_RESULT_OK it returns n (0 straight
    after [createDecoder]). *)
Theorem nextFrameIndex_after_nextFrames :
  cursor_law ->
  forall thiz encoded len threads w jdecoder w1 bitmaps_ results w2,
    createDecoder thiz encoded len threads w = Some (jdecoder, w1) ->
    jdecoder <> 0 ->
    nextFrames jdecoder bitmaps_ w1 = Some (results, w2) ->
    Forall (eq AVIF_RESULT_OK) results ->
    nextFrameIndex jdecoder w2 = Some (Z.of_nat (length bitmaps_), w2).
Proof.
  intros Hlaw thiz encoded len threads w j w1 bs rs w2 Hcreate Hnz Hrun Hall.
  destruct (createDecoder_session _ _ _ _ _ _ _ Hcreate Hnz)
    as (h & _ & _ & _ & Hwr1 & Hdec1 & _ & _ & Hok & _).
  assert (Hp1 : wrappers w1 !! j = Some {| decoder := h |})
    by (rewrite Hwr1; apply lookup_insert_eq).
  assert (Hd1 : decoders w1 !! h = Some _)
    by (rewrite Hdec1; apply lookup_insert_eq).
  destruct (nextFrames_cursor j h Hlaw _ _ _ _ _ Hp1 Hd1 Hrun Hall)
    as (d' & Hp2 & Hd2 & Hindex).
  unfold nextFrameIndex.
  rewrite (bind_run _ _ _ _ _ (wrapped_decoder_run _ _ _ _ Hp2 Hd2)).
  rewrite Hindex, (parse_outcome_cursor _ _ _ Hlaw Hok).
  unfold ret. do 2 f_equal. lia.
Qed.

(** ** [decode] against the session entry points *)

Lemma AvifImageToBitmap_outcome_local d bitmap w1 w2 :
  bitmaps w1 = bitmaps w2 ->
  fst (AvifImageToBitmap_outcome d bitmap w1)
  = fst (AvifImageToBitmap_outcome d bitmap w2) /\
  bitmaps (snd (AvifImageToBitmap_outcome d bitmap w1))
  = bitmaps (snd (AvifImageToBitmap_outcome d bitmap w2)).
Proof.
  intros Hbm. unfold AvifImageToBitmap_outcome. rewrite Hbm.
  repeat case_match; simpl; rewrite ?Hbm; auto.
Qed.

Lemma decode_exact encoded len bitmap threads w :
  0 <= threads ->
  let po := parse_outcome (buffers w !! encoded) len (getThreadCount threads) in
  let next := native_next_image (snd po) in
  let ready := hd true (alloc_plan w) && is_ok (fst po) && is_ok (fst next) in
  let converted := AvifImageToBitmap_outcome (snd next) bitmap w in
  exists w',
    decode encoded len bitmap threads w
    = Some (ready && is_ok (fst converted), w') /\
    bitmaps w' = (if ready then bitmaps (snd converted) else bitmaps w).
Proof.
  intros Hge po next ready converted. unfold decode.
  destruct (Z.ltb_spec threads 0) as [?|_]; [lia|].
  unfold GetDirectBufferAddress, place_wrapper, bind at 1 2. simpl.
  destruct (fresh_address_spec (wrappers w)) as [Hpnz Hpfree].
  set (p := fresh_address (wrappers w)) in *.
  set (w1 := set_wrappers _ w).
  assert (Hp1 : wrappers w1 !! p = Some {| decoder := 0 |})
    by (simpl; apply lookup_insert_eq).
  destruct (CreateDecoderAndParse_spec p (buffers w !! encoded) len
              (getThreadCount threads) w1 _ Hp1)
    as (ok & w2 & h & evs & Hrun & Hwr & Hbm & _ & _ & _ & _ & _ & Hcase).
  rewrite (bind_run _ _ _ _ _ Hrun).
  assert (Hp2 : wrappers w2 !! p = Some {| decoder := h |})
    by (rewrite Hwr; apply lookup_insert_eq).
  simpl in Hbm.
  destruct Hcase as [(-> & -> & Hdec & Hhd) | (Hnz & Hfree & Hhd & Hdec & Hok)];
    simpl in Hhd; subst ready; rewrite Hhd; simpl.
  - unfold leave_scope.
    destruct (teardown_run p 0 w2 Hp2 (or_introl eq_refl))
      as (w3 & Hrun3 & _ & _ & Hbm3 & _).
    rewrite (bind_run _ _ _ _ _ Hrun3).
    exists w3. split; [reflexivity|]. now rewrite Hbm3.
  - fold po in Hok, Hdec. rewrite <- Hok.
    assert (Hd2 : decoders w2 !! h = Some (snd po))
      by (rewrite Hdec; apply lookup_insert_eq).
    destruct ok; simpl.
    + pose proof (nextFrame_exact p bitmap w2 _ _ Hp2 Hd2) as Hnext.
      unfold nextFrame in Hnext. simpl in Hnext. fold next in Hnext.
      rewrite (bind_run _ _ _ _ _
                 (eq_trans Hnext (f_equal Some (surjective_pairing _)))).
      match goal with
      | |- context [ret (is_ok (fst ?X))] => destruct X as [res w3] eqn:Hstep
      end.
      destruct (frame_step_frame native_next_image _ _ _ _ _ _ Hstep)
        as (Hdec3 & Hwr3 & _ & _ & _ & Hfail & _).
      assert (Hp3 : wrappers w3 !! p = Some {| decoder := h |}) by now rewrite Hwr3.
      assert (Hd3 : h = 0 \/ is_Some (decoders w3 !! h)).
      { right. rewrite Hdec3, lookup_insert_eq. eauto. }
      unfold leave_scope.
      destruct (teardown_run p h w3 Hp3 Hd3)
        as (w4 & Hrun4 & _ & _ & Hbm4 & _).
      rewrite (bind_run _ _ _ _ _ Hrun4).
      exists w4. simpl. rewrite Hbm4.
      fold next in Hfail, Hstep.
      destruct (is_ok (fst next)) eqn:Hoknext; simpl.
      * destruct (AvifImageToBitmap_outcome_local (snd next) bitmap
                    (set_decoders (<[h := snd next]> (decoders w2)) w2) w)
          as [Hres Hpix]; [exact Hbm|].
        rewrite Hstep in Hres, Hpix. simpl in Hres, Hpix.
        subst converted. now rewrite Hres, Hpix.
      * destruct (Hfail eq_refl) as [-> ->]. now rewrite Hoknext, Hbm.
    + assert (Hd2' : h = 0 \/ is_Some (decoders w2 !! h)) by (right; eauto).
      unfold leave_scope.
      destruct (teardown_run p h w2 Hp2 Hd2')
        as (w3 & Hrun3 & _ & _ & Hbm3 & _).
      rewrite (bind_run _ _ _ _ _ Hrun3).
      exists w3. split; [reflexivity|]. now rewrite Hbm3, Hbm.
Qed.

(** X12: the verdict of [decode].  With a valid thread count it returns
    true exactly when every step succeeds: the native decoder is allocated,
    the input is bound and parsed, the native decoder yields the first
    frame, and that frame passes the target checks and the conversion.
    When one of the first three fails, no bitmap is touched; otherwise the
    bitmaps are what the conversion of the first frame into the target
    leaves. *)
Theorem decode_verdict encoded len bitmap threads w ok w' :
  0 <= threads ->
  decode encoded len bitmap threads w = Some (ok, w') ->
  let po := parse_outcome (buffers w !! encoded) len (getThreadCount threads) in
  let next := native_next_image (snd po) in
  let converted := AvifImageToBitmap_outcome (snd next) bitmap w in
  (ok = true <->
   hd true (alloc_plan w) = true /\ fst po = AVIF_RESULT_OK /\
   fst next = AVIF_RESULT_OK /\ fst converted = AVIF_RESULT_OK) /\
  (hd true (alloc_plan w) = false \/ fst po <> AVIF_RESULT_OK \/
   fst next <> AVIF_RESULT_OK ->
   bitmaps w' = bitmaps w) /\
  (hd true (alloc_plan w) = true -> fst po = AVIF_RESULT_OK ->
   fst next = AVIF_RESULT_OK ->
   bitmaps w' = bitmaps (snd converted)).
Proof.
  intros Hge Hrun po next converted.
  destruct (decode_exact encoded len bitmap threads w Hge) as (w0 & Hrun0 & Hbm).
  rewrite Hrun in Hrun0. injection Hrun0 as -> <-.
  fold po next converted in Hbm |- *.
  assert (Hiff : forall r, is_ok r = true <-> r = AVIF_RESULT_OK).
  { intros r. split; [apply is_ok_true | now intros ->]. }
  split; [|split].
  - rewrite !andb_true_iff, !Hiff. tauto.
  - intros Hfail.
    destruct (hd true (alloc_plan w)); simpl in Hbm |- *.
    2:{ exact Hbm. }
    destruct (is_ok (fst po)) eqn:Hpo; simpl in Hbm; [|exact Hbm].
    destruct (is_ok (fst next)) eqn:Hnext; simpl in Hbm; [|exact Hbm].
    apply Hiff in Hpo, Hnext.
    destruct Hfail as [?|[?|?]]; [discriminate | contradiction | contradiction].
  - intros Hhd Hpo Hnext. rewrite Hhd, Hpo, Hnext in Hbm. exact Hbm.
Qed.

(** X13: [decode] is the first frame of a session.  When [createDecoder]
    succeeds on an input and [nextFrame] on the new session returns a result
    for a target, [decode] of the same input into the same target, started
    from the same state, returns true exactly when that result is
    AVIF_RESULT_OK, and leaves the same bitmaps. *)
Theorem decode_is_first_frame thiz encoded len bitmap threads w jdecoder w1 res w2 :
  createDecoder thiz encoded len threads w = Some (jdecoder, w1) ->
  jdecoder <> 0 ->
  nextFrame jdecoder bitmap w1 = Some (res, w2) ->
  exists w',
    decode encoded len bitmap threads w = Some (is_ok res, w') /\
    bitmaps w' = bitmaps w2.
Proof.
  intros Hcreate Hnz Hnext.
  destruct (createDecoder_session _ _ _ _ _ _ _ Hcreate Hnz)
    as (h & _ & _ & _ & Hwr1 & Hdec1 & Hbm1 & _ & Hok & Hhd & Hge).
  assert (Hp1 : wrappers w1 !! jdecoder = Some {| decoder := h |})
    by (rewrite Hwr1; apply lookup_insert_eq).
  assert (Hd1 : decoders w1 !! h = Some _)
    by (rewrite Hdec1; apply lookup_insert_eq).
  rewrite (nextFrame_exact _ bitmap _ _ _ Hp1 Hd1) in Hnext.
  injection Hnext as Hstep.
  destruct (frame_step_frame native_next_image _ _ _ _ _ _ Hstep)
    as (_ & _ & _ & _ & _ & Hfail & _).
  destruct (decode_exact encoded len bitmap threads w Hge) as (w' & Hrun & Hbm).
  exists w'. rewrite Hrun, Hbm, Hhd, Hok. simpl.
  set (next := native_next_image _) in *.
  destruct (is_ok (fst next)) eqn:Hoknext; simpl.
  - destruct (AvifImageToBitmap_outcome_local (snd next) bitmap
                (set_decoders (<[h := snd next]> (decoders w1)) w1) w)
      as [Hres Hpix]; [exact Hbm1|].
    simpl in Hstep. rewrite Hstep in Hres, Hpix. simpl in Hres, Hpix.
    now rewrite <- Hres, <- Hpix.
  - destruct (Hfail eq_refl) as [-> ->]. now rewrite Hoknext, Hbm1.
Qed.

(** ** Sessions do not interfere *)

(** X14: a live session is out of reach of every call that is not made on
    its handle.  [createDecoder], [decode] and [getInfo] leave it as it is
    (and a handle returned by [createDecoder] is a new one); so do frame
    calls on, and the destruction of, any other live session. *)
Theorem other_sessions_untouched jdecoder h d w :
  session_at jdecoder h d w ->
  (forall thiz encoded len threads r w',
     createDecoder thiz encoded len threads w = Some (r, w') ->
     session_at jdecoder h d w' /\ (r <> 0 -> r <> jdecoder)) /\
  (forall encoded len bitmap threads ok w',
     decode encoded len bitmap threads w = Some (ok, w') ->
     session_at jdecoder h d w') /\
  (forall encoded len info ok w',
     getInfo encoded len info w = Some (ok, w') ->
     session_at jdecoder h d w') /\
  (forall other h' d' cs w',
     session_at other h' d' w -> other <> jdecoder -> h' <> h ->
     frame_calls other cs w = Some (tt, w') ->
     session_at jdecoder h d w') /\
  (forall other h' d' w',
     session_at other h' d' w -> other <> jdecoder -> h' <> h ->
     destroyDecoder other w = Some (tt, w') ->
     session_at jdecoder h d w').
Proof.
  intros [Hp Hd]. unfold session_at. repeat split.
  - destruct (Z.ltb_spec threads 0) as [Hneg|Hge].
    { revert H. unfold createDecoder. apply Z.ltb_lt in Hneg. rewrite Hneg.
      intros [= _ <-]. exact Hp. }
    destruct (createDecoder_spec thiz encoded len threads w Hge)
      as (r0 & w0 & Hrun & _ & _ & Hcase).
    rewrite H in Hrun. injection Hrun as <- <-.
    destruct Hcase as [(_ & _ & _ & -> & _)
      | (_ & h0 & evs & _ & [(_ & _ & -> & _)|[(_ & _ & -> & _)
          |(_ & Hfree & _ & _ & -> & _)]])]; try exact Hp.
    rewrite lookup_insert_ne; [exact Hp|]. intros ->. congruence.
  - destruct (Z.ltb_spec threads 0) as [Hneg|Hge].
    { revert H. unfold createDecoder. apply Z.ltb_lt in Hneg. rewrite Hneg.
      intros [= _ <-]. exact Hd. }
    destruct (createDecoder_spec thiz encoded len threads w Hge)
      as (r0 & w0 & Hrun & _ & _ & Hcase).
    rewrite H in Hrun. injection Hrun as <- <-.
    destruct Hcase as [(_ & _ & -> & _)
      | (_ & h0 & evs & _ & [(_ & -> & _)|[(_ & -> & _)
          |(_ & _ & _ & Hfree & _ & -> & _)]])]; try exact Hd.
    rewrite lookup_insert_ne; [exact Hd|]. intros ->. congruence.
  - intros Hnz ->.
    destruct (Z.ltb_spec threads 0) as [Hneg|Hge].
    { revert H. unfold createDecoder. apply Z.ltb_lt in Hneg. rewrite Hneg.
      intros [= <- _]. now apply Hnz. }
    destruct (createDecoder_spec thiz encoded len threads w Hge)
      as (r0 & w0 & Hrun & _ & _ & Hcase).
    rewrite H in Hrun. injection Hrun as <- <-.
    destruct Hcase as [(_ & ? & _)
      | (_ & h0 & evs & _ & [(? & _)|[(? & _)|(_ & Hfree & _)]])];
      try contradiction.
    congruence.
  - destruct (Z.ltb_spec threads 0) as [Hneg|Hge].
    { revert H. unfold decode. apply Z.ltb_lt in Hneg. rewrite Hneg.
      intros [= _ <-]. exact Hp. }
    destruct (decode_spec encoded len bitmap threads w Hge)
      as (ok0 & w0 & h0 & evs & Hrun & _ & Hwr & _).
    rewrite H in Hrun. injection Hrun as <- <-. now rewrite Hwr.
  - destruct (Z.ltb_spec threads 0) as [Hneg|Hge].
    { revert H. unfold decode. apply Z.ltb_lt in Hneg. rewrite Hneg.
      intros [= _ <-]. exact Hd. }
    destruct (decode_spec encoded len bitmap threads w Hge)
      as (ok0 & w0 & h0 & evs & Hrun & Hdec & _).
    rewrite H in Hrun. injection Hrun as <- <-. now rewrite Hdec.
  - destruct (getInfo_spec encoded len info w)
      as (w0 & h0 & evs & Hrun & _ & Hwr & _).
    rewrite H in Hrun. injection Hrun as _ <-. now rewrite Hwr.
  - destruct (getInfo_spec encoded len info w)
      as (w0 & h0 & evs & Hrun & Hdec & _).
    rewrite H in Hrun. injection Hrun as _ <-. now rewrite Hdec.
  - destruct H as [Hp' Hd'].
    destruct (frame_calls_live other cs w h' d' Hp' Hd')
      as (w0 & d0 & Hrun & Hwr & _).
    rewrite H2 in Hrun. injection Hrun as <-. now rewrite Hwr.
  - destruct H as [Hp' Hd'].
    destruct (frame_calls_live other cs w h' d' Hp' Hd')
      as (w0 & d0 & Hrun & _ & Hdec & _).
    rewrite H2 in Hrun. injection Hrun as <-.
    rewrite Hdec, lookup_insert_ne; [exact Hd | exact H1].
  - destruct H as [Hp' Hd'].
    revert H2. unfold destroyDecoder, delete_AvifDecoderWrapper.
    destruct (Z.eqb_spec other 0) as [_|_]; [intros [= <-]; exact Hp|].
    destruct (teardown_run other h' w Hp' (or_intror (ex_intro _ d' Hd')))
      as (w0 & Hrun & Hwr & _).
    rewrite Hrun. intros [= <-].
    rewrite Hwr, lookup_delete_ne; [exact Hp | exact H0].
  - destruct H as [Hp' Hd'].
    revert H2. unfold destroyDecoder, delete_AvifDecoderWrapper.
    destruct (Z.eqb_spec other 0) as [_|_]; [intros [= <-]; exact Hd|].
    destruct (teardown_run other h' w Hp' (or_intror (ex_intro _ d' Hd')))
      as (w0 & Hrun & _ & Hdec & _).
    rewrite Hrun. intros [= <-]. rewrite Hdec.
    destruct (h' =? 0); [exact Hd|].
    rewrite lookup_delete_ne; [exact Hd | exact H1].
Qed.

(** X15: nothing guards a destroyed session.  After [destroyDecoder] on a
    live session, [nextFrame], [nthFrame] and [nextFrameIndex] on the same
    handle all read the freed wrapper, which is undefined behaviour, and
    remain so after any call that allocates no wrapper ([decode] and
    [getInfo] keep theirs on the stack and release it). *)
Theorem use_after_destroy jdecoder h d w w1 :
  session_at jdecoder h d w ->
  jdecoder <> 0 ->
  destroyDecoder jdecoder w = Some (tt, w1) ->
  forall w2,
    (w2 = w1 \/
     (exists encoded len bitmap threads ok,
        decode encoded len bitmap threads w1 = Some (ok, w2)) \/
     (exists encoded len info ok, getInfo encoded len info w1 = Some (ok, w2))) ->
    (forall bitmap, nextFrame jdecoder bitmap w2 = None) /\
    (forall n bitmap, nthFrame jdecoder n bitmap w2 = None) /\
    nextFrameIndex jdecoder w2 = None.
Proof.
  intros [Hp Hd] Hnz Hdestroy w2 Hlater.
  assert (Hgone1 : wrappers w1 !! jdecoder = None).
  { revert Hdestroy. unfold destroyDecoder, delete_AvifDecoderWrapper.
    destruct (Z.eqb_spec jdecoder 0) as [?|_]; [contradiction|].
    destruct (teardown_run jdecoder h w Hp (or_intror (ex_intro _ d Hd)))
      as (w0 & Hrun & Hwr & _).
    rewrite Hrun. intros [= <-]. rewrite Hwr. apply lookup_delete_eq. }
  assert (Hgone : wrappers w2 !! jdecoder = None).
  { destruct Hlater as [->|[(encoded & len & bitmap & threads & ok & Hrun)
                          |(encoded & len & info & ok & Hrun)]].
    - exact Hgone1.
    - destruct (Z.ltb_spec threads 0) as [Hneg|Hge].
      { revert Hrun. unfold decode. apply Z.ltb_lt in Hneg. rewrite Hneg.
        intros [= _ <-]. exact Hgone1. }
      destruct (decode_spec encoded len bitmap threads w1 Hge)
        as (ok0 & w0 & h0 & evs & Hrun0 & _ & Hwr & _).
      rewrite Hrun in Hrun0. injection Hrun0 as <- <-. now rewrite Hwr.
    - destruct (getInfo_spec encoded len info w1)
        as (w0 & h0 & evs & Hrun0 & _ & Hwr & _).
      rewrite Hrun in Hrun0. injection Hrun0 as _ <-. now rewrite Hwr. }
  repeat split; intros;
    unfold nextFrame, DecodeNextImage, nthFrame, DecodeNthImage, nextFrameIndex,
      wrapped_decoder, bind, load_wrapper;
    now rewrite Hgone.
Qed.

End Properties.

(** * The reference library: laws and instances *)

#[local] Existing Instances Reference.types Reference.lib.

Lemma Reference_cursor_law : cursor_law (L := Reference.lib).
Proof.
  split; simpl.
  - intros d d'. unfold Reference.parse.
    destruct (Reference.source (data d)) as [[|w [|h [|f fs]]]|];
      intros [= <-]; reflexivity.
  - intros d d'. unfold Reference.next_image, Reference.seek.
    destruct (_ || _); [discriminate|].
    destruct (Reference.frames (data d) !! _) as [sample|]; [|discriminate].
    destruct (Byte.eqb sample Byte.xff); [discriminate|].
    intros [= <-]. reflexivity.
Qed.

Lemma Reference_reseek_law : reseek_law (L := Reference.lib).
Proof.
  intros d n d'. simpl. unfold Reference.nth_image, Reference.seek.
  destruct (_ || _) eqn:Hrange; [discriminate|].
  destruct (Reference.frames (data d) !! _) as [sample|] eqn:Hframe; [|discriminate].
  destruct (Byte.eqb sample Byte.xff) eqn:Hbad; [discriminate|].
  intros [= <-]. simpl. rewrite Hrange, Hframe, Hbad.
  eexists. split; reflexivity.
Qed.

Lemma decode_is_Construct_DecodeNext_Destroy_witness :
  0 <= android_getCpuCount /\
  decode 1 4 2 0 Reference.start_world =
  (r <- DecodeOneShot 1 4 2 0 ;; ret (succeeded r)) Reference.start_world.
Proof.
  assert (Hcpu : 0 <= android_getCpuCount)
    by (unfold android_getCpuCount; simpl; lia).
  split; [exact Hcpu|].
  exact (proj2 (decode_is_Construct_DecodeNext_Destroy
                  1 4 2 0 Reference.start_world) Hcpu).
Defined.

Lemma AvifImageToBitmap_target_too_small_witness :
  exists w',
    AvifImageToBitmap 1 3 Reference.session_world
      = Some (AVIF_RESULT_UNKNOWN_ERROR, w') /\
    bitmaps w' = bitmaps Reference.session_world.
Proof.
  destruct (AvifImageToBitmap_target_too_small
              1 3 Reference.session_world {| decoder := 1 |}
              Reference.session_decoder Reference.bitmap_1x1_A8)
    as (w' & Hrun & _ & Hbm & _).
  - vm_compute. reflexivity.
  - vm_compute. reflexivity.
  - vm_compute. reflexivity.
  - left. vm_compute. reflexivity.
  - exists w'. split; [exact Hrun | exact Hbm].
Defined.

(** The claim C3 as stated fails where the target is also too small: bitmap
    3 is 1x1 in the format A_8, the image is 2x2, and the conversion
    reports the size (AVIF_RESULT_UNKNOWN_ERROR), not the format. *)
Lemma unsupported_format_counterexample :
  bitmaps Reference.session_world !! 3 = Some Reference.bitmap_1x1_A8 /\
  supported_format (bitmap_format (bitmap_info Reference.bitmap_1x1_A8)) = false /\
  fst <$> AvifImageToBitmap 1 3 Reference.session_world
    = Some AVIF_RESULT_UNKNOWN_ERROR /\
  ~ exists w',
      AvifImageToBitmap 1 3 Reference.session_world
        = Some (AVIF_RESULT_NOT_IMPLEMENTED, w').
Proof.
  split; [vm_compute; reflexivity|].
  split; [reflexivity|].
  split; [vm_compute; reflexivity|].
  intros [w' Hrun]. vm_compute in Hrun. discriminate.
Qed.

Lemma AvifImageToBitmap_format_witness :
  (exists w',
     AvifImageToBitmap 1 5 Reference.session_world
       = Some (AVIF_RESULT_NOT_IMPLEMENTED, w') /\
     bitmaps w' = bitmaps Reference.session_world) /\
  rgb_depth (rgb_image_for
               (image Reference.session_decoder)
               (bitmap_info Reference.bitmap_2x2)
               (bitmap_pixels Reference.bitmap_2x2)) = 8.
Proof.
  split.
  - destruct (AvifImageToBitmap_format
                1 5 Reference.session_world {| decoder := 1 |}
                Reference.session_decoder Reference.bitmap_2x2_4444)
      as (Hunsupported & _).
    + vm_compute. reflexivity.
    + vm_compute. reflexivity.
    + vm_compute. reflexivity.
    + vm_compute. discriminate.
    + vm_compute. discriminate.
    + destruct Hunsupported as (w' & Hrun & _ & Hbm); [discriminate..|].
      exists w'. split; [exact Hrun | exact Hbm].
  - destruct (AvifImageToBitmap_format
                1 2 Reference.session_world {| decoder := 1 |}
                Reference.session_decoder Reference.bitmap_2x2)
      as (_ & _ & _ & H8888 & _).
    + vm_compute. reflexivity.
    + vm_compute. reflexivity.
    + vm_compute. reflexivity.
    + vm_compute. discriminate.
    + vm_compute. discriminate.
    + exact (proj1 (H8888 eq_refl)).
Defined.

Lemma createDecoder_frame_durations_witness :
  (exists r w' ds,
     createDecoder 7 1 4 0 Reference.start_world = Some (r, w') /\
     r <> 0 /\
     fields w' !! (7, "frameCount") = Some (JInt 2) /\
     fields w' !! (7, "frameDurations") = Some (JDoubleArray ds) /\
     length ds = 2%nat) /\
  (exists r w',
     createDecoder 7 1 4 0 Reference.bad_timing_world = Some (r, w') /\
     r = 0).
Proof.
  split.
  - destruct (createDecoder_frame_durations 7 1 4 0 Reference.start_world)
      as (r & w' & Hrun & Hiff & Hsession & _).
    assert (Hr : r <> 0).
    { apply (Hiff ltac:(lia)).
      do 6 (split; [vm_compute; first [reflexivity | discriminate]|]).
      intros i Hi.
      change (imageCount _) with 2 in Hi.
      assert (Hcase : i = 0 \/ i = 1) by lia.
      destruct Hcase as [->| ->]; vm_compute; reflexivity. }
    destruct (Hsession Hr) as (wr & d & ds & _ & _ & -> & Hcount & Hds & Hlen & _).
    exists r, w', ds. split; [exact Hrun|]. split; [exact Hr|].
    split; [exact Hcount|]. split; [exact Hds|].
    change (imageCount _) with 2 in Hlen. lia.
  - destruct (createDecoder_frame_durations 7 1 4 0 Reference.bad_timing_world)
      as (r & w' & Hrun & _ & _ & Hfail & _).
    exists r, w'. split; [exact Hrun|].
    apply (Hfail 1).
    + lia.
    + vm_compute. reflexivity.
    + vm_compute. split; [discriminate | reflexivity].
    + vm_compute. discriminate.
Defined.

Lemma nextFrameIndex_counts_frames_witness :
  createDecoder 7 1 4 0 Reference.start_world
    = Some (1, Reference.session_world) /\
  nextFrame 1 2 Reference.session_world
    = Some (AVIF_RESULT_OK, Reference.next_world) /\
  nextFrameIndex 1 Reference.next_world
    = Some (1, Reference.next_world).
Proof.
  assert (Hcreate : createDecoder 7 1 4 0 Reference.start_world
                    = Some (1, Reference.session_world))
    by (vm_compute; reflexivity).
  assert (Hnext : nextFrame 1 2 Reference.session_world
                  = Some (AVIF_RESULT_OK, Reference.next_world))
    by (vm_compute; reflexivity).
  split; [exact Hcreate|]. split; [exact Hnext|].
  refine (proj2 nextFrameIndex_counts_frames Reference_cursor_law
            7 1 4 0 2 _ 1 _ _ Hcreate _ Hnext).
  lia.
Defined.

Lemma thread_count_validation_witness :
  decode 1 4 2 (-1) Reference.start_world
    = Some (false, emit (EvLOGE "Invalid value for threads (%d)." [ArgInt (-1)])
                     Reference.start_world) /\
  createDecoder 7 1 4 (-1) Reference.start_world
    = Some (0, emit (EvLOGE "Invalid value for threads (%d)." [ArgInt (-1)])
                 Reference.start_world).
Proof.
  destruct (proj1 (thread_count_validation 7 1 4 2 (-1) Reference.start_world))
    as (Hdecode & Hcreate & _).
  - lia.
  - split; [exact Hdecode | exact Hcreate].
Defined.

Lemma conversion_alpha_premultiplied_witness :
  exists img rgb,
    alphaPremultiplied rgb = true /\
    trace Reference.next_world
      = trace Reference.session_world ++ [EvYUVToRGB img rgb].
Proof.
  destruct (proj1 (proj2 (conversion_alpha_premultiplied))
              1 2
              (set_decoders
                 (<[1 := snd (Reference.next_image Reference.session_decoder)]>
                    (decoders Reference.session_world))
                 Reference.session_world)
              Reference.next_world)
    as (wr & d & b & px & _ & _ & _ & Hpre & _ & Htr & _).
  - vm_compute. reflexivity.
  - eexists _, _. split; [exact Hpre | exact Htr].
Defined.

(** The claim C8 as stated fails at the second call: after
    [destroyDecoder] on the session at address 1, [destroyDecoder] on the
    same address is not a call without effect but undefined. *)
Lemma destroy_twice_counterexample :
  exists w',
    destroyDecoder 1 Reference.session_world = Some (tt, w') /\
    destroyDecoder 1 w' <> Some (tt, w') /\
    destroyDecoder 1 w' = None.
Proof.
  eexists. split; [vm_compute; reflexivity|].
  split; vm_compute; [discriminate | reflexivity].
Qed.

Lemma destroyDecoder_releases_witness :
  exists w',
    destroyDecoder 1 Reference.session_world = Some (tt, w') /\
    decoders w' !! 1 = None /\
    destroyDecoder 1 w' = None.
Proof.
  destruct (proj1 (destroyDecoder_releases)
              1 Reference.session_world 1 Reference.session_decoder)
    as (w' & Hrun & _ & Hgone & _ & _ & Hagain).
  - lia.
  - vm_compute. reflexivity.
  - lia.
  - vm_compute. reflexivity.
  - exists w'. auto.
Defined.

Lemma Reference_overwrite_law : overwrite_law (L := Reference.lib).
Proof.
  intros img rgb px. simpl. unfold Reference.yuv_to_rgb. simpl.
  destruct (rowBytes rgb <? rgb_width rgb); [discriminate|].
  intros [= <-]. now rewrite map_map.
Qed.

Lemma nthFrame_reseek_idempotent_witness :
  nthFrame 1 1 2 Reference.session_world
    = Some (AVIF_RESULT_OK, Reference.reseek_world) /\
  bitmaps Reference.reseek_world !! 4 = bitmaps Reference.session_world !! 2 /\
  (exists w2,
     nthFrame 1 1 4 Reference.reseek_world = Some (AVIF_RESULT_OK, w2) /\
     bitmap_pixels <$> bitmaps w2 !! 4
       = bitmap_pixels <$> bitmaps Reference.reseek_world !! 2) /\
  (exists w2,
     nthFrame 1 1 2 Reference.reseek_world = Some (AVIF_RESULT_OK, w2) /\
     bitmaps w2 !! 2 = bitmaps Reference.reseek_world !! 2).
Proof.
  assert (Hfirst : nthFrame 1 1 2 Reference.session_world
                   = Some (AVIF_RESULT_OK, Reference.reseek_world))
    by (vm_compute; reflexivity).
  assert (Hsame : bitmaps Reference.reseek_world !! 4
                  = bitmaps Reference.session_world !! 2)
    by (vm_compute; reflexivity).
  split; [exact Hfirst|]. split; [exact Hsame|].
  destruct (nthFrame_reseek_idempotent Reference_reseek_law) as [Hfresh Hreuse].
  split.
  - destruct (Hfresh 1 1 2 4 _ _ Hfirst Hsame)
      as (w2 & Hsecond & _ & _ & Hpixels).
    exists w2. split; [exact Hsecond | exact Hpixels].
  - destruct (Hreuse Reference_overwrite_law 1 1 2 _ _ Hfirst)
      as (w2 & Hsecond & _ & Hpixels).
    exists w2. split; [exact Hsecond | exact Hpixels].
Defined.

Lemma createDecoder_failure_keeps_metadata_witness :
  fields Reference.bad_timing_world !! (7, "width") = None /\
  exists r w',
    createDecoder 7 1 4 0 Reference.bad_timing_world = Some (r, w') /\
    fields w' !! (7, "width") = Some (JInt 2) /\
    fields w' !! (7, "frameCount") = Some (JInt 2) /\
    r = 0.
Proof.
  split; [vm_compute; reflexivity|].
  destruct (createDecoder_failure_keeps_metadata 7 1 4 0 Reference.bad_timing_world)
    as (r & w' & Hrun & (Hwidth & _ & _ & _ & _ & Hcount) & Hfail).
  - lia.
  - vm_compute. reflexivity.
  - vm_compute. reflexivity.
  - vm_compute. reflexivity.
  - exists r, w'. split; [exact Hrun|].
    split; [exact Hwidth|]. split; [exact Hcount|].
    apply Hfail. right. right. left. exists 1.
    split; [vm_compute; split; [discriminate | reflexivity] | vm_compute; discriminate].
Defined.

(** ** Instances of the further properties *)

Lemma getInfo_all_or_nothing_witness :
  exists w',
    getInfo 1 4 9 Reference.start_world = Some (true, w') /\
    fields w' !! (9, "width") = Some (JInt 2) /\
    fields w' !! (9, "frameCount") = None.
Proof.
  destruct (getInfo_all_or_nothing 1 4 9 Reference.start_world)
    as (ok & w' & Hrun & Hiff & Hset & _).
  assert (Hok : ok = true).
  { apply Hiff. split; vm_compute; reflexivity. }
  subst ok. exists w'. split; [exact Hrun|].
  destruct (Hset eq_refl) as (Hwidth & _ & _ & _ & Hrest).
  split; [exact Hwidth|].
  rewrite Hrest; [vm_compute; reflexivity|].
  right. repeat split; discriminate.
Defined.

Lemma CreateDecoderAndParse_configures_witness :
  maxThreads (configure 2 native_create) = 2 /\
  Z.testbit (strictFlags (configure 2 native_create)) 2 = true /\
  decoders Reference.parsed_world !! 1
    = Some (snd (parse_outcome (Some Reference.two_frames) 4 2)).
Proof.
  destruct (CreateDecoderAndParse_configures
              1 (Some Reference.two_frames) 4 2 Reference.wrapper_world
              {| decoder := 0 |} true Reference.parsed_world 1)
    as (Hthreads & _ & _ & Hflags & _ & _ & _ & _ & Hdec).
  - vm_compute. reflexivity.
  - vm_compute. reflexivity.
  - vm_compute. reflexivity.
  - discriminate.
  - split; [exact Hthreads|]. split.
    + rewrite (Hflags 2); [vm_compute; reflexivity | lia].
    + exact Hdec.
Defined.

Lemma CreateDecoderAndParse_diagnostics_witness :
  exists w' h,
    CreateDecoderAndParse 1 None 4 2 Reference.wrapper_world = Some (false, w') /\
    trace w'
    = trace Reference.wrapper_world ++
        [EvDecoderCreate h;
         EvLOGE "Failed to set AVIF IO to a memory reader." []].
Proof.
  destruct (CreateDecoderAndParse_diagnostics
              1 None 4 2 Reference.wrapper_world {| decoder := 0 |})
    as (ok & w' & h & Hrun & Hiff & Htr & _).
  - vm_compute. reflexivity.
  - destruct ok.
    + destruct (proj1 Hiff eq_refl) as (_ & Hio & _). vm_compute in Hio.
      discriminate.
    + exists w', h. split; [exact Hrun | exact Htr].
Defined.

Lemma AvifImageToBitmap_keeps_locks_witness :
  exists b',
    bitmaps Reference.converted_world !! 2 = Some b' /\
    locks b' = 0%nat /\
    bitmaps Reference.converted_world !! 4 = Some Reference.bitmap_2x2.
Proof.
  destruct (AvifImageToBitmap_keeps_locks
              1 2 Reference.session_world AVIF_RESULT_OK Reference.converted_world)
    as (_ & _ & _ & Hbitmaps).
  - vm_compute. reflexivity.
  - pose proof (Hbitmaps 2) as H2. pose proof (Hbitmaps 4) as H4.
    change (bitmaps Reference.session_world !! 2)
      with (Some Reference.bitmap_2x2) in H2.
    change (bitmaps Reference.session_world !! 4)
      with (Some Reference.bitmap_2x2) in H4.
    destruct H2 as (b2 & Hb2 & _ & _ & Hlocks & _).
    destruct H4 as (b4 & Hb4 & _ & _ & _ & Hsame).
    exists b2. split; [exact Hb2|]. split; [exact Hlocks|].
    rewrite Hb4, Hsame; [reflexivity | discriminate].
Defined.

Lemma AvifImageToBitmap_unusable_target_witness :
  AvifImageToBitmap 1 9 Reference.session_world
  = Some (AVIF_RESULT_UNKNOWN_ERROR,
          emit (EvLOGE "AndroidBitmap_getInfo failed." []) Reference.session_world) /\
  AvifImageToBitmap 1 6 Reference.unlockable_world
  = Some (AVIF_RESULT_UNKNOWN_ERROR,
          emit (EvLOGE "Failed to lock Bitmap." []) Reference.unlockable_world).
Proof.
  split.
  - apply (proj1 AvifImageToBitmap_unusable_target). vm_compute. reflexivity.
  - apply (proj2 AvifImageToBitmap_unusable_target
             1 6 Reference.unlockable_world {| decoder := 1 |}
             Reference.session_decoder Reference.bitmap_unlockable).
    + vm_compute. reflexivity.
    + vm_compute. reflexivity.
    + vm_compute. reflexivity.
    + vm_compute. discriminate.
    + vm_compute. discriminate.
    + reflexivity.
    + reflexivity.
Defined.

Lemma AvifImageToBitmap_result_witness :
  exists w',
    AvifImageToBitmap 1 2 Reference.session_world = Some (AVIF_RESULT_OK, w').
Proof.
  destruct (AvifImageToBitmap_result
              1 2 Reference.session_world {| decoder := 1 |}
              Reference.session_decoder)
    as (res & w' & Hrun & Hiff & _).
  - vm_compute. reflexivity.
  - vm_compute. reflexivity.
  - assert (Hok : res = AVIF_RESULT_OK).
    { apply Hiff. exists Reference.bitmap_2x2.
      split; [vm_compute; reflexivity|].
      split; [vm_compute; discriminate|].
      split; [vm_compute; discriminate|].
      split; [reflexivity|]. split; [reflexivity|].
      vm_compute. reflexivity. }
    subst res. exists w'. exact Hrun.
Defined.

Lemma frame_decode_failure_witness :
  exists w',
    nthFrame 1 5 2 Reference.session_world = Some (AVIF_RESULT_NATIVE 16, w') /\
    bitmaps w' = bitmaps Reference.session_world /\
    decoders w' !! 1 = Some Reference.session_decoder.
Proof.
  destruct (proj2 (frame_decode_failure
                     1 2 Reference.session_world 1 Reference.session_decoder
                     ltac:(vm_compute; reflexivity) ltac:(vm_compute; reflexivity))
              5 (AVIF_RESULT_NATIVE 16) Reference.session_decoder)
    as (w' & Hrun & Hbm & _ & _ & Hdec).
  - vm_compute. reflexivity.
  - discriminate.
  - exists w'. split; [exact Hrun|]. split; [exact Hbm | exact Hdec].
Defined.

Lemma nextFrame_commits_decode_witness :
  exists w',
    nextFrame 1 3 Reference.session_world = Some (AVIF_RESULT_UNKNOWN_ERROR, w') /\
    bitmaps w' = bitmaps Reference.session_world /\
    nextFrameIndex 1 w' = Some (1, w').
Proof.
  destruct (nextFrame_commits_decode
              1 3 Reference.session_world 1 Reference.session_decoder)
    as (res & w' & Hrun & _ & _ & _ & Hsmall).
  - vm_compute. reflexivity.
  - vm_compute. reflexivity.
  - destruct (Hsmall ltac:(vm_compute; reflexivity) Reference.bitmap_1x1_A8)
      as (-> & Hbm & Hindex).
    + vm_compute. reflexivity.
    + left. vm_compute. reflexivity.
    + exists w'. split; [exact Hrun|]. split; [exact Hbm | exact Hindex].
Defined.

Lemma session_lifecycle_witness :
  exists w2 w3,
    frame_calls 1
      [CallNextFrame 2; CallNextFrameIndex; CallNthFrame 7 4; CallNthFrame 0 3]
      Reference.session_world = Some (tt, w2) /\
    destroyDecoder 1 w2 = Some (tt, w3) /\
    decoders w3 = decoders Reference.start_world /\
    wrappers w3 = wrappers Reference.start_world.
Proof.
  destruct (session_lifecycle 7 1 4 0 Reference.start_world 1
              Reference.session_world
              [CallNextFrame 2; CallNextFrameIndex; CallNthFrame 7 4; CallNthFrame 0 3])
    as (w2 & w3 & Hcalls & _ & Hdestroy & Hdec & Hwr & _).
  - vm_compute. reflexivity.
  - discriminate.
  - exists w2, w3. auto.
Defined.

Lemma nextFrameIndex_after_nextFrames_witness :
  nextFrames 1 [2; 4] Reference.session_world
    = Some ([AVIF_RESULT_OK; AVIF_RESULT_OK], Reference.played_world) /\
  nextFrameIndex 1 Reference.played_world = Some (2, Reference.played_world).
Proof.
  assert (Hplay : nextFrames 1 [2; 4] Reference.session_world
                  = Some ([AVIF_RESULT_OK; AVIF_RESULT_OK], Reference.played_world))
    by (vm_compute; reflexivity).
  split; [exact Hplay|].
  refine (nextFrameIndex_after_nextFrames Reference_cursor_law
            7 1 4 0 Reference.start_world 1 Reference.session_world
            [2; 4] _ Reference.played_world _ _ Hplay _).
  - vm_compute. reflexivity.
  - discriminate.
  - repeat constructor.
Defined.

Lemma decode_verdict_witness :
  decode 1 4 2 0 Reference.start_world = Some (true, Reference.decoded_world) /\
  fst (parse_outcome (buffers Reference.start_world !! 1) 4 (getThreadCount 0))
  = AVIF_RESULT_OK /\
  bitmaps Reference.decoded_world = bitmaps Reference.next_world.
Proof.
  assert (Hrun : decode 1 4 2 0 Reference.start_world
                 = Some (true, Reference.decoded_world))
    by (vm_compute; reflexivity).
  destruct (decode_verdict 1 4 2 0 Reference.start_world true
              Reference.decoded_world ltac:(lia) Hrun)
    as (Hiff & _ & Hpixels).
  destruct (proj1 Hiff eq_refl) as (Hhd & Hpo & Hnext & _).
  split; [exact Hrun|]. split; [exact Hpo|].
  rewrite (Hpixels Hhd Hpo Hnext). vm_compute. reflexivity.
Defined.

Lemma decode_is_first_frame_witness :
  exists w',
    decode 1 4 2 0 Reference.start_world = Some (true, w') /\
    bitmaps w' = bitmaps Reference.next_world.
Proof.
  apply (decode_is_first_frame 7 1 4 2 0 Reference.start_world 1
           Reference.session_world AVIF_RESULT_OK Reference.next_world).
  - vm_compute. reflexivity.
  - discriminate.
  - vm_compute. reflexivity.
Defined.

Lemma other_sessions_untouched_witness :
  session_at 1 1 Reference.session_decoder Reference.two_sessions_world /\
  forall w',
    frame_calls 2 [CallNextFrame 2; CallNextFrame 4] Reference.two_sessions_world
      = Some (tt, w') ->
    session_at 1 1 Reference.session_decoder w'.
Proof.
  assert (Hlive : session_at 1 1 Reference.session_decoder Reference.session_world)
    by (split; vm_compute; reflexivity).
  assert (Hkept : session_at 1 1 Reference.session_decoder
                    Reference.two_sessions_world).
  { apply (proj1 (other_sessions_untouched 1 1 Reference.session_decoder
                    Reference.session_world Hlive)
             8 1 4 0 2 Reference.two_sessions_world).
    vm_compute. reflexivity. }
  split; [exact Hkept|].
  intros w' Hcalls.
  apply (proj1 (proj2 (proj2 (proj2
           (other_sessions_untouched 1 1 Reference.session_decoder
              Reference.two_sessions_world Hkept))))
           2 2 Reference.session_decoder
           [CallNextFrame 2; CallNextFrame 4] w').
  - split; vm_compute; reflexivity.
  - discriminate.
  - discriminate.
  - exact Hcalls.
Defined.

Lemma use_after_destroy_witness :
  destroyDecoder 1 Reference.session_world = Some (tt, Reference.destroyed_world) /\
  nextFrame 1 2 Reference.destroyed_world = None /\
  nextFrameIndex 1 Reference.destroyed_world = None.
Proof.
  assert (Hdestroy : destroyDecoder 1 Reference.session_world
                     = Some (tt, Reference.destroyed_world))
    by (vm_compute; reflexivity).
  destruct (use_after_destroy 1 1 Reference.session_decoder
              Reference.session_world Reference.destroyed_world)
    with (w2 := Reference.destroyed_world)
    as (Hnext & _ & Hindex).
  - split; vm_compute; reflexivity.
  - discriminate.
  - exact Hdestroy.
  - left. reflexivity.
  - split; [exact Hdestroy|]. split; [apply Hnext | exact Hindex].
Defined.
